(** * OOXML fixup and validation for JetRedline

    A shallow embedding of [skills/jetredline/ooxml_fixup.py] and
    [skills/jetredline/ooxml_validate.py].

    Modelling conventions.
    - A parsed part is a minidom tree: elements with a qualified tag name,
      attributes and ordered children; text nodes; and the remaining node
      types (comments, CDATA sections, processing instructions), which the
      scripts never look into.
    - The unpacked directory is a finite map from relative path to file.
      A file either parses to a tree or does not; an absent path is a
      missing file.  [write_xml] followed by a later [parse_xml] of the same
      path is taken to give back the tree that was written (a document whose
      root element was removed serialises to a file that no longer parses).
    - In-place mutation of DOM nodes becomes a functional update of the tree;
      a node held in a Python list is identified by its position in document
      order.
    - Python sets are [gset]s, dicts are [gmap]s.  Where Python iterates a
      set in hash order the model iterates [elements]; no statement below
      depends on that order.
    - [int] and [str] are modelled on unbounded integers over ASCII input
      (optional surrounding white space, optional sign, digits with single
      underscores between them); digits and white space beyond ASCII, and
      CPython's limit on the number of digits, are outside the model. *)

From Stdlib Require Import ZArith Ascii String DecimalString Decimal.
From Stdlib Require DecimalZ DecimalPos.
From stdpp Require Import gmap strings list fin_maps sorting.

Local Open Scope string_scope.
Set Warnings "-register-all".

(* ===================================================================== *)
(** * The DOM *)
(* ===================================================================== *)

Module Dom.

Inductive node : Type :=
| Elem (tagName : string) (attributes : list (string * string))
       (childNodes : list node)
| Text (data : string)
| Misc (data : string).

Definition tagName (n : node) : string :=
  match n with Elem t _ _ => t | _ => "" end.

Definition attributes (n : node) : list (string * string) :=
  match n with Elem _ a _ => a | _ => [] end.

Definition childNodes (n : node) : list node :=
  match n with Elem _ _ cs => cs | _ => [] end.

Definition is_elem (n : node) : bool :=
  match n with Elem _ _ _ => true | _ => false end.

(** Structural induction that reaches the children. *)
Section node_induction.
Variable P : node → Prop.
Hypothesis HElem : ∀ t a cs, Forall P cs → P (Elem t a cs).
Hypothesis HText : ∀ s, P (Text s).
Hypothesis HMisc : ∀ s, P (Misc s).

Fixpoint node_rect' (n : node) : P n :=
  match n with
  | Elem t a cs =>
      HElem t a cs
        ((fix go (l : list node) : Forall P l :=
            match l with
            | [] => List.Forall_nil P
            | c :: l' => @List.Forall_cons _ P c l' (node_rect' c) (go l')
            end) cs)
  | Text s => HText s
  | Misc s => HMisc s
  end.
End node_induction.

(** [Element.getAttribute]: the empty string when the attribute is absent. *)
Fixpoint attr_lookup (a : list (string * string)) (name : string) : string :=
  match a with
  | [] => ""
  | (k, v) :: a' => if String.eqb k name then v else attr_lookup a' name
  end.

Definition getAttribute (el : node) (name : string) : string :=
  attr_lookup (attributes el) name.

(** [Element.setAttribute]: overwrite in place, or add. *)
Fixpoint attr_update (a : list (string * string)) (name value : string)
  : list (string * string) :=
  match a with
  | [] => [(name, value)]
  | (k, v) :: a' =>
      if String.eqb k name then (k, value) :: a'
      else (k, v) :: attr_update a' name value
  end.

Definition setAttribute (el : node) (name value : string) : node :=
  match el with
  | Elem t a cs => Elem t (attr_update a name value) cs
  | _ => el
  end.

(** All elems of a subtree in document order, the root of the subtree
    first. *)
Fixpoint elems (n : node) : list node :=
  match n with
  | Elem _ _ cs => n :: (cs ≫= elems)
  | _ => []
  end.

(** [Document.getElementsByTagName]: the document element is a candidate. *)
Definition get_elements_by_tag (doc : node) (tag : string) : list node :=
  filter (λ el, tagName el = tag) (elems doc).

(** [Element.getElementsByTagName]: descendants only. *)
Definition getElementsByTagName (el : node) (tag : string) : list node :=
  filter (λ el, tagName el = tag) (childNodes el ≫= elems).

(** Attribute rewriting in place.  Every element takes the attributes that
    [update] gives it; [update] only ever calls [setAttribute], and reads
    nothing but the element's own tag, attributes and text children, which
    no earlier rewrite has touched. *)
Fixpoint map_elems (update : node → node) (n : node) : node :=
  match n with
  | Elem t a cs =>
      Elem t (attributes (update n)) (map_elems update <$> cs)
  | _ => n
  end.

End Dom.

(* ===================================================================== *)
(** * The Python built-ins the scripts rely on *)
(* ===================================================================== *)

Module Py.

(** ASCII white space as [str.strip] and [int] see it. *)
Definition is_space (c : ascii) : bool :=
  let n := nat_of_ascii c in
  ((9 <=? n)%nat && (n <=? 13)%nat) || ((28 <=? n)%nat && (n <=? 32)%nat).

Definition is_digit (c : ascii) : bool :=
  let n := nat_of_ascii c in (48 <=? n)%nat && (n <=? 57)%nat.

Fixpoint lstrip (s : string) : string :=
  match s with
  | EmptyString => EmptyString
  | String c s' => if is_space c then lstrip s' else s
  end.

Fixpoint rstrip (s : string) : string :=
  match s with
  | EmptyString => EmptyString
  | String c s' =>
      match rstrip s' with
      | EmptyString => if is_space c then EmptyString else String c EmptyString
      | r => String c r
      end
  end.

(** [str.strip()] *)
Definition strip (s : string) : string := rstrip (lstrip s).

(** The digits of an integer literal with the separating underscores
    dropped; [None] when the text is not [digit (_? digit)*]. *)
Fixpoint digits (s : string) (after_digit : bool) : option string :=
  match s with
  | EmptyString => if after_digit then Some EmptyString else None
  | String c s' =>
      if is_digit c then
        match digits s' true with
        | Some d => Some (String c d)
        | None => None
        end
      else if Ascii.eqb c "_" && after_digit then digits s' false
      else None
  end.

(** [int(val)] on a string; [None] stands for [ValueError]. *)
Definition int (val : string) : option Z :=
  let s := strip val in
  let '(negative, body) :=
    match s with
    | String "+" s' => (false, s')
    | String "-" s' => (true, s')
    | _ => (false, s)
    end in
  match digits body false with
  | None => None
  | Some d =>
      match NilEmpty.uint_of_string d with
      | None => None
      | Some u => Some (if negative then - Z.of_uint u else Z.of_uint u)%Z
      end
  end.

(** [str(n)] on an integer. *)
Definition str (n : Z) : string := NilZero.string_of_int (Z.to_int n).

(** A string made of decimal digits only. *)
Fixpoint all_digits (s : string) : bool :=
  match s with
  | EmptyString => true
  | String c s' => is_digit c && all_digits s'
  end.

(** [a or b] on strings. *)
Definition or_else (a b : string) : string :=
  if String.eqb a "" then b else a.

(** Truthiness of a string. *)
Definition nonempty (s : string) : bool := negb (String.eqb s "").

End Py.


(* ===================================================================== *)
(** * ooxml_fixup.py *)
(* ===================================================================== *)

Module Fixup.
Import Dom.

(** ** The unpacked directory *)

Inductive file : Type :=
| Unparseable
| Parsed (doc : node).

(** The files under [unpacked_dir], and the paths [write_xml] was called
    on, oldest first. *)
Record disk : Type := Disk {
  files : gmap string file;
  written : list string
}.

(** [parse_xml]: [(doc, True)] is [Some doc], [(None, False)] is [None]. *)
Definition parse_xml (fs : disk) (path : string) : option node :=
  match files fs !! path with
  | Some (Parsed doc) => Some doc
  | _ => None
  end.

Definition path_exists (fs : disk) (path : string) : bool :=
  bool_decide (is_Some (files fs !! path)).

(** [write_xml]: whole-file overwrite.  [doc] is the document element, or
    [None] once it has been removed from its document.  The directory keeps
    the tree that [toxml] was given; what a parser makes of the file it
    wrote is [Serialise.read_back] of that tree, and the directory as a
    later process finds it is [Serialise.reopen]. *)
Definition write_xml (doc : option node) (path : string) (fs : disk) : disk :=
  {| files := <[path := match doc with
                        | Some root => Parsed root
                        | None => Unparseable
                        end]> (files fs);
     written := (written fs ++ [path])%list |}.

Definition doc_path : string := "word/document.xml".
Definition comments_path : string := "word/comments.xml".
Definition ct_path : string := "[Content_Types].xml".
Definition ext_path : string := "word/commentsExtended.xml".
Definition ids_path : string := "word/commentsIds.xml".
Definition extensible_path : string := "word/commentsExtensible.xml".

(** ** Helpers *)

(** The integer a node's [w:id] stands for, if it has one: the two
    [continue] branches of the indexing loops. *)
Definition w_id (el : node) : option Z :=
  let val := getAttribute el "w:id" in
  if Py.nonempty val then Py.int val else None.

Definition collect_w_ids (doc : node) (tags : list string)
  : gmap Z (list (string * node)) :=
  foldl (λ id_map tag,
    foldl (λ id_map el,
      match w_id el with
      | None => id_map
      | Some id_int =>
          <[id_int := (default [] (id_map !! id_int) ++ [(tag, el)])%list]>
            id_map
      end) id_map (get_elements_by_tag doc tag)) ∅ tags.

(** ** A. ID deconfliction *)

Definition BOOKMARK_TAGS : list string := ["w:bookmarkStart"; "w:bookmarkEnd"].
Definition COMMENT_DOC_TAGS : list string :=
  ["w:commentRangeStart"; "w:commentRangeEnd"; "w:commentReference"].
Definition CHANGE_TAGS : list string :=
  ["w:ins"; "w:del"; "w:rPrChange"; "w:pPrChange"; "w:sectPrChange";
   "w:tblPrChange"; "w:trPrChange"; "w:tcPrChange"; "w:tblGridChange"].

Record id_summary : Type := IdSummary {
  comments_renumbered : nat;
  changes_renumbered : nat
}.

(** [max] of a non-empty set. *)
Definition set_max (s : gset Z) : Z :=
  match elements s with
  | [] => 0%Z
  | x :: l => foldl Z.max x l
  end.

(** [sorted] of a set. *)
Definition sorted (s : gset Z) : list Z := merge_sort Z.le (elements s).

(** One old→new mapping pass: the ids are visited in the given order and
    each colliding one takes the next value of the counter. *)
Definition build_remap (ids : list Z) (collides : Z → bool) (next_id : Z)
  : gmap Z Z * Z :=
  foldl (λ '(remap, next_id) old_id,
           if collides old_id
           then (<[old_id := next_id]> remap, (next_id + 1)%Z)
           else (remap, next_id))
        (∅, next_id) ids.

(** The rewriting loops.  An element sits in the index of a tag list under
    the integer its own [w:id] stands for, so calling [setAttribute] on the
    elements indexed under the remapped ids rewrites, in the tree, exactly
    the elements of those tags whose [w:id] stands for a remapped id.  The
    same function is the loop over [w:comment] in comments.xml. *)
Definition renumber_el (tags : list string) (remap : gmap Z Z) (el : node)
  : node :=
  if bool_decide (tagName el ∈ tags) then
    match w_id el with
    | Some old_id =>
        match remap !! old_id with
        | Some new_id => setAttribute el "w:id" (Py.str new_id)
        | None => el
        end
    | None => el
    end
  else el.

Definition renumber (tags : list string) (remap : gmap Z Z) (n : node)
  : node :=
  map_elems (renumber_el tags remap) n.

(** How often the counter in a rewriting loop is bumped. *)
Definition renumbered (id_map : gmap Z (list (string * node)))
    (remap : gmap Z Z) : nat :=
  foldr (λ '(old_id, _) n, length (default [] (id_map !! old_id)) + n) 0
        (map_to_list remap).

(** The three key sets, and the collision test, of a document. *)
Definition id_set (doc : node) (tags : list string) : gset Z :=
  dom (collect_w_ids doc tags).

Definition has_collision (doc : node) : bool :=
  let bookmark_id_set := id_set doc BOOKMARK_TAGS in
  let comment_id_set := id_set doc COMMENT_DOC_TAGS in
  let change_id_set := id_set doc CHANGE_TAGS in
  bool_decide (bookmark_id_set ∩ comment_id_set ≠ ∅)
  || bool_decide (bookmark_id_set ∩ change_id_set ≠ ∅)
  || bool_decide (comment_id_set ∩ change_id_set ≠ ∅).

(** The two old→new mappings with the counter after each. *)
Definition comment_id_remap (doc : node) : gmap Z Z * Z :=
  let all_tags := (BOOKMARK_TAGS ++ COMMENT_DOC_TAGS ++ CHANGE_TAGS)%list in
  let max_id := set_max (id_set doc all_tags) in
  let bookmark_id_set := id_set doc BOOKMARK_TAGS in
  let comment_id_set := id_set doc COMMENT_DOC_TAGS in
  let change_id_set := id_set doc CHANGE_TAGS in
  let next_id := (max_id + 1)%Z in
  build_remap (sorted comment_id_set)
    (λ old_id, bool_decide (old_id ∈ bookmark_id_set)
               || bool_decide (old_id ∈ change_id_set))
    next_id.

Definition change_id_remap (doc : node) : gmap Z Z * Z :=
  let bookmark_id_set := id_set doc BOOKMARK_TAGS in
  let comment_id_set := id_set doc COMMENT_DOC_TAGS in
  let change_id_set := id_set doc CHANGE_TAGS in
  let next_id := snd (comment_id_remap doc) in
  build_remap (sorted change_id_set)
    (λ old_id, bool_decide (old_id ∈ bookmark_id_set)
               || bool_decide (old_id ∈ comment_id_set))
    next_id.

(** document.xml after both rewriting loops. *)
Definition deconflict_doc (doc : node) : node :=
  renumber CHANGE_TAGS (fst (change_id_remap doc))
    (renumber COMMENT_DOC_TAGS (fst (comment_id_remap doc)) doc).

Definition deconflict_ids (fs : disk) : id_summary * disk :=
  let summary := IdSummary 0 0 in
  match parse_xml fs doc_path with
  | None => (summary, fs)
  | Some doc =>
      let all_tags :=
        (BOOKMARK_TAGS ++ COMMENT_DOC_TAGS ++ CHANGE_TAGS)%list in
      let comment_doc_ids := collect_w_ids doc COMMENT_DOC_TAGS in
      let change_ids := collect_w_ids doc CHANGE_TAGS in
      let all_id_values := id_set doc all_tags in
      if bool_decide (all_id_values = ∅) then (summary, fs) else
      if negb (has_collision doc) then (summary, fs) else
      let comments_doc :=
        if path_exists fs comments_path then parse_xml fs comments_path
        else None in
      let comment_id_remap := fst (comment_id_remap doc) in
      let n_comments := renumbered comment_doc_ids comment_id_remap in
      let comments_doc :=
        match comments_doc with
        | Some cdoc =>
            if bool_decide (comment_id_remap ≠ ∅)
            then Some (renumber ["w:comment"] comment_id_remap cdoc)
            else Some cdoc
        | None => None
        end in
      let change_id_remap := fst (change_id_remap doc) in
      let n_changes := renumbered change_ids change_id_remap in
      let fs := write_xml (Some (deconflict_doc doc)) doc_path fs in
      let fs :=
        match comments_doc with
        | Some cdoc =>
            if bool_decide (comment_id_remap ≠ ∅)
            then write_xml (Some cdoc) comments_path fs
            else fs
        | None => fs
        end in
      (IdSummary n_comments n_changes, fs)
  end.

(** ** Removing nodes held in a snapshot list

    The removal loops run over [list(get_elements_by_tag(doc, tag))], a
    snapshot in document order, and call [el.parentNode.removeChild(el)] on
    some of its members.  [marks] says which, one flag per member of the
    snapshot.  A flagged element leaves the tree with everything below it;
    the flags of the snapshot members below it are consumed without effect,
    since those members are detached from the document already. *)

Fixpoint remove_marked (tag : string) (n : node) (marks : list bool)
  : option node * list bool :=
  match n with
  | Elem t a cs =>
      let go :=
        fix go (l : list node) (ms : list bool) : list node * list bool :=
          match l with
          | [] => ([], ms)
          | c :: l' =>
              let '(oc, ms1) := remove_marked tag c ms in
              let '(l'', ms2) := go l' ms1 in
              (match oc with Some c' => c' :: l'' | None => l'' end, ms2)
          end in
      if String.eqb t tag then
        let '(cs', ms') := go cs (tail marks) in
        (if default false (head marks) then None else Some (Elem t a cs'),
         ms')
      else
        let '(cs', ms') := go cs marks in (Some (Elem t a cs'), ms')
  | _ => (Some n, marks)
  end.

(** A document that may have lost its document element. *)
Definition doc_elements_by_tag (doc : option node) (tag : string)
  : list node :=
  match doc with
  | Some root => get_elements_by_tag root tag
  | None => []
  end.

Definition doc_remove_marked (tag : string) (doc : option node)
    (marks : list bool) : option node :=
  match doc with
  | Some root => fst (remove_marked tag root marks)
  | None => None
  end.

Definition count_marked (marks : list bool) : nat :=
  length (filter (λ m, m = true) marks).

(** ** B. Deduplicate relationships *)

Record dedup_summary : Type := DedupSummary {
  content_types_removed : nat;
  rels_removed : nat
}.

(** The loop with the [seen] set: a member of the snapshot is flagged when
    its key was met before. *)
Fixpoint dup_marks `{Countable K} (key : node → K) (seen : gset K)
    (els : list node) : list bool :=
  match els with
  | [] => []
  | el :: els' =>
      if bool_decide (key el ∈ seen)
      then true :: dup_marks key seen els'
      else false :: dup_marks key ({[key el]} ∪ seen) els'
  end.

Definition dedup_pass `{Countable K} (tag : string) (key : node → K)
    (doc : option node) : option node * nat :=
  let marks := dup_marks key ∅ (doc_elements_by_tag doc tag) in
  (doc_remove_marked tag doc marks, count_marked marks).

Definition part_name (el : node) : string := getAttribute el "PartName".
Definition extension (el : node) : string := getAttribute el "Extension".
Definition type_target (el : node) : string * string :=
  (getAttribute el "Type", getAttribute el "Target").

(** [Path.rglob("*.rels")]: every file whose name ends in [.rels]. *)
Fixpoint ends_with (suffix s : string) : bool :=
  String.eqb s suffix ||
  match s with
  | EmptyString => false
  | String _ s' => ends_with suffix s'
  end.

Definition is_rels (path : string) : bool := ends_with ".rels" path.

Definition rels_paths (fs : disk) : list string :=
  filter (λ path, is_rels path = true) (fst <$> map_to_list (files fs)).

Definition dedup_rels_file (acc : nat * disk) (rels_path : string)
  : nat * disk :=
  let '(rels_removed, fs) := acc in
  match parse_xml fs rels_path with
  | None => acc
  | Some doc =>
      let '(doc, removed) :=
        dedup_pass "Relationship" type_target (Some doc) in
      if (0 <? removed)%nat
      then ((rels_removed + removed)%nat, write_xml doc rels_path fs)
      else acc
  end.

(** The [Content_Types].xml block. *)
Definition dedup_content_types (fs : disk) : nat * disk :=
  if path_exists fs ct_path then
    match parse_xml fs ct_path with
    | Some doc =>
        let '(doc, n_override) := dedup_pass "Override" part_name (Some doc) in
        let '(doc, n_default) := dedup_pass "Default" extension doc in
        let content_types_removed := (n_override + n_default)%nat in
        if (0 <? content_types_removed)%nat
        then (content_types_removed, write_xml doc ct_path fs)
        else (content_types_removed, fs)
    | None => (0%nat, fs)
    end
  else (0%nat, fs).

(** The loop over the .rels files. *)
Definition dedup_rels (fs : disk) : nat * disk :=
  foldl dedup_rels_file (0%nat, fs) (rels_paths fs).

Definition dedup_relationships (fs : disk) : dedup_summary * disk :=
  let '(content_types_removed, fs) := dedup_content_types fs in
  let '(rels_removed, fs) := dedup_rels fs in
  (DedupSummary content_types_removed rels_removed, fs).

(** ** C. Clean orphaned comment artifacts *)

Definition para_id_of (p_el : node) : string :=
  Py.or_else (getAttribute p_el "w14:paraId") (getAttribute p_el "w:paraId").

Definition valid_para_ids (comments_doc : node) : gset string :=
  foldl (λ valid comment_el,
    foldl (λ valid p_el,
      let para_id := para_id_of p_el in
      if Py.nonempty para_id then {[para_id]} ∪ valid else valid)
      valid (getElementsByTagName comment_el "w:p"))
    ∅ (get_elements_by_tag comments_doc "w:comment").

(** commentsExtended.xml and commentsIds.xml: the removal test. *)
Definition orphan_para (attr : string) (valid : gset string) (el : node)
  : bool :=
  let para_id := getAttribute el attr in
  Py.nonempty para_id && bool_decide (para_id ∉ valid).

(** commentsExtended.xml: the [elif] branch. *)
Definition durable_ids_from_valid (valid : gset string) (els : list node)
  : gset string :=
  foldl (λ durable el,
    let para_id := getAttribute el "w15:paraId" in
    if Py.nonempty para_id && bool_decide (para_id ∉ valid) then durable
    else if Py.nonempty para_id && bool_decide (para_id ∈ valid) then
      let did := getAttribute el "w15:durableId" in
      if Py.nonempty did then {[did]} ∪ durable else durable
    else durable) ∅ els.

(** commentsExtensible.xml: the removal test. *)
Definition orphan_durable (durable : gset string) (el : node) : bool :=
  let durable_id := getAttribute el "w16cex:durableId" in
  Py.nonempty durable_id && bool_decide (durable ≠ ∅)
  && bool_decide (durable_id ∉ durable).

(** The shape shared by the three metadata parts: snapshot, test every
    member, write back when something was removed. *)
Definition clean_part (path tag : string) (orphan : node → bool)
    (acc : nat * disk) : nat * disk :=
  let '(orphans_removed, fs) := acc in
  if path_exists fs path then
    match parse_xml fs path with
    | Some doc =>
        let marks := orphan <$> get_elements_by_tag doc tag in
        let removed := count_marked marks in
        if (0 <? removed)%nat
        then ((orphans_removed + removed)%nat,
              write_xml (doc_remove_marked tag (Some doc) marks) path fs)
        else acc
    | None => acc
    end
  else acc.

(** [durable_ids_from_valid] as the commentsExtended.xml loop leaves it: it
    is filled from the snapshot, so from the part as it was before any
    removal. *)
Definition ext_durable_ids (valid : gset string) (fs : disk) : gset string :=
  if path_exists fs ext_path then
    match parse_xml fs ext_path with
    | Some ext_doc =>
        durable_ids_from_valid valid (get_elements_by_tag ext_doc "w15:commentEx")
    | None => ∅
    end
  else ∅.

(** [valid_comment_ids], which the source collects and never reads, is left
    out. *)
Definition clean_orphaned_comments (fs : disk) : nat * disk :=
  if negb (path_exists fs comments_path) then (0%nat, fs) else
  match parse_xml fs comments_path with
  | None => (0%nat, fs)
  | Some comments_doc =>
      let valid := valid_para_ids comments_doc in
      let durable := ext_durable_ids valid fs in
      let acc := (0%nat, fs) in
      let acc :=
        clean_part ext_path "w15:commentEx" (orphan_para "w15:paraId" valid) acc in
      let acc :=
        clean_part ids_path "w16cid:commentId"
          (orphan_para "w16cid:paraId" valid) acc in
      clean_part extensible_path "w16cex:commentExtensible"
        (orphan_durable durable) acc
  end.

(** ** D. Fix xml:space="preserve" *)

Definition text_of (wt : node) : string :=
  foldl (λ text child,
           match child with
           | Text data => text ++ data
           | _ => text
           end) "" (childNodes wt).

Definition lacks_preserve (wt : node) : bool :=
  let text := text_of wt in
  Py.nonempty text
  && negb (String.eqb text (Py.strip text))
  && negb (Py.nonempty (getAttribute wt "xml:space")).

Definition add_preserve_el (el : node) : node :=
  if bool_decide (tagName el = "w:t") && lacks_preserve el
  then setAttribute el "xml:space" "preserve"
  else el.

Definition add_preserve (n : node) : node := map_elems add_preserve_el n.

Definition fix_xml_space (fs : disk) : nat * disk :=
  match parse_xml fs doc_path with
  | None => (0%nat, fs)
  | Some doc =>
      let space_attrs_added :=
        length (filter (λ wt, lacks_preserve wt = true)
                       (get_elements_by_tag doc "w:t")) in
      let modified := (0 <? space_attrs_added)%nat in
      if modified
      then (space_attrs_added, write_xml (Some (add_preserve doc)) doc_path fs)
      else (space_attrs_added, fs)
  end.

(** ** Main *)

Record results : Type := Results {
  id_deconfliction : id_summary;
  relationship_dedup : dedup_summary;
  orphan_cleanup : nat;   (* orphans_removed *)
  xml_space_fix : nat;    (* space_attrs_added *)
  total_changes : nat
}.

Definition main (fs : disk) : results * disk :=
  let '(a, fs) := deconflict_ids fs in
  let '(b, fs) := dedup_relationships fs in
  let '(c, fs) := clean_orphaned_comments fs in
  let '(d, fs) := fix_xml_space fs in
  let total :=
    (comments_renumbered a + changes_renumbered a
     + content_types_removed b + rels_removed b + c + d)%nat in
  (Results a b c d total, fs).

End Fixup.

(* ===================================================================== *)
(** * ooxml_validate.py *)
(* ===================================================================== *)

Module Validate.
Import Dom.
Export Fixup (file, Unparseable, Parsed, disk, Disk, files, written).

Definition parse_xml (fs : disk) (path : string) : option node :=
  match files fs !! path with
  | Some (Parsed doc) => Some doc
  | _ => None
  end.

Definition path_exists (fs : disk) (path : string) : bool :=
  bool_decide (is_Some (files fs !! path)).

(** One issue record; the constructor is its ["check"] field. *)
Inductive issue : Type :=
| unique_ids (id : string) (tags : list string) (message : string)
| comment_consistency (id : string) (message : string)
| comment_artifacts (paraId : string) (message : string).

(** ** Check 1: unique w:id values across annotation types *)

Definition ANNOTATION_TAGS : list string :=
  ["w:bookmarkStart"; "w:bookmarkEnd";
   "w:commentRangeStart"; "w:commentRangeEnd"; "w:commentReference";
   "w:ins"; "w:del"; "w:rPrChange"; "w:pPrChange"; "w:sectPrChange";
   "w:tblPrChange"; "w:trPrChange"; "w:tcPrChange"; "w:tblGridChange"].

(** [seen.setdefault(val, []).append(tag)] on a dict in insertion order. *)
Fixpoint setdefault_append (seen : list (string * list string))
    (val tag : string) : list (string * list string) :=
  match seen with
  | [] => [(val, [tag])]
  | (k, tags) :: seen' =>
      if String.eqb k val then (k, (tags ++ [tag])%list) :: seen'
      else (k, tags) :: setdefault_append seen' val tag
  end.

Definition collect_seen (doc : node) : list (string * list string) :=
  foldl (λ seen tag,
    foldl (λ seen el,
      let val := getAttribute el "w:id" in
      if Py.nonempty val then setdefault_append seen val tag else seen)
      seen (get_elements_by_tag doc tag)) [] ANNOTATION_TAGS.

Inductive kind : Type := bookmark | comment | change.

Global Instance kind_eq_dec : EqDecision kind.
Proof. solve_decision. Defined.

Definition kind_of (t : string) : kind :=
  if bool_decide (t ∈ ["w:bookmarkStart"; "w:bookmarkEnd"]) then bookmark
  else if bool_decide
            (t ∈ ["w:commentRangeStart"; "w:commentRangeEnd";
                  "w:commentReference"]) then comment
  else change.

(** [len(unique_types)] *)
Definition unique_types (tags : list string) : list kind :=
  remove_dups (kind_of <$> tags).

Definition join (sep : string) (l : list string) : string :=
  String.concat sep l.

Definition check_unique_ids (fs : disk) : list issue :=
  match parse_xml fs "word/document.xml" with
  | None => []
  | Some doc =>
      collect_seen doc ≫= λ '(id_val, tags),
        if (1 <? length tags)%nat && (1 <? length (unique_types tags))%nat
        then [unique_ids id_val tags
                ("ID " ++ id_val ++ " shared across annotation types: "
                 ++ join ", " tags)]
        else []
  end.

(** ** Check 2: comment range/reference consistency *)

Definition id_values (doc : node) (tag : string) : gset string :=
  foldl (λ s el,
           let val := getAttribute el "w:id" in
           if Py.nonempty val then {[val]} ∪ s else s)
        ∅ (get_elements_by_tag doc tag).

Definition no_matching (have cid missing : string) : issue :=
  comment_consistency cid (have ++ " " ++ cid ++ " has no matching " ++ missing).

Definition check_comment_consistency (fs : disk) : list issue :=
  match parse_xml fs "word/document.xml" with
  | None => []
  | Some doc =>
      let starts := id_values doc "w:commentRangeStart" in
      let ends := id_values doc "w:commentRangeEnd" in
      let refs := id_values doc "w:commentReference" in
      (((λ cid, no_matching "commentRangeStart" cid "commentRangeEnd")
          <$> elements (starts ∖ ends))
       ++ ((λ cid, no_matching "commentRangeStart" cid "commentReference")
          <$> elements (starts ∖ refs))
       ++ ((λ cid, no_matching "commentRangeEnd" cid "commentRangeStart")
          <$> elements (ends ∖ starts))
       ++ ((λ cid, no_matching "commentReference" cid "commentRangeStart")
          <$> elements (refs ∖ starts)))%list
  end.

(** ** Check 3: comment artifact cross-references *)

Definition comment_para_ids (comments_doc : node) : gset string :=
  foldl (λ ids comment_el,
    foldl (λ ids p_el,
      let para_id :=
        Py.or_else (getAttribute p_el "w14:paraId")
                   (getAttribute p_el "w:paraId") in
      if Py.nonempty para_id then {[para_id]} ∪ ids else ids)
      ids (getElementsByTagName comment_el "w:p"))
    ∅ (get_elements_by_tag comments_doc "w:comment").

Definition part_para_ids (fs : disk) (path tag attr : string) : gset string :=
  if path_exists fs path then
    match parse_xml fs path with
    | Some doc =>
        foldl (λ ids el,
                 let para_id := getAttribute el attr in
                 if Py.nonempty para_id then {[para_id]} ∪ ids else ids)
              ∅ (get_elements_by_tag doc tag)
    | None => ∅
    end
  else ∅.

Definition check_comment_artifacts (fs : disk) : list issue :=
  let comments_path := "word/comments.xml" in
  if negb (path_exists fs comments_path) then [] else
  match parse_xml fs comments_path with
  | None => []
  | Some comments_doc =>
      let comment_para_ids := comment_para_ids comments_doc in
      let ext_path := "word/commentsExtended.xml" in
      let ext_para_ids :=
        part_para_ids fs ext_path "w15:commentEx" "w15:paraId" in
      let ids_path := "word/commentsIds.xml" in
      let ids_para_ids :=
        part_para_ids fs ids_path "w16cid:commentId" "w16cid:paraId" in
      (((λ pid, comment_artifacts pid
                   ("commentsExtended has paraId " ++ pid
                    ++ " with no matching w:comment"))
          <$> elements (ext_para_ids ∖ comment_para_ids))
       ++ ((λ pid, comment_artifacts pid
                   ("commentsIds has paraId " ++ pid
                    ++ " with no matching w:comment"))
          <$> elements (ids_para_ids ∖ comment_para_ids))
       ++ (if path_exists fs ext_path then
             (λ pid, comment_artifacts pid
                   ("w:comment paraId " ++ pid
                    ++ " missing from commentsExtended"))
             <$> elements (comment_para_ids ∖ ext_para_ids)
           else [])
       ++ (if path_exists fs ids_path then
             (λ pid, comment_artifacts pid
                   ("w:comment paraId " ++ pid ++ " missing from commentsIds"))
             <$> elements (comment_para_ids ∖ ids_para_ids)
           else []))%list
  end.

End Validate.

(* ===================================================================== *)
(** * Notions used in the statements *)
(* ===================================================================== *)

Module Notions.
Import Dom Fixup.

(** The inner loop of [collect_w_ids], for one tag. *)
Definition index_step (tag : string) (id_map : gmap Z (list (string * node)))
    (el : node) : gmap Z (list (string * node)) :=
  match w_id el with
  | None => id_map
  | Some id_int =>
      <[id_int := (default [] (id_map !! id_int) ++ [(tag, el)])%list]> id_map
  end.

(** Every entry of an index carries a non-empty [w:id] that reads as the
    integer it is filed under. *)
Definition entries_ok (doc : node) (tags : list string)
    (m : gmap Z (list (string * node))) : Prop :=
  ∀ i entries tag el,
    m !! i = Some entries → (tag, el) ∈ entries →
    tag ∈ tags ∧ el ∈ get_elements_by_tag doc tag ∧ w_id el = Some i.

(** An old→new mapping read as a function on identifiers. *)
Definition apply_remap (remap : gmap Z Z) (i : Z) : Z :=
  default i (remap !! i).

(** The identifier [i] sits on elements of two different annotation kinds. *)
Definition shared_across_kinds (doc : node) (i : Z) : Prop :=
  (i ∈ id_set doc BOOKMARK_TAGS ∧ i ∈ id_set doc COMMENT_DOC_TAGS)
  ∨ (i ∈ id_set doc BOOKMARK_TAGS ∧ i ∈ id_set doc CHANGE_TAGS)
  ∨ (i ∈ id_set doc COMMENT_DOC_TAGS ∧ i ∈ id_set doc CHANGE_TAGS).

(** The members of a snapshot that a removal loop did not flag. *)
Fixpoint keep_unmarked {A} (l : list A) (marks : list bool) : list A :=
  match l with
  | [] => []
  | x :: l' =>
      if default false (head marks) then keep_unmarked l' (tail marks)
      else x :: keep_unmarked l' (tail marks)
  end.

(** [remove_marked] along a list of siblings. *)
Fixpoint remove_marked_list (tag : string) (l : list node) (ms : list bool)
  : list node * list bool :=
  match l with
  | [] => ([], ms)
  | c :: l' =>
      let '(oc, ms1) := remove_marked tag c ms in
      let '(l'', ms2) := remove_marked_list tag l' ms1 in
      (match oc with Some c' => c' :: l'' | None => l'' end, ms2)
  end.

(** The elements with a given tag in a list of subtrees. *)
Definition elements_by_tag (l : list node) (tag : string) : list node :=
  filter (λ el, tagName el = tag) (l ≫= elems).

(** What can be left of the elements tagged [tag'] when flagged elements
    tagged [tag] are removed: of the removal tag, the snapshot members that
    were not flagged; of any other tag, the elements there were. *)
Definition expected (tag tag' : string) (els : string → list node)
    (marks : list bool) : list node :=
  if decide (tag' = tag) then keep_unmarked (els tag) marks else els tag'.

(** No element with this tag lies inside another one. *)
Definition no_nesting (tag : string) (doc : node) : Prop :=
  Forall (λ el, getElementsByTagName el tag = []) (get_elements_by_tag doc tag).

(** The elements with one of these tags have no element below them, as
    the entries of a manifest or of a metadata part normally are. *)
Definition leaf_entries (tags : list string) (doc : node) : Prop :=
  Forall (λ el, childNodes el ≫= elems = [])
         (filter (λ el, tagName el ∈ tags) (elems doc)).

(** ** Deduplication *)

(** The element [el'] has the attributes of a member of the snapshot that
    no earlier member shares its key with: it is a first occurrence. *)
Definition first_of {K} (key : node → K) (snapshot : list node) (el' : node)
  : Prop :=
  ∃ i el, snapshot !! i = Some el ∧ attributes el = attributes el'
          ∧ ∀ j e, j < i → snapshot !! j = Some e → key e ≠ key el.

(** Every key is on one node only, and that node is a first occurrence. *)
Definition deduplicated {K} (key : node → K) (snapshot after : list node)
  : Prop :=
  NoDup (key <$> after) ∧ ∀ el', el' ∈ after → first_of key snapshot el'.

(** Every key of the snapshot is still there. *)
Definition keys_kept {K} (key : node → K) (snapshot after : list node)
  : Prop :=
  ∀ el, el ∈ snapshot → key el ∈ key <$> after.

(** How many members of a snapshot repeat the key of an earlier member. *)
Definition duplicates `{Countable K} (key : node → K) (snapshot : list node)
  : nat :=
  length snapshot - size (list_to_set (key <$> snapshot) : gset K).

(** A key that is read off the attributes of an element. *)
Definition by_attributes {K} (key : node → K) : Prop :=
  ∀ el el', attributes el = attributes el' → key el = key el'.

(** [Content_Types].xml between the two loops and after both. *)
Definition ct_after_override (doc : node) : option node :=
  (dedup_pass "Override" part_name (Some doc)).1.

Definition ct_after (doc : node) : option node :=
  (dedup_pass "Default" extension (ct_after_override doc)).1.

(** A .rels file after its loop. *)
Definition rels_after (doc : option node) : option node :=
  (dedup_pass "Relationship" type_target doc).1.

(** The number of [Relationship] nodes a .rels file loses. *)
Definition rels_removed_in (fs : disk) (path : string) : nat :=
  (dedup_pass "Relationship" type_target (parse_xml fs path)).2.

(** ** Orphans *)

(** No entry left in the three metadata parts fails the removal test, for
    the given valid-paraId and valid-durableId sets. *)
Definition orphan_free_wrt (valid durable : gset string) (fs : disk) : Prop :=
  (∀ el, el ∈ doc_elements_by_tag (parse_xml fs ext_path) "w15:commentEx" →
         getAttribute el "w15:paraId" ≠ "" →
         getAttribute el "w15:paraId" ∈ valid)
  ∧ (∀ el, el ∈ doc_elements_by_tag (parse_xml fs ids_path) "w16cid:commentId" →
           getAttribute el "w16cid:paraId" ≠ "" →
           getAttribute el "w16cid:paraId" ∈ valid)
  ∧ (∀ el, el ∈ doc_elements_by_tag (parse_xml fs extensible_path)
                  "w16cex:commentExtensible" →
           getAttribute el "w16cex:durableId" ≠ "" → durable ≠ ∅ →
           getAttribute el "w16cex:durableId" ∈ durable).

(** The same, with both sets read off the package itself. *)
Definition orphan_free (fs : disk) : Prop :=
  ∀ comments_doc, parse_xml fs comments_path = Some comments_doc →
    let valid := valid_para_ids comments_doc in
    orphan_free_wrt valid (ext_durable_ids valid fs) fs.

(** ** White space *)

(** Every [w:t] with outer white space carries an [xml:space] value. *)
Definition space_marked (doc : node) : Prop :=
  ∀ wt, wt ∈ get_elements_by_tag doc "w:t" → lacks_preserve wt = false.

(** ** The validator *)

(** Some issue says that [cid] has no matching [missing]. *)
Definition reports_missing (issues : list Validate.issue)
    (cid missing : string) : Prop :=
  ∃ have, Validate.no_matching have cid missing ∈ issues.

(** Some issue is about [cid]. *)
Definition reported (issues : list Validate.issue) (cid : string) : Prop :=
  ∃ message, Validate.comment_consistency cid message ∈ issues.

(** ** Writes *)

(** What a phase wrote, going from [before] to [after]: each path at most
    once, only paths among [paths], every written part changed unless it is
    among [exempt], and every part that was not written unchanged. *)
Definition dirty_writes (exempt paths : list string) (before after : disk)
  : Prop :=
  ∃ ws, written after = (written before ++ ws)%list
        ∧ NoDup ws
        ∧ (∀ p, p ∈ ws → p ∈ paths)
        ∧ (∀ p, p ∈ ws → p ∉ exempt → files after !! p ≠ files before !! p)
        ∧ (∀ p, p ∉ ws → files after !! p = files before !! p).

(** ** The pipeline *)

(** A package on which no phase finds anything to do. *)
Definition repaired (fs : disk) : Prop :=
  (∀ doc, parse_xml fs doc_path = Some doc →
          (∀ i, ¬ shared_across_kinds doc i) ∧ space_marked doc)
  ∧ (∀ doc, parse_xml fs ct_path = Some doc →
            NoDup (part_name <$> get_elements_by_tag doc "Override")
            ∧ NoDup (extension <$> get_elements_by_tag doc "Default"))
  ∧ (∀ p doc, is_rels p = true → parse_xml fs p = Some doc →
              NoDup (type_target <$> get_elements_by_tag doc "Relationship"))
  ∧ orphan_free fs.

(** The all-zero change summary. *)
Definition no_changes : results :=
  Results (IdSummary 0 0) (DedupSummary 0 0) 0 0 0.

(** commentsExtended.xml, when it parses, has no commentEx inside another
    commentEx. *)
Definition flat_comments_extended (fs : disk) : Prop :=
  match parse_xml fs ext_path with
  | Some doc => no_nesting "w15:commentEx" doc
  | None => True
  end.

End Notions.

(* ===================================================================== *)
(** * Concrete packages *)
(* ===================================================================== *)

Module Examples.
Import Dom Fixup.

Definition el (tag : string) (attrs : list (string * string)) : node :=
  Elem tag attrs [].

(** A package that needs every phase: a bookmark pair and an insertion
    sharing id 5, a comment range sharing id 9 with a deletion, an unmarked
    text run, repeated manifest entries and orphaned comment metadata. *)
Definition busy_document : node :=
  Elem "w:document" []
    [el "w:bookmarkStart" [("w:id", "5")];
     Elem "w:ins" [("w:id", "5")] [Elem "w:t" [] [Text " foo "]];
     el "w:bookmarkEnd" [("w:id", "5")];
     el "w:commentRangeStart" [("w:id", "9")];
     el "w:del" [("w:id", "9")];
     el "w:commentRangeEnd" [("w:id", "9")];
     el "w:commentReference" [("w:id", "9")]].

Definition busy_comments : node :=
  Elem "w:comments" []
    [Elem "w:comment" [("w:id", "9")] [el "w:p" [("w14:paraId", "P")]]].

Definition busy_content_types : node :=
  Elem "Types" []
    [el "Default" [("Extension", "xml"); ("ContentType", "a")];
     el "Override" [("PartName", "/word/document.xml"); ("ContentType", "b")];
     el "Override" [("PartName", "/word/document.xml"); ("ContentType", "c")];
     el "Default" [("Extension", "xml"); ("ContentType", "d")]].

Definition busy_rels : node :=
  Elem "Relationships" []
    [el "Relationship" [("Id", "rId1"); ("Type", "t"); ("Target", "x")];
     el "Relationship" [("Id", "rId2"); ("Type", "t"); ("Target", "x")];
     el "Relationship" [("Id", "rId3"); ("Type", "t"); ("Target", "y")]].

Definition busy_extended : node :=
  Elem "w15:commentsEx" []
    [el "w15:commentEx" [("w15:paraId", "X"); ("w15:durableId", "D0")];
     el "w15:commentEx" [("w15:paraId", "P"); ("w15:durableId", "D2")]].

Definition busy_ids : node :=
  Elem "w16cid:commentsIds" []
    [el "w16cid:commentId" [("w16cid:paraId", "P")];
     el "w16cid:commentId" [("w16cid:paraId", "Y")]].

Definition busy_extensible : node :=
  Elem "w16cex:commentsExtensible" []
    [el "w16cex:commentExtensible" [("w16cex:durableId", "D1")];
     el "w16cex:commentExtensible" [("w16cex:durableId", "D2")]].

Definition busy : disk :=
  Disk (list_to_map
          [(doc_path, Parsed busy_document);
           (comments_path, Parsed busy_comments);
           (ct_path, Parsed busy_content_types);
           ("word/_rels/document.xml.rels", Parsed busy_rels);
           (ext_path, Parsed busy_extended);
           (ids_path, Parsed busy_ids);
           (extensible_path, Parsed busy_extensible)]) [].

Definition busy_document_repaired : node :=
  Elem "w:document" []
    [el "w:bookmarkStart" [("w:id", "5")];
     Elem "w:ins" [("w:id", "11")]
       [Elem "w:t" [("xml:space", "preserve")] [Text " foo "]];
     el "w:bookmarkEnd" [("w:id", "5")];
     el "w:commentRangeStart" [("w:id", "10")];
     el "w:del" [("w:id", "12")];
     el "w:commentRangeEnd" [("w:id", "10")];
     el "w:commentReference" [("w:id", "10")]].

(** A bookmark and an insertion that share id 5. *)
Definition bookmark_and_change : node :=
  Elem "w:document" []
    [el "w:bookmarkStart" [("w:id", "5")]; el "w:ins" [("w:id", "5")]].

Definition bookmark_and_change_pkg : disk :=
  Disk {[ doc_path := Parsed bookmark_and_change ]} [].

(** A comment range and an insertion that share id 5, and nothing else. *)
Definition comment_and_change : node :=
  Elem "w:document" []
    [el "w:commentRangeStart" [("w:id", "5")]; el "w:ins" [("w:id", "5")]].

Definition comment_and_change_pkg : disk :=
  Disk {[ doc_path := Parsed comment_and_change ]} [].

(** commentsExtended.xml with a valid entry inside an orphaned one. *)
Definition nested_extended : node :=
  Elem "w15:commentsEx" []
    [Elem "w15:commentEx" [("w15:paraId", "X")]
       [el "w15:commentEx" [("w15:paraId", "P"); ("w15:durableId", "D1")]];
     el "w15:commentEx" [("w15:paraId", "P"); ("w15:durableId", "D2")]].

Definition nested_pkg : disk :=
  Disk (list_to_map
          [(comments_path, Parsed busy_comments);
           (ext_path, Parsed nested_extended);
           (extensible_path, Parsed busy_extensible)]) [].

(** A live comment, no commentsExtended.xml, and an extensible entry. *)
Definition unlinked_extensible : node :=
  Elem "w16cex:commentsExtensible" []
    [el "w16cex:commentExtensible" [("w16cex:durableId", "D")]].

Definition unlinked_pkg : disk :=
  Disk (list_to_map
          [(comments_path, Parsed busy_comments);
           (extensible_path, Parsed unlinked_extensible)]) [].

(** A bookmark and a comment range sharing id 1, with a comments part that
    has no entry for comment 1. *)
Definition stale_document : node :=
  Elem "w:document" []
    [el "w:bookmarkStart" [("w:id", "1")];
     el "w:commentRangeStart" [("w:id", "1")]].

Definition stale_comments : node :=
  Elem "w:comments" [] [el "w:comment" [("w:id", "2")]].

Definition stale_pkg : disk :=
  Disk (list_to_map
          [(doc_path, Parsed stale_document);
           (comments_path, Parsed stale_comments)]) [].

(** A bookmark and an insertion both carrying the id "x". *)
Definition lettered_document : node :=
  Elem "w:document" []
    [el "w:bookmarkStart" [("w:id", "x")]; el "w:ins" [("w:id", "x")]].

Definition lettered_pkg : disk :=
  Disk {[ doc_path := Parsed lettered_document ]} [].

(** A lone range end. *)
Definition lone_end_document : node :=
  Elem "w:document" [] [el "w:commentRangeEnd" [("w:id", "7")]].

Definition lone_end_pkg : disk :=
  Disk {[ doc_path := Parsed lone_end_document ]} [].

(** Extended metadata without a comments part. *)
Definition no_comments_pkg : disk :=
  Disk (list_to_map
          [(ext_path, Parsed busy_extended); (ids_path, Parsed busy_ids)]) [].

End Examples.

(* ===================================================================== *)
(** * ooxml_validate.py: the remaining checks and the report *)
(* ===================================================================== *)

Module Report.
Import Dom.

(** A record of the issue list: one of checks 1 to 3, or the record of
    check 4 or of check 5. *)
Inductive record : Type :=
| from_check (i : Validate.issue)
| duplicate_entries (file message : string)
| xml_space (text_preview message : string).

(** ** Check 4: duplicate entries in Content_Types and .rels *)

(** The loop with the [seen] set: one record for every element whose key
    was met before. *)
Fixpoint duplicates_of `{Countable K} (key : node → K) (report : K → record)
    (seen : gset K) (els : list node) : list record :=
  match els with
  | [] => []
  | el :: els' =>
      if bool_decide (key el ∈ seen)
      then report (key el) :: duplicates_of key report seen els'
      else duplicates_of key report ({[key el]} ∪ seen) els'
  end.

Definition check_duplicate_entries (fs : Fixup.disk) : list record :=
  let ct_path := "[Content_Types].xml" in
  ((if Validate.path_exists fs ct_path then
      match Validate.parse_xml fs ct_path with
      | Some doc =>
          duplicates_of Fixup.part_name
            (λ key, duplicate_entries "[Content_Types].xml"
                      ("Duplicate Override for PartName=" ++ key))
            ∅ (get_elements_by_tag doc "Override")
          ++ duplicates_of Fixup.extension
               (λ key, duplicate_entries "[Content_Types].xml"
                         ("Duplicate Default for Extension=" ++ key))
               ∅ (get_elements_by_tag doc "Default")
      | None => []
      end
    else [])
   ++ (Fixup.rels_paths fs ≫= λ rels_path,
         match Validate.parse_xml fs rels_path with
         | None => []
         | Some doc =>
             duplicates_of Fixup.type_target
               (λ key, duplicate_entries rels_path
                         ("Duplicate Relationship Type=" ++ key.1
                          ++ ", Target=" ++ key.2))
               ∅ (get_elements_by_tag doc "Relationship")
         end))%list.

(** ** Check 5: xml:space="preserve" on w:t with white space *)

(** [text.replace("\n", "\\n")], a character of the text being one
    [ascii]. *)
Fixpoint escape_newlines (s : string) : string :=
  match s with
  | EmptyString => EmptyString
  | String c s' =>
      if Ascii.eqb c (ascii_of_nat 10)
      then String "\" (String "n" (escape_newlines s'))
      else String c (escape_newlines s')
  end.

(** The double quote character, as a string. *)
Definition dquote : string := String (ascii_of_nat 34) EmptyString.

Definition check_xml_space (fs : Fixup.disk) : list record :=
  match Validate.parse_xml fs "word/document.xml" with
  | None => []
  | Some doc =>
      (λ wt,
         let text := Fixup.text_of wt in
         let preview := escape_newlines (String.substring 0 30 text) in
         xml_space preview
           ("w:t with whitespace missing xml:space=" ++ dquote ++ "preserve"
            ++ dquote ++ ": " ++ dquote ++ preview ++ "..." ++ dquote))
      <$> filter (λ wt, Fixup.lacks_preserve wt = true)
                 (get_elements_by_tag doc "w:t")
  end.

(** ** Main *)

Inductive verdict : Type := PASS | FAIL.

(** The JSON report; a passing report has no issue list. *)
Record result : Type := Result {
  status : verdict;
  issue_count : nat;
  issues : list record
}.

(** The report and the exit status, for an [unpacked_dir] that is a
    directory; the usage errors of the command line are left out. *)
Definition main (fs : Fixup.disk) : result * Z :=
  let all_issues :=
    ((from_check <$> Validate.check_unique_ids fs)
     ++ (from_check <$> Validate.check_comment_consistency fs)
     ++ (from_check <$> Validate.check_comment_artifacts fs)
     ++ check_duplicate_entries fs
     ++ check_xml_space fs)%list in
  match all_issues with
  | [] => (Result PASS 0 [], 0%Z)
  | _ => (Result FAIL (length all_issues) all_issues, 1%Z)
  end.

End Report.

(* ===================================================================== *)
(** * Further notions used in the statements *)
(* ===================================================================== *)

Module Conditions.
Import Dom Fixup.

(** No manifest of the package repeats a key. *)
Definition duplicate_free (fs : disk) : Prop :=
  (∀ doc, parse_xml fs ct_path = Some doc →
          NoDup (part_name <$> get_elements_by_tag doc "Override")
          ∧ NoDup (extension <$> get_elements_by_tag doc "Default"))
  ∧ (∀ p doc, is_rels p = true → parse_xml fs p = Some doc →
              NoDup (type_target <$> get_elements_by_tag doc "Relationship")).

(** The tags of an annotation kind, as the repair groups them. *)
Definition kind_tags (k : Validate.kind) : list string :=
  match k with
  | Validate.bookmark => BOOKMARK_TAGS
  | Validate.comment => COMMENT_DOC_TAGS
  | Validate.change => CHANGE_TAGS
  end.

(** A step that reports [n] changes: either it reports none and leaves the
    package, write log included, as it was, or it reports some and has
    written at least one part. *)
Definition counted (n : nat) (before after : disk) : Prop :=
  (n = 0 ∧ after = before)
  ∨ (0 < n ∧ length (written before) < length (written after)).

(** The element has a [w:id] that reads as an integer of the set. *)
Definition carries_id_in (ids : gset Z) (el : node) : bool :=
  match w_id el with
  | Some i => bool_decide (i ∈ ids)
  | None => false
  end.

(** Both rewriting loops of the deconfliction pass, on one element. *)
Definition rewritten (doc el : node) : node :=
  renumber CHANGE_TAGS (change_id_remap doc).1
    (renumber COMMENT_DOC_TAGS (comment_id_remap doc).1 el).


(** The members of a snapshot whose key no earlier member carries: the
    first occurrences, in the order of the snapshot. *)
Definition first_occurrences {K} `{EqDecision K} (key : node → K)
    (snapshot : list node) : list node :=
  snd <$> filter (λ p, key p.2 ∉ key <$> take p.1 snapshot)
            (imap pair snapshot).

(** Two annotation elements of different kinds carry the same [w:id]
    text. *)
Definition same_text_across_kinds (doc : node) (val : string) : Prop :=
  ∃ e1 e2,
    e1 ∈ elems doc ∧ e2 ∈ elems doc
    ∧ tagName e1 ∈ Validate.ANNOTATION_TAGS
    ∧ tagName e2 ∈ Validate.ANNOTATION_TAGS
    ∧ Validate.kind_of (tagName e1) ≠ Validate.kind_of (tagName e2)
    ∧ getAttribute e1 "w:id" = val ∧ getAttribute e2 "w:id" = val.

End Conditions.

(* ===================================================================== *)
(** * More concrete packages *)
(* ===================================================================== *)

Module MoreExamples.
Import Dom Fixup Examples.

(** Two live comments, of which only the first has extended metadata, and
    an orphaned metadata entry. *)
Definition partial_comments : node :=
  Elem "w:comments" []
    [Elem "w:comment" [("w:id", "1")] [el "w:p" [("w14:paraId", "P")]];
     Elem "w:comment" [("w:id", "2")] [el "w:p" [("w14:paraId", "Q")]]].

Definition partial_extended : node :=
  Elem "w15:commentsEx" []
    [el "w15:commentEx" [("w15:paraId", "X")];
     el "w15:commentEx" [("w15:paraId", "P")]].

Definition partial_pkg : disk :=
  Disk (list_to_map
          [(comments_path, Parsed partial_comments);
           (ext_path, Parsed partial_extended)]) [].

End MoreExamples.

(* ===================================================================== *)
(** * Reading back what was written *)
(* ===================================================================== *)

(** [write_xml] serialises with [toxml], which escapes the ampersand, the two
    angle brackets and the double quote and writes every other character as
    it is.  A parser that reads the file again treats a raw tab, line feed
    or carriage return inside an attribute value as white space to be
    replaced by a space (a carriage return with its line feed by one space),
    and a raw carriage return in character data as a line end.  Such
    characters get into a parsed value only through character references, and
    a tree that holds them does not read back as it was written.

    [Fixup.write_xml] stores the tree as written; [reopen] gives the
    directory as a later process finds it.  Adjacent text nodes, which a
    parser joins, are left apart here: the scripts read text only through the
    concatenation of an element's text children.  On a [stable] package the
    two directories are the same, and every phase keeps a package [stable],
    so that there a phase also reads what an earlier phase of the same run
    wrote as it was written. *)

Module Serialise.
Import Dom Fixup.

Definition TAB : ascii := ascii_of_nat 9.
Definition LF : ascii := ascii_of_nat 10.
Definition CR : ascii := ascii_of_nat 13.

(** An attribute value as it reads back. *)
Fixpoint read_back_attr (s : string) : string :=
  match s with
  | EmptyString => EmptyString
  | String c s' =>
      if Ascii.eqb c CR then
        match s' with
        | String c' s'' =>
            if Ascii.eqb c' LF then String " " (read_back_attr s'')
            else String " " (read_back_attr s')
        | EmptyString => String " " EmptyString
        end
      else if Ascii.eqb c LF || Ascii.eqb c TAB
      then String " " (read_back_attr s')
      else String c (read_back_attr s')
  end.

(** Character data as it reads back. *)
Fixpoint read_back_text (s : string) : string :=
  match s with
  | EmptyString => EmptyString
  | String c s' =>
      if Ascii.eqb c CR then
        match s' with
        | String c' s'' =>
            if Ascii.eqb c' LF then String LF (read_back_text s'')
            else String LF (read_back_text s')
        | EmptyString => String LF EmptyString
        end
      else String c (read_back_text s')
  end.

(** A tree as it reads back. *)
Fixpoint read_back (n : node) : node :=
  match n with
  | Elem t a cs =>
      Elem t ((λ kv, (kv.1, read_back_attr kv.2)) <$> a) (read_back <$> cs)
  | Text data => Text (read_back_text data)
  | Misc data => Misc (read_back_text data)
  end.

Definition read_back_file (f : file) : file :=
  match f with
  | Parsed doc => Parsed (read_back doc)
  | Unparseable => Unparseable
  end.

(** The directory as the next process reads it: the parts this one wrote
    read back, the others as they were. *)
Definition reopen (fs : disk) : disk :=
  {| files :=
       map_imap (λ path f,
                   Some (if bool_decide (path ∈ written fs)
                         then read_back_file f else f)) (files fs);
     written := written fs |}.


(** ** Trees that read back as they are written *)

Definition attr_char_kept (c : ascii) : bool :=
  negb (Ascii.eqb c CR || Ascii.eqb c LF || Ascii.eqb c TAB).

Definition text_char_kept (c : ascii) : bool := negb (Ascii.eqb c CR).

Fixpoint all_chars (keep : ascii → bool) (s : string) : bool :=
  match s with
  | EmptyString => true
  | String c s' => keep c && all_chars keep s'
  end.

Definition attrs_kept (a : list (string * string)) : bool :=
  forallb (λ kv, all_chars attr_char_kept kv.2) a.

(** No attribute value of the tree holds a tab, a line feed or a carriage
    return, and no text a carriage return. *)
Fixpoint stable_node (n : node) : bool :=
  match n with
  | Elem _ a cs => attrs_kept a && forallb stable_node cs
  | Text data => all_chars text_char_kept data
  | Misc data => all_chars text_char_kept data
  end.

Definition stable_file (f : file) : bool :=
  match f with
  | Parsed doc => stable_node doc
  | Unparseable => true
  end.

(** Every part of the package that parses is such a tree. *)
Definition stable (fs : disk) : Prop :=
  map_Forall (λ _ f, stable_file f = true) (files fs).

End Serialise.

(* ===================================================================== *)
(** * Packages that show where the claims stop *)
(* ===================================================================== *)

Module Limits.
Import Dom Fixup Examples Serialise.

(** A manifest with an entry inside a repeated entry. *)
Definition nested_content_types : node :=
  Elem "Types" []
    [el "Override" [("PartName", "/a")];
     Elem "Override" [("PartName", "/a")]
       [el "Override" [("PartName", "/b")]]].

Definition nested_manifest_pkg : disk :=
  Disk {[ ct_path := Parsed nested_content_types ]} [].

(** An extensible entry with a valid durableId inside an orphaned one. *)
Definition nested_extensible : node :=
  Elem "w16cex:commentsExtensible" []
    [Elem "w16cex:commentExtensible" [("w16cex:durableId", "BAD")]
       [el "w16cex:commentExtensible" [("w16cex:durableId", "D2")]]].

Definition nested_extensible_pkg : disk :=
  Disk (list_to_map
          [(comments_path, Parsed busy_comments);
           (ext_path, Parsed busy_extended);
           (extensible_path, Parsed nested_extensible)]) [].

(** A live comment whose paraId holds a line feed, with its metadata entry
    and an orphaned one, none of them nested. *)
Definition line_feed_comments : node :=
  Elem "w:comments" []
    [Elem "w:comment" [("w:id", "1")]
       [el "w:p" [("w14:paraId", String "A" (String LF "B"))]]].

Definition line_feed_extended : node :=
  Elem "w15:commentsEx" []
    [el "w15:commentEx" [("w15:paraId", "X")];
     el "w15:commentEx" [("w15:paraId", String "A" (String LF "B"))]].

Definition line_feed_pkg : disk :=
  Disk (list_to_map
          [(comments_path, Parsed line_feed_comments);
           (ext_path, Parsed line_feed_extended)]) [].

End Limits.
(* ===================================================================== *)
(** * Sanity checks and lemmas *)
(* ===================================================================== *)

Local Open Scope list_scope.

Example int_plain : Py.int "42" = Some 42%Z.
Proof. reflexivity. Qed.
Example int_spaces_sign : Py.int "  -0_7 " = Some (-7)%Z.
Proof. reflexivity. Qed.
Example int_rejects : (Py.int "abc", Py.int "", Py.int "1__2", Py.int "5_", Py.int "+ 5")
                      = (None, None, None, None, None).
Proof. reflexivity. Qed.
Example str_neg : Py.str (-120) = "-120".
Proof. reflexivity. Qed.

(** ** Python built-ins *)

Module PyFacts.
Import Py.

Lemma string_of_uint_digits (d : uint) :
  all_digits (NilEmpty.string_of_uint d) = true.
Proof. induction d; simpl; auto. Qed.

Lemma digit_not_space (c : ascii) : is_digit c = true → is_space c = false.
Proof.
  unfold is_digit, is_space. intros H.
  apply andb_true_iff in H as [H1 H2].
  apply Nat.leb_le in H1. apply Nat.leb_le in H2.
  apply orb_false_iff. split; apply andb_false_iff.
  - right. apply Nat.leb_gt. lia.
  - right. apply Nat.leb_gt. lia.
Qed.

Lemma digit_not_sign (c : ascii) :
  is_digit c = true → c ≠ "+"%char ∧ c ≠ "-"%char ∧ c ≠ "_"%char.
Proof. intros H. by repeat split; intros ->. Qed.

Lemma rstrip_digits (s : string) : all_digits s = true → rstrip s = s.
Proof.
  induction s as [|c s IH]; simpl; [done|].
  intros [Hc Hs]%andb_true_iff. rewrite (IH Hs).
  destruct s; [|done]. by rewrite (digit_not_space _ Hc).
Qed.

Lemma strip_digits (s : string) : all_digits s = true → strip s = s.
Proof.
  intros H. unfold strip.
  assert (lstrip s = s) as ->; [|by apply rstrip_digits].
  destruct s as [|c s]; simpl in *; [done|].
  apply andb_true_iff in H as [Hc _]. by rewrite (digit_not_space _ Hc).
Qed.

Lemma digits_all_digits (s : string) :
  all_digits s = true → digits s true = Some s.
Proof.
  induction s as [|c s IH]; simpl; [done|].
  intros [Hc Hs]%andb_true_iff. by rewrite Hc, (IH Hs).
Qed.

Lemma digits_all_digits_nonempty (s : string) :
  all_digits s = true → s ≠ EmptyString → digits s false = Some s.
Proof.
  destruct s as [|c s]; simpl; [done|].
  intros [Hc Hs]%andb_true_iff _. by rewrite Hc, (digits_all_digits _ Hs).
Qed.

Lemma string_of_uint_nonempty (d : uint) :
  d ≠ Nil → NilEmpty.string_of_uint d ≠ EmptyString.
Proof. by destruct d. Qed.

(** Reading back the decimal text of a positive number. *)
Lemma int_unsigned (p : positive) :
  int (NilEmpty.string_of_uint (Pos.to_uint p)) = Some (Z.pos p).
Proof.
  pose proof (string_of_uint_digits (Pos.to_uint p)) as Hd.
  pose proof (string_of_uint_nonempty _ (DecimalPos.Unsigned.to_uint_nonnil p))
    as Hne.
  unfold int. rewrite (strip_digits _ Hd).
  destruct (NilEmpty.string_of_uint (Pos.to_uint p)) as [|c s] eqn:E; [done|].
  simpl in Hd. apply andb_true_iff in Hd as [Hc Hs].
  destruct (digit_not_sign _ Hc) as (Hplus & Hminus & _).
  assert (match String c s with
          | String "+" s' => (false, s')
          | String "-" s' => (true, s')
          | _ => (false, String c s)
          end = (false, String c s)) as ->.
  { destruct c as [[] [] [] [] [] [] [] []]; try done. }
  rewrite digits_all_digits_nonempty; [|by simpl; rewrite Hc, Hs|done].
  rewrite <- E, NilEmpty.usu. unfold Z.of_uint.
  by rewrite DecimalPos.Unsigned.of_to.
Qed.

Lemma int_str (n : Z) : int (str n) = Some n.
Proof.
  destruct n as [|p|p]; [done| |].
  - unfold str. simpl. unfold NilZero.string_of_uint.
    pose proof (DecimalPos.Unsigned.to_uint_nonnil p).
    destruct (Pos.to_uint p) eqn:E; try done; rewrite <- E; apply int_unsigned.
  - unfold str. simpl. unfold NilZero.string_of_uint.
    pose proof (DecimalPos.Unsigned.to_uint_nonnil p) as Hnil.
    pose proof (string_of_uint_digits (Pos.to_uint p)) as Hd.
    pose proof (string_of_uint_nonempty _ Hnil) as Hne.
    assert (match Pos.to_uint p with
            | Nil => "0"
            | _ => NilEmpty.string_of_uint (Pos.to_uint p)
            end = NilEmpty.string_of_uint (Pos.to_uint p)) as ->.
    { by destruct (Pos.to_uint p). }
    unfold int, strip. simpl lstrip.
    assert (rstrip (String "-" (NilEmpty.string_of_uint (Pos.to_uint p)))
            = String "-" (NilEmpty.string_of_uint (Pos.to_uint p))) as ->.
    { simpl. rewrite (rstrip_digits _ Hd).
      by destruct (NilEmpty.string_of_uint (Pos.to_uint p)). }
    rewrite digits_all_digits_nonempty by done.
    rewrite NilEmpty.usu. unfold Z.of_uint.
    by rewrite DecimalPos.Unsigned.of_to.
Qed.

Lemma str_nonempty (n : Z) : nonempty (str n) = true.
Proof.
  destruct n as [|p|p]; [done| |done].
  unfold str. simpl. unfold NilZero.string_of_uint.
  pose proof (string_of_uint_nonempty _ (DecimalPos.Unsigned.to_uint_nonnil p)).
  destruct (Pos.to_uint p) eqn:E; try done;
    rewrite <- E; by destruct (NilEmpty.string_of_uint (Pos.to_uint p)).
Qed.

Lemma nonempty_true (s : string) : nonempty s = true ↔ s ≠ "".
Proof.
  unfold nonempty. destruct (String.eqb_spec s ""); split; simpl; congruence.
Qed.

Lemma nonempty_false (s : string) : nonempty s = false ↔ s = "".
Proof.
  unfold nonempty. destruct (String.eqb_spec s ""); split; simpl; congruence.
Qed.

End PyFacts.

(** ** The DOM *)

Module DomFacts.
Import Dom.

Lemma attr_lookup_update_eq a name value :
  attr_lookup (attr_update a name value) name = value.
Proof.
  induction a as [|[k v] a IH]; simpl.
  - by rewrite String.eqb_refl.
  - destruct (String.eqb k name) eqn:E; simpl; by rewrite E.
Qed.

Lemma attr_lookup_update_ne a name value name' :
  name ≠ name' →
  attr_lookup (attr_update a name value) name' = attr_lookup a name'.
Proof.
  intros Hne. induction a as [|[k v] a IH]; simpl.
  - by apply String.eqb_neq in Hne as ->.
  - destruct (String.eqb_spec k name) as [->|]; simpl.
    + by apply String.eqb_neq in Hne as ->.
    + by rewrite IH.
Qed.

Lemma elems_is_elem n el : el ∈ elems n → is_elem el = true.
Proof.
  revert el. induction n as [t a cs IH| |] using node_rect'; simpl;
    intros el Hel; try by apply elem_of_nil in Hel.
  apply elem_of_cons in Hel as [->|Hel]; [done|].
  apply list_elem_of_bind in Hel as (c & Hel & Hc).
  rewrite Forall_forall in IH. by apply (IH c).
Qed.

Lemma get_elements_by_tag_spec doc tag el :
  el ∈ get_elements_by_tag doc tag ↔ el ∈ elems doc ∧ tagName el = tag.
Proof. unfold get_elements_by_tag. rewrite list_elem_of_filter. tauto. Qed.


Section map_elems.
Variable update : node → node.

Lemma map_elems_tagName n : tagName (map_elems update n) = tagName n.
Proof. by destruct n. Qed.

Lemma map_elems_attributes n :
  is_elem n = true →
  attributes (map_elems update n) = attributes (update n).
Proof. by destruct n. Qed.

Lemma map_elems_childNodes n :
  childNodes (map_elems update n) = map_elems update <$> childNodes n.
Proof. by destruct n. Qed.

Lemma elems_map_elems n :
  elems (map_elems update n) = map_elems update <$> elems n.
Proof.
  induction n as [t a cs IH| |] using node_rect'; try done.
  cbn [elems map_elems]. rewrite fmap_cons. f_equal.
  induction cs as [|c cs IHcs]; [done|].
  inversion IH as [|? ? Hc Hcs]; subst.
  rewrite fmap_cons, !bind_cons, fmap_app, Hc. f_equal. by apply IHcs.
Qed.

Lemma get_elements_by_tag_map_elems doc tag :
  get_elements_by_tag (map_elems update doc) tag
  = map_elems update <$> get_elements_by_tag doc tag.
Proof.
  unfold get_elements_by_tag. rewrite elems_map_elems.
  induction (elems doc) as [|el l IH]; [done|].
  rewrite fmap_cons, !filter_cons, map_elems_tagName.
  case_decide; [rewrite fmap_cons|]; by rewrite IH.
Qed.
End map_elems.

End DomFacts.

(** ** The identifier index *)

Module IndexFacts.
Import Dom Fixup Notions DomFacts.

Lemma w_id_attributes el el' :
  attributes el = attributes el' → w_id el = w_id el'.
Proof. unfold w_id, getAttribute. by intros ->. Qed.

Lemma index_step_dom tag els m i :
  i ∈ dom (foldl (index_step tag) m els)
  ↔ i ∈ dom m ∨ ∃ el, el ∈ els ∧ w_id el = Some i.
Proof.
  revert m. induction els as [|el els IH]; intros m; simpl.
  - split; [auto|]. intros [?|(el & Hel & _)]; [done|].
    by apply elem_of_nil in Hel.
  - rewrite IH. unfold index_step.
    destruct (w_id el) as [j|] eqn:Ej.
    + rewrite dom_insert, elem_of_union, elem_of_singleton. split.
      * intros [[->|?]|(el' & Hel' & Hi)]; eauto using list_elem_of_here.
        right. exists el'. split; [by apply list_elem_of_further|done].
      * intros [?|(el' & [->|Hel']%elem_of_cons & Hi)]; eauto.
        left. left. congruence.
    + split.
      * intros [?|(el' & Hel' & Hi)]; eauto.
        right. exists el'. split; [by apply list_elem_of_further|done].
      * intros [?|(el' & [->|Hel']%elem_of_cons & Hi)]; eauto. congruence.
Qed.

Lemma collect_w_ids_fold doc tags m i :
  i ∈ dom (foldl (λ id_map tag,
             foldl (index_step tag) id_map (get_elements_by_tag doc tag))
           m tags)
  ↔ i ∈ dom m
    ∨ ∃ tag el, tag ∈ tags ∧ el ∈ get_elements_by_tag doc tag
                ∧ w_id el = Some i.
Proof.
  revert m. induction tags as [|tag tags IH]; intros m; simpl.
  - split; [auto|]. intros [?|(tag & el & Ht & _)]; [done|].
    by apply elem_of_nil in Ht.
  - rewrite IH, index_step_dom. split.
    + intros [[?|(el & Hel & Hi)]|(tag' & el & Ht & Hel & Hi)]; auto.
      * right. exists tag, el. eauto using list_elem_of_here.
      * right. exists tag', el. eauto using list_elem_of_further.
    + intros [?|(tag' & el & [->|Ht]%elem_of_cons & Hel & Hi)]; eauto 8.
Qed.

(** The key set of an index: the integers that some element of the tag list
    carries as a well-formed [w:id]. *)
Lemma elem_of_id_set doc tags i :
  i ∈ id_set doc tags
  ↔ ∃ el, el ∈ elems doc ∧ tagName el ∈ tags ∧ w_id el = Some i.
Proof.
  unfold id_set, collect_w_ids.
  change (λ (id_map : gmap Z (list (string * node))) (tag : string),
            foldl _ id_map (get_elements_by_tag doc tag))
    with (λ (id_map : gmap Z (list (string * node))) (tag : string),
            foldl (index_step tag) id_map (get_elements_by_tag doc tag)).
  rewrite collect_w_ids_fold, dom_empty, elem_of_empty. split.
  - intros [[]|(tag & el & Ht & [Hel <-]%get_elements_by_tag_spec & Hi)].
    eauto.
  - intros (el & Hel & Ht & Hi). right. exists (tagName el), el.
    by rewrite get_elements_by_tag_spec.
Qed.

Lemma index_step_entries doc tags tag els m :
  tag ∈ tags → (∀ el, el ∈ els → el ∈ get_elements_by_tag doc tag) →
  entries_ok doc tags m →
  entries_ok doc tags (foldl (index_step tag) m els).
Proof.
  intros Htag. revert m. induction els as [|el els IH]; intros m Hels Hm;
    simpl; [done|].
  apply IH; [intros; apply Hels; by apply list_elem_of_further|].
  unfold index_step. destruct (w_id el) as [j|] eqn:Ej; [|done].
  intros i entries tag' el' Hlook Hin.
  destruct (decide (i = j)) as [->|Hne].
  - rewrite lookup_insert_eq in Hlook. injection Hlook as <-.
    apply elem_of_app in Hin as [Hin|Hin].
    + destruct (m !! j) as [old|] eqn:Eold; simpl in Hin.
      * by eapply Hm.
      * by apply elem_of_nil in Hin.
    + apply list_elem_of_singleton in Hin. injection Hin as -> ->.
      split_and!; [done| |done]. apply Hels, list_elem_of_here.
  - rewrite lookup_insert_ne in Hlook by done. by eapply Hm.
Qed.

Lemma collect_w_ids_entries doc tags : entries_ok doc tags (collect_w_ids doc tags).
Proof.
  unfold collect_w_ids.
  change (λ (id_map : gmap Z (list (string * node))) (tag : string),
            foldl _ id_map (get_elements_by_tag doc tag))
    with (λ (id_map : gmap Z (list (string * node))) (tag : string),
            foldl (index_step tag) id_map (get_elements_by_tag doc tag)).
  assert (∀ ts m, (∀ t, t ∈ ts → t ∈ tags) → entries_ok doc tags m →
            entries_ok doc tags
              (foldl (λ id_map tag,
                 foldl (index_step tag) id_map (get_elements_by_tag doc tag))
                 m ts)) as H.
  { induction ts as [|t ts IH]; intros m Hts Hm; simpl; [done|].
    apply IH; [intros; apply Hts; by apply list_elem_of_further|].
    apply index_step_entries; [apply Hts, list_elem_of_here|done|done]. }
  apply H; [done|]. intros i entries tag el Hlook. by rewrite lookup_empty in Hlook.
Qed.

End IndexFacts.

(** ** Renumbering *)

Module RenumberFacts.
Import Dom Fixup Notions DomFacts IndexFacts PyFacts.

Lemma foldl_max_ge (l : list Z) (x y : Z) :
  (y ≤ x)%Z ∨ y ∈ l → (y ≤ foldl Z.max x l)%Z.
Proof.
  revert x. induction l as [|z l IH]; intros x; simpl.
  - intros [?|H]; [done|by apply elem_of_nil in H].
  - intros [?|[->|H]%elem_of_cons]; apply IH; auto; left; lia.
Qed.

Lemma set_max_ge (s : gset Z) (i : Z) : i ∈ s → (i ≤ set_max s)%Z.
Proof.
  intros Hi%elem_of_elements. unfold set_max.
  destruct (elements s) as [|x l]; [by apply elem_of_nil in Hi|].
  apply foldl_max_ge. apply elem_of_cons in Hi as [->|?]; auto. by left.
Qed.

Lemma sorted_ascending (s : gset Z) : Sorted Z.le (sorted s).
Proof. apply (Sorted_merge_sort Z.le). Qed.

Lemma elem_of_sorted (s : gset Z) (i : Z) : i ∈ sorted s ↔ i ∈ s.
Proof. unfold sorted. by rewrite merge_sort_Permutation, elem_of_elements. Qed.

(** What one mapping pass produces: exactly the colliding ids are mapped,
    each to a value taken from the counter. *)
Lemma build_remap_fold (ids : list Z) (collides : Z → bool)
    (m0 : gmap Z Z) (n0 : Z) :
  let r := foldl (λ '(remap, next_id) old_id,
                    if collides old_id
                    then (<[old_id := next_id]> remap, (next_id + 1)%Z)
                    else (remap, next_id)) (m0, n0) ids in
  (n0 ≤ r.2)%Z
  ∧ (∀ i j, r.1 !! i = Some j →
        m0 !! i = Some j ∨ (i ∈ ids ∧ collides i = true ∧ (n0 ≤ j < r.2)%Z))
  ∧ (∀ i, (is_Some (m0 !! i) ∨ (i ∈ ids ∧ collides i = true)) →
        is_Some (r.1 !! i)).
Proof.
  revert m0 n0. induction ids as [|x ids IH]; intros m0 n0; simpl.
  - split_and!; [lia|auto|].
    intros i [?|[Hi _]]; [done|by apply elem_of_nil in Hi].
  - destruct (collides x) eqn:Ex.
    + destruct (IH (<[x:=n0]> m0) (n0 + 1)%Z) as (Hn & Hlook & Hdom).
      split_and!; [lia| |].
      * intros i j Hij. destruct (Hlook i j Hij) as [Hins|(Hi & Hc & Hj)].
        -- destruct (decide (x = i)) as [->|Hne].
           ++ rewrite lookup_insert_eq in Hins. injection Hins as <-.
              right. split_and!; [apply list_elem_of_here|done|lia|lia].
           ++ rewrite lookup_insert_ne in Hins by done. by left.
        -- right. split_and!; [by apply list_elem_of_further|done|lia|lia].
      * intros i Hi. apply Hdom.
        destruct (decide (x = i)) as [->|Hne].
        -- left. rewrite lookup_insert_eq. eauto.
        -- rewrite lookup_insert_ne by done.
           destruct Hi as [?|[[->|Hi]%elem_of_cons Hc]]; auto. done.
    + destruct (IH m0 n0) as (Hn & Hlook & Hdom).
      split_and!; [done| |].
      * intros i j Hij. destruct (Hlook i j Hij) as [?|(Hi & Hc & Hj)]; auto.
        right. split_and!; [by apply list_elem_of_further|done|lia|lia].
      * intros i Hi. apply Hdom.
        destruct Hi as [?|[[->|Hi]%elem_of_cons Hc]]; auto. congruence.
Qed.

Lemma build_remap_spec ids collides next_id :
  let r := build_remap ids collides next_id in
  (next_id ≤ r.2)%Z
  ∧ (∀ i j, r.1 !! i = Some j →
        i ∈ ids ∧ collides i = true ∧ (next_id ≤ j < r.2)%Z)
  ∧ (∀ i, i ∈ ids → collides i = true → is_Some (r.1 !! i)).
Proof.
  destruct (build_remap_fold ids collides ∅ next_id) as (Hn & Hlook & Hdom).
  split_and!; [done| |].
  - intros i j Hij. destruct (Hlook i j Hij) as [H|H]; [|done].
    by rewrite lookup_empty in H.
  - intros i Hi Hc. apply Hdom. auto.
Qed.

(** The identifier of an element after a rewriting loop. *)
Lemma w_id_renumber tags remap el :
  is_elem el = true →
  w_id (renumber tags remap el)
  = if decide (tagName el ∈ tags) then apply_remap remap <$> w_id el
    else w_id el.
Proof.
  intros Hel. unfold renumber.
  assert (w_id (map_elems (renumber_el tags remap) el)
          = w_id (renumber_el tags remap el)) as ->.
  { apply w_id_attributes. by apply map_elems_attributes. }
  unfold renumber_el. destruct el as [t a cs| |]; try done. simpl tagName.
  case_bool_decide; case_decide; try done.
  destruct (w_id (Elem t a cs)) as [i|] eqn:Ei; [|by rewrite Ei].
  unfold apply_remap. simpl. destruct (remap !! i) as [j|]; [|done].
  unfold w_id, getAttribute, setAttribute. simpl.
  by rewrite attr_lookup_update_eq, str_nonempty, int_str.
Qed.

Lemma elem_of_id_set_renumber tags remap doc tags' i' :
  i' ∈ id_set (renumber tags remap doc) tags'
  ↔ ∃ el, el ∈ elems doc ∧ tagName el ∈ tags'
          ∧ (if decide (tagName el ∈ tags)
             then apply_remap remap <$> w_id el else w_id el) = Some i'.
Proof.
  rewrite elem_of_id_set. unfold renumber at 1. rewrite elems_map_elems.
  split.
  - intros (el' & (el & -> & Hel)%list_elem_of_fmap & Ht & Hi).
    exists el. rewrite map_elems_tagName in Ht.
    fold (renumber tags remap el) in Hi.
    rewrite w_id_renumber in Hi by (by eapply elems_is_elem). done.
  - intros (el & Hel & Ht & Hi).
    exists (map_elems (renumber_el tags remap) el). split_and!.
    + by apply list_elem_of_fmap_2.
    + by rewrite map_elems_tagName.
    + fold (renumber tags remap el).
      by rewrite w_id_renumber by (by eapply elems_is_elem).
Qed.

(** A rewriting loop leaves the key set of every other kind alone. *)
Lemma id_set_renumber_other tags remap doc tags' :
  (∀ t, t ∈ tags' → t ∉ tags) →
  id_set (renumber tags remap doc) tags' = id_set doc tags'.
Proof.
  intros Hdisj. apply set_eq. intros i.
  rewrite elem_of_id_set_renumber, elem_of_id_set.
  split; intros (el & Hel & Ht & Hi); exists el;
    (split_and!; [done|done|]); by destruct (decide _); [destruct (Hdisj _ Ht)|].
Qed.

(** ... and maps the key set of its own kind through the mapping. *)
Lemma elem_of_id_set_renumber_same tags remap doc i' :
  i' ∈ id_set (renumber tags remap doc) tags
  ↔ ∃ i, i ∈ id_set doc tags ∧ apply_remap remap i = i'.
Proof.
  rewrite elem_of_id_set_renumber. setoid_rewrite elem_of_id_set. split.
  - intros (el & Hel & Ht & Hi). rewrite decide_True in Hi by done.
    destruct (w_id el) as [i|] eqn:Ei; [|done]. injection Hi as <-. eauto 6.
  - intros (i & (el & Hel & Ht & Hi) & <-). exists el.
    rewrite decide_True, Hi by done. done.
Qed.

End RenumberFacts.

(** ** A. ID deconfliction *)

Module DeconflictFacts.
Import Dom Fixup Notions DomFacts IndexFacts PyFacts RenumberFacts.

Lemma disjoint_tags (l1 l2 : list string) :
  bool_decide (Forall (λ t, t ∉ l2) l1) = true → ∀ t, t ∈ l1 → t ∉ l2.
Proof. intros H%bool_decide_eq_true. by apply Forall_forall. Qed.

Lemma comment_not_change t : t ∈ COMMENT_DOC_TAGS → t ∉ CHANGE_TAGS.
Proof. by apply disjoint_tags. Qed.
Lemma change_not_comment t : t ∈ CHANGE_TAGS → t ∉ COMMENT_DOC_TAGS.
Proof. by apply disjoint_tags. Qed.
Lemma bookmark_not_comment t : t ∈ BOOKMARK_TAGS → t ∉ COMMENT_DOC_TAGS.
Proof. by apply disjoint_tags. Qed.
Lemma bookmark_not_change t : t ∈ BOOKMARK_TAGS → t ∉ CHANGE_TAGS.
Proof. by apply disjoint_tags. Qed.

Local Abbreviation all_tags := (BOOKMARK_TAGS ++ COMMENT_DOC_TAGS ++ CHANGE_TAGS)%list.

Lemma id_set_mono doc tags tags' i :
  (∀ t, t ∈ tags → t ∈ tags') → i ∈ id_set doc tags → i ∈ id_set doc tags'.
Proof.
  intros Hsub. rewrite !elem_of_id_set. intros (el & ? & ? & ?). eauto.
Qed.

Lemma id_le_max doc i :
  i ∈ id_set doc BOOKMARK_TAGS ∨ i ∈ id_set doc COMMENT_DOC_TAGS
  ∨ i ∈ id_set doc CHANGE_TAGS →
  (i ≤ set_max (id_set doc all_tags))%Z.
Proof.
  intros H. apply set_max_ge.
  destruct H as [H|[H|H]]; revert H; apply id_set_mono; intros t Ht;
    rewrite !elem_of_app; auto.
Qed.

Section remaps.
Variable doc : node.
Local Abbreviation B := (id_set doc BOOKMARK_TAGS).
Local Abbreviation C := (id_set doc COMMENT_DOC_TAGS).
Local Abbreviation H := (id_set doc CHANGE_TAGS).
Local Abbreviation M := (set_max (id_set doc all_tags)).

Lemma comment_remap_lookup i j :
  (comment_id_remap doc).1 !! i = Some j →
  i ∈ C ∧ (i ∈ B ∨ i ∈ H) ∧ (M < j < ((comment_id_remap doc).2))%Z.
Proof.
  unfold comment_id_remap. intros Hij.
  apply build_remap_spec in Hij as (Hi & Hc & Hj).
  apply elem_of_sorted in Hi.
  apply orb_true_iff in Hc as [Hc%bool_decide_eq_true|Hc%bool_decide_eq_true];
    split_and!; auto; lia.
Qed.

Lemma comment_remap_dom i :
  i ∈ C → i ∈ B ∨ i ∈ H → is_Some ((comment_id_remap doc).1 !! i).
Proof.
  intros Hi Hc. unfold comment_id_remap. apply build_remap_spec.
  - by apply elem_of_sorted.
  - apply orb_true_iff. destruct Hc; [left|right]; by apply bool_decide_eq_true.
Qed.

Lemma comment_remap_counter : (M < (comment_id_remap doc).2)%Z.
Proof.
  unfold comment_id_remap.
  match goal with |- context [build_remap ?a ?b ?c] =>
    destruct (build_remap_spec a b c) as (Hn & _) end.
  cbv zeta in Hn. lia.
Qed.

Lemma change_remap_lookup i j :
  (change_id_remap doc).1 !! i = Some j →
  i ∈ H ∧ (i ∈ B ∨ i ∈ C) ∧ ((comment_id_remap doc).2 ≤ j)%Z.
Proof.
  unfold change_id_remap. intros Hij.
  apply build_remap_spec in Hij as (Hi & Hc & Hj).
  apply elem_of_sorted in Hi.
  apply orb_true_iff in Hc as [Hc%bool_decide_eq_true|Hc%bool_decide_eq_true];
    split_and!; auto; lia.
Qed.

Lemma change_remap_dom i :
  i ∈ H → i ∈ B ∨ i ∈ C → is_Some ((change_id_remap doc).1 !! i).
Proof.
  intros Hi Hc. unfold change_id_remap. apply build_remap_spec.
  - by apply elem_of_sorted.
  - apply orb_true_iff. destruct Hc; [left|right]; by apply bool_decide_eq_true.
Qed.

(** The key sets of the three kinds once both loops have run. *)
Lemma deconflict_doc_bookmark : id_set (deconflict_doc doc) BOOKMARK_TAGS = B.
Proof.
  unfold deconflict_doc.
  rewrite id_set_renumber_other by apply bookmark_not_change.
  by rewrite id_set_renumber_other by apply bookmark_not_comment.
Qed.

Lemma deconflict_doc_comment i' :
  i' ∈ id_set (deconflict_doc doc) COMMENT_DOC_TAGS
  ↔ ∃ i, i ∈ C ∧ apply_remap (comment_id_remap doc).1 i = i'.
Proof.
  unfold deconflict_doc.
  rewrite id_set_renumber_other by apply comment_not_change.
  apply elem_of_id_set_renumber_same.
Qed.

Lemma deconflict_doc_change i' :
  i' ∈ id_set (deconflict_doc doc) CHANGE_TAGS
  ↔ ∃ i, i ∈ H ∧ apply_remap (change_id_remap doc).1 i = i'.
Proof.
  unfold deconflict_doc. rewrite elem_of_id_set_renumber_same.
  by rewrite id_set_renumber_other by apply change_not_comment.
Qed.

(** A comment identifier after the pass is either an old one that collided
    with nothing, or a fresh one. *)
Lemma comment_after i' :
  i' ∈ id_set (deconflict_doc doc) COMMENT_DOC_TAGS →
  (i' ∈ C ∧ (i' ∉ B) ∧ (i' ∉ H))
  ∨ (M < i' < ((comment_id_remap doc).2))%Z.
Proof.
  intros (i & Hi & <-)%deconflict_doc_comment. unfold apply_remap.
  destruct ((comment_id_remap doc).1 !! i) as [j|] eqn:Ej; simpl.
  - right. by apply comment_remap_lookup in Ej as (_ & _ & ?).
  - left. split_and!; [done| |]; intros Hc;
      destruct (comment_remap_dom i) as [? ?]; auto; congruence.
Qed.

Lemma change_after i' :
  i' ∈ id_set (deconflict_doc doc) CHANGE_TAGS →
  (i' ∈ H ∧ (i' ∉ B) ∧ (i' ∉ C))
  ∨ ((comment_id_remap doc).2 ≤ i')%Z.
Proof.
  intros (i & Hi & <-)%deconflict_doc_change. unfold apply_remap.
  destruct ((change_id_remap doc).1 !! i) as [j|] eqn:Ej; simpl.
  - right. by apply change_remap_lookup in Ej as (_ & _ & ?).
  - left. split_and!; [done| |]; intros Hc;
      destruct (change_remap_dom i) as [? ?]; auto; congruence.
Qed.

Lemma deconflict_doc_collision_free i :
  ¬ shared_across_kinds (deconflict_doc doc) i.
Proof.
  pose proof comment_remap_counter as Hcnt.
  unfold shared_across_kinds. rewrite deconflict_doc_bookmark.
  intros [[Hb Hc]|[[Hb Hh]|[Hc Hh]]].
  - apply comment_after in Hc as [(_ & ? & _)|?]; [done|].
    pose proof (id_le_max doc i). intuition lia.
  - apply change_after in Hh as [(_ & ? & _)|?]; [done|].
    pose proof (id_le_max doc i). intuition lia.
  - apply comment_after in Hc as [(Hc & _ & Hnh)|Hc];
      apply change_after in Hh as [(Hh & _ & Hnc)|Hh]; try done; try lia.
    + pose proof (id_le_max doc i). intuition lia.
    + pose proof (id_le_max doc i). intuition lia.
Qed.
End remaps.

Lemma has_collision_false doc :
  has_collision doc = false ↔ ∀ i, ¬ shared_across_kinds doc i.
Proof.
  unfold has_collision, shared_across_kinds.
  rewrite !orb_false_iff, !bool_decide_eq_false. split.
  - intros [[Hbc Hbh] Hch] i.
    apply dec_stable in Hbc, Hbh, Hch.
    intros [[? ?]|[[? ?]|[? ?]]].
    + apply (not_elem_of_empty (C:=gset Z) i). rewrite <- Hbc.
      by apply elem_of_intersection.
    + apply (not_elem_of_empty (C:=gset Z) i). rewrite <- Hbh.
      by apply elem_of_intersection.
    + apply (not_elem_of_empty (C:=gset Z) i). rewrite <- Hch.
      by apply elem_of_intersection.
  - intros Hfree. split_and!; intros Hne; apply Hne; apply set_eq; intros i;
      specialize (Hfree i); rewrite elem_of_intersection, elem_of_empty;
      tauto.
Qed.

End DeconflictFacts.

(** ** The disk *)

Module DiskFacts.
Import Dom Fixup.

Lemma parse_write_eq doc path fs :
  parse_xml (write_xml (Some doc) path fs) path = Some doc.
Proof. unfold parse_xml, write_xml. simpl. by rewrite lookup_insert_eq. Qed.

Lemma parse_write_None path fs :
  parse_xml (write_xml None path fs) path = None.
Proof. unfold parse_xml, write_xml. simpl. by rewrite lookup_insert_eq. Qed.

Lemma files_write_ne doc path fs p :
  p ≠ path → files (write_xml doc path fs) !! p = files fs !! p.
Proof. intros. unfold write_xml. simpl. by rewrite lookup_insert_ne. Qed.

Lemma parse_write_ne doc path fs p :
  p ≠ path → parse_xml (write_xml doc path fs) p = parse_xml fs p.
Proof. intros. unfold parse_xml. by rewrite files_write_ne. Qed.

Lemma parse_xml_files fs fs' p :
  files fs' !! p = files fs !! p → parse_xml fs' p = parse_xml fs p.
Proof. unfold parse_xml. by intros ->. Qed.

Lemma path_exists_files fs fs' p :
  files fs' !! p = files fs !! p → path_exists fs' p = path_exists fs p.
Proof. unfold path_exists. by intros ->. Qed.

Lemma parse_exists fs p doc :
  parse_xml fs p = Some doc → path_exists fs p = true.
Proof.
  unfold parse_xml, path_exists. intros H. apply bool_decide_eq_true.
  destruct (files fs !! p); [eauto|done].
Qed.

Lemma written_write doc path fs :
  written (write_xml doc path fs) = (written fs ++ [path])%list.
Proof. done. Qed.

End DiskFacts.

Module DeconflictPhase.
Import Dom Fixup Notions DomFacts IndexFacts RenumberFacts DeconflictFacts
  DiskFacts.

Lemma deconflict_ids_None fs :
  parse_xml fs doc_path = None → deconflict_ids fs = (IdSummary 0 0, fs).
Proof. unfold deconflict_ids. by intros ->. Qed.

Lemma shared_in_all doc i :
  shared_across_kinds doc i →
  i ∈ id_set doc (BOOKMARK_TAGS ++ COMMENT_DOC_TAGS ++ CHANGE_TAGS).
Proof.
  intros [[H _]|[[H _]|[H _]]]; revert H; apply id_set_mono; intros t Ht;
    rewrite !elem_of_app; auto.
Qed.

(** Without a collision the phase returns before touching anything. *)
Lemma deconflict_ids_clean fs doc :
  parse_xml fs doc_path = Some doc → has_collision doc = false →
  deconflict_ids fs = (IdSummary 0 0, fs).
Proof.
  unfold deconflict_ids. intros -> Hfree.
  case_bool_decide; [done|]. by rewrite Hfree.
Qed.

(** With one, both loops run and document.xml is written; comments.xml is
    written when it parsed and some comment identifier was remapped. *)
Lemma deconflict_ids_collision fs doc :
  parse_xml fs doc_path = Some doc → has_collision doc = true →
  deconflict_ids fs =
    (IdSummary
       (renumbered (collect_w_ids doc COMMENT_DOC_TAGS) (comment_id_remap doc).1)
       (renumbered (collect_w_ids doc CHANGE_TAGS) (change_id_remap doc).1),
     let fs1 := write_xml (Some (deconflict_doc doc)) doc_path fs in
     match parse_xml fs comments_path with
     | Some cdoc =>
         if bool_decide ((comment_id_remap doc).1 ≠ ∅)
         then write_xml
                (Some (renumber ["w:comment"] (comment_id_remap doc).1 cdoc))
                comments_path fs1
         else fs1
     | None => fs1
     end).
Proof.
  unfold deconflict_ids. intros -> Hcol.
  rewrite bool_decide_eq_false_2.
  2:{ intros Hempty.
      assert (¬ ∀ i, ¬ shared_across_kinds doc i) as Hn.
      { rewrite <- has_collision_false. congruence. }
      apply Hn. intros i Hi%shared_in_all. rewrite Hempty in Hi.
      by apply elem_of_empty in Hi. }
  rewrite Hcol. simpl negb. cbv iota.
  destruct (parse_xml fs comments_path) as [cdoc|] eqn:Ec.
  - rewrite (parse_exists _ _ _ Ec). by case_bool_decide.
  - by destruct (path_exists fs comments_path).
Qed.

Lemma deconflict_ids_doc fs doc :
  parse_xml fs doc_path = Some doc →
  parse_xml (deconflict_ids fs).2 doc_path
  = Some (if has_collision doc then deconflict_doc doc else doc).
Proof.
  intros Hdoc. destruct (has_collision doc) eqn:Hcol.
  - rewrite (deconflict_ids_collision _ _ Hdoc Hcol). simpl.
    destruct (parse_xml fs comments_path); [case_bool_decide|];
      rewrite ?parse_write_ne by done; apply parse_write_eq.
  - by rewrite (deconflict_ids_clean _ _ Hdoc Hcol).
Qed.

Lemma deconflict_ids_frame fs p :
  p ≠ doc_path → p ≠ comments_path →
  files (deconflict_ids fs).2 !! p = files fs !! p.
Proof.
  intros Hd Hc. destruct (parse_xml fs doc_path) as [doc|] eqn:Hdoc.
  - destruct (has_collision doc) eqn:Hcol.
    + rewrite (deconflict_ids_collision _ _ Hdoc Hcol). simpl.
      destruct (parse_xml fs comments_path); [case_bool_decide|];
        by rewrite ?files_write_ne by done.
    + by rewrite (deconflict_ids_clean _ _ Hdoc Hcol).
  - by rewrite deconflict_ids_None.
Qed.

Lemma deconflict_ids_post fs doc' :
  parse_xml (deconflict_ids fs).2 doc_path = Some doc' →
  ∀ i, ¬ shared_across_kinds doc' i.
Proof.
  destruct (parse_xml fs doc_path) as [doc|] eqn:Hdoc.
  - rewrite (deconflict_ids_doc _ _ Hdoc). intros [= <-].
    destruct (has_collision doc) eqn:Hcol.
    + apply deconflict_doc_collision_free.
    + by apply has_collision_false.
  - rewrite deconflict_ids_None by done. simpl. by rewrite Hdoc.
Qed.

End DeconflictPhase.

(** ** Removal of flagged snapshot members *)

Module RemoveFacts.
Import Dom Fixup Notions DomFacts.

Lemma remove_marked_Elem tag t a cs marks :
  remove_marked tag (Elem t a cs) marks
  = if String.eqb t tag then
      let '(cs', ms') := remove_marked_list tag cs (tail marks) in
      (if default false (head marks) then None else Some (Elem t a cs'), ms')
    else
      let '(cs', ms') := remove_marked_list tag cs marks in
      (Some (Elem t a cs'), ms').
Proof.
  simpl.
  assert (∀ l ms,
    (fix go (l : list node) (ms : list bool) : list node * list bool :=
       match l with
       | [] => ([], ms)
       | c :: l' =>
           let '(oc, ms1) := remove_marked tag c ms in
           let '(l'', ms2) := go l' ms1 in
           (match oc with Some c' => c' :: l'' | None => l'' end, ms2)
       end) l ms = remove_marked_list tag l ms) as Hgo.
  { induction l as [|c l IH]; intros ms; simpl; [done|].
    destruct (remove_marked tag c ms) as [oc ms1]. by rewrite IH. }
  by rewrite !Hgo.
Qed.

Lemma get_elements_by_tag_Elem t a cs tag :
  get_elements_by_tag (Elem t a cs) tag
  = (if decide (t = tag) then [Elem t a cs] else []) ++ elements_by_tag cs tag.
Proof.
  unfold get_elements_by_tag, elements_by_tag. cbn [elems].
  rewrite filter_cons. simpl tagName. by case_decide.
Qed.

Lemma elements_by_tag_cons c l tag :
  elements_by_tag (c :: l) tag
  = get_elements_by_tag c tag ++ elements_by_tag l tag.
Proof.
  unfold elements_by_tag, get_elements_by_tag.
  by rewrite bind_cons, filter_app.
Qed.

Lemma drop_tail {A} (k : nat) (l : list A) : drop (S k) l = drop k (tail l).
Proof. destruct l; simpl; by rewrite ?drop_nil. Qed.

Lemma keep_unmarked_app {A} (l1 l2 : list A) ms :
  keep_unmarked (l1 ++ l2) ms
  = keep_unmarked l1 ms ++ keep_unmarked l2 (drop (length l1) ms).
Proof.
  revert ms. induction l1 as [|x l1 IH]; intros ms.
  - by rewrite drop_0.
  - cbn [app keep_unmarked length]. rewrite drop_tail.
    destruct (default false (head ms)); by rewrite IH.
Qed.

Lemma keep_unmarked_sublist {A} (l : list A) ms :
  keep_unmarked l ms `sublist_of` l.
Proof.
  revert ms. induction l as [|x l IH]; intros ms; simpl; [done|].
  destruct (default false (head ms)); by constructor.
Qed.

Lemma keep_unmarked_fmap {A} (f : A → bool) (l : list A) :
  keep_unmarked l (f <$> l) = filter (λ x, f x = false) l.
Proof.
  induction l as [|x l IH]; [done|]. cbn [keep_unmarked fmap list_fmap head tail default].
  rewrite filter_cons, IH. destruct (f x); by case_decide.
Qed.

Lemma count_marked_fmap {A} (f : A → bool) (l : list A) :
  count_marked (f <$> l) = length (filter (λ x, f x = true) l).
Proof.
  unfold count_marked. induction l as [|x l IH]; [done|].
  rewrite fmap_cons, !filter_cons.
  destruct (f x) eqn:E; repeat case_decide; try done; simpl; by rewrite IH.
Qed.

Section remove.
Variable tag : string.

Lemma remove_marked_spec tag' n marks :
  (remove_marked tag n marks).2
  = drop (length (get_elements_by_tag n tag)) marks
  ∧ attributes <$> doc_elements_by_tag (remove_marked tag n marks).1 tag'
    `sublist_of`
    attributes <$> expected tag tag' (get_elements_by_tag n) marks.
Proof.
  revert marks. induction n as [t a cs IH| |] using node_rect';
    intros marks; [|by rewrite drop_0; unfold expected; case_decide..].
  assert (∀ ms,
    (remove_marked_list tag cs ms).2
    = drop (length (elements_by_tag cs tag)) ms
    ∧ attributes <$> elements_by_tag (remove_marked_list tag cs ms).1 tag'
      `sublist_of`
      attributes <$> expected tag tag' (elements_by_tag cs) ms) as Hcs.
  { clear marks. induction cs as [|c cs IHcs]; intros ms.
    - simpl. rewrite drop_0. split; [done|]. apply sublist_nil_l.
    - inversion IH as [|? ? Hc Hrest]; subst.
      specialize (IHcs Hrest). cbn [remove_marked_list].
      destruct (Hc ms) as [Hms Hsub].
      destruct (remove_marked tag c ms) as [oc ms1]. simpl in Hms, Hsub.
      destruct (IHcs ms1) as [Hms2 Hsub2].
      destruct (remove_marked_list tag cs ms1) as [l'' ms2].
      simpl in Hms2, Hsub2. subst ms1 ms2. split.
      + simpl. rewrite elements_by_tag_cons, length_app, drop_drop. done.
      + assert (expected tag tag' (elements_by_tag (c :: cs)) ms
                = expected tag tag' (get_elements_by_tag c) ms
                  ++ expected tag tag' (elements_by_tag cs)
                       (drop (length (get_elements_by_tag c tag)) ms))
          as ->.
        { unfold expected. case_decide.
          - by rewrite elements_by_tag_cons, keep_unmarked_app.
          - by rewrite elements_by_tag_cons. }
        rewrite fmap_app. simpl.
        destruct oc as [c'|]; simpl in Hsub.
        * rewrite elements_by_tag_cons, fmap_app. by apply sublist_app.
        * by apply sublist_inserts_l. }
  rewrite remove_marked_Elem. unfold expected in *.
  destruct (String.eqb_spec t tag) as [->|Hne].
  - destruct (Hcs (tail marks)) as [Hms Hsub].
    destruct (remove_marked_list tag cs (tail marks)) as [cs' ms'].
    simpl in Hms, Hsub. split.
    + simpl. rewrite get_elements_by_tag_Elem, decide_True by done.
      simpl. by rewrite drop_tail.
    + destruct (default false (head marks)) eqn:Em; simpl.
      { apply sublist_nil_l. }
      rewrite !get_elements_by_tag_Elem.
      destruct (decide (tag' = tag)) as [->|Ht].
      * rewrite !decide_True by done. simpl. rewrite Em.
        rewrite !fmap_cons. simpl. by constructor.
      * rewrite !(decide_False (P:=tag = tag')) by done. done.
  - destruct (Hcs marks) as [Hms Hsub].
    destruct (remove_marked_list tag cs marks) as [cs' ms'].
    simpl in Hms, Hsub. split.
    + simpl. by rewrite get_elements_by_tag_Elem, decide_False by done.
    + simpl. rewrite !get_elements_by_tag_Elem.
      destruct (decide (tag' = tag)) as [->|Ht].
      * by rewrite !decide_False by done.
      * rewrite !fmap_app. apply sublist_app; [|done].
        case_decide; [|done]. rewrite !fmap_cons. simpl. by constructor.
Qed.
End remove.

End RemoveFacts.

Module RemoveMore.
Import Dom Fixup Notions DomFacts RemoveFacts.

Lemma remove_marked_rest tag n marks :
  (remove_marked tag n marks).2
  = drop (length (get_elements_by_tag n tag)) marks.
Proof. apply (remove_marked_spec tag tag). Qed.

Lemma count_marked_0 marks :
  count_marked marks = 0 ↔ Forall (λ m, m = false) marks.
Proof.
  unfold count_marked. induction marks as [|m marks IH]; [done|].
  rewrite filter_cons, Forall_cons. destruct m; case_decide; simpl; try done.
  - split; [lia|]. by intros [? _].
  - rewrite IH. tauto.
Qed.

Section remove.
Variable tag : string.

(** Nothing flagged: the tree is left as it is. *)
Lemma remove_marked_none n marks :
  Forall (λ m, m = false) marks → (remove_marked tag n marks).1 = Some n.
Proof.
  revert marks. induction n as [t a cs IH| |] using node_rect';
    intros marks Hms; [|done..].
  assert (∀ ms, Forall (λ m, m = false) ms →
            (remove_marked_list tag cs ms).1 = cs) as Hcs.
  { clear marks Hms. induction cs as [|c cs IHcs]; intros ms Hms; [done|].
    inversion IH as [|? ? Hc Hrest]; subst. cbn [remove_marked_list].
    pose proof (remove_marked_rest tag c ms) as Hrest'.
    specialize (Hc ms Hms).
    destruct (remove_marked tag c ms) as [oc ms1]. simpl in *. subst.
    specialize (IHcs Hrest (drop (length (get_elements_by_tag c tag)) ms)
                  (Forall_drop _ _ _ Hms)).
    destruct (remove_marked_list tag cs _) as [l'' ms2]. simpl in *.
    by subst. }
  rewrite remove_marked_Elem. destruct (String.eqb t tag).
  - specialize (Hcs (tail marks)).
    destruct (remove_marked_list tag cs (tail marks)) as [cs' ms'].
    destruct marks as [|m marks]; simpl in *.
    + by rewrite Hcs.
    + inversion Hms; subst. by rewrite Hcs.
  - specialize (Hcs marks Hms).
    destruct (remove_marked_list tag cs marks) as [cs' ms']. simpl in *.
    by subst.
Qed.

(** No element of the removal tag: nothing to flag. *)
Lemma remove_marked_absent n marks :
  get_elements_by_tag n tag = [] → remove_marked tag n marks = (Some n, marks).
Proof.
  revert marks. induction n as [t a cs IH| |] using node_rect';
    intros marks Hnone; [|done..].
  rewrite get_elements_by_tag_Elem in Hnone.
  apply app_eq_nil in Hnone as [Ht Hnone].
  assert (∀ ms, remove_marked_list tag cs ms = (cs, ms)) as Hcs.
  { clear marks Ht. induction cs as [|c cs IHcs]; intros ms; [done|].
    inversion IH as [|? ? Hc Hrest]; subst.
    rewrite elements_by_tag_cons in Hnone.
    apply app_eq_nil in Hnone as [Hn1 Hn2]. cbn [remove_marked_list].
    by rewrite (Hc ms Hn1), (IHcs Hrest Hn2). }
  rewrite remove_marked_Elem. destruct (String.eqb_spec t tag) as [->|Hne].
  - by rewrite decide_True in Ht.
  - by rewrite Hcs.
Qed.

Lemma no_nesting_child t a cs c :
  no_nesting tag (Elem t a cs) → c ∈ cs → no_nesting tag c.
Proof.
  unfold no_nesting. rewrite !Forall_forall.
  intros Hflat Hc el Hel. apply Hflat.
  rewrite get_elements_by_tag_Elem, elem_of_app. right.
  unfold elements_by_tag. apply list_elem_of_filter.
  apply get_elements_by_tag_spec in Hel as [Hel Ht]. split; [done|].
  apply list_elem_of_bind. eauto.
Qed.

(** In a part where the entries are not nested, what is left is exactly
    the members that were not flagged. *)
Lemma remove_marked_flat n marks :
  no_nesting tag n →
  doc_elements_by_tag (remove_marked tag n marks).1 tag
  = keep_unmarked (get_elements_by_tag n tag) marks.
Proof.
  revert marks. induction n as [t a cs IH| |] using node_rect';
    intros marks Hflat; [|done..].
  rewrite remove_marked_Elem, get_elements_by_tag_Elem.
  destruct (String.eqb_spec t tag) as [->|Hne].
  - assert (elements_by_tag cs tag = []) as Hnone.
    { unfold no_nesting in Hflat. rewrite Forall_forall in Hflat.
      apply (Hflat (Elem tag a cs)).
      rewrite get_elements_by_tag_Elem, decide_True by done.
      apply list_elem_of_here. }
    assert (∀ ms, remove_marked_list tag cs ms = (cs, ms)) as Hcs.
    { clear -Hnone. induction cs as [|c cs IHcs]; intros ms; [done|].
      rewrite elements_by_tag_cons in Hnone.
      apply app_eq_nil in Hnone as [Hn1 Hn2]. cbn [remove_marked_list].
      by rewrite remove_marked_absent, IHcs. }
    rewrite Hcs, Hnone, decide_True by done. simpl.
    destruct (default false (head marks)); [done|]. simpl.
    by rewrite get_elements_by_tag_Elem, decide_True, Hnone.
  - rewrite decide_False by done. simpl.
    assert (∀ ms, elements_by_tag (remove_marked_list tag cs ms).1 tag
                  = keep_unmarked (elements_by_tag cs tag) ms) as Hcs.
    { assert (∀ c, c ∈ cs → no_nesting tag c) as Hch.
      { intros c Hc. by eapply no_nesting_child. }
      clear marks Hflat. induction cs as [|c cs IHcs]; intros ms; [done|].
      inversion IH as [|? ? Hc Hrest]; subst. cbn [remove_marked_list].
      pose proof (remove_marked_rest tag c ms) as Hrest'.
      specialize (Hc ms (Hch c (list_elem_of_here _ _))).
      destruct (remove_marked tag c ms) as [oc ms1]. simpl in *. subst.
      specialize (IHcs Hrest (λ c' H', Hch c' (list_elem_of_further _ _ _ H'))
                    (drop (length (get_elements_by_tag c tag)) ms)).
      destruct (remove_marked_list tag cs _) as [l'' ms2]. simpl in *.
      rewrite elements_by_tag_cons, keep_unmarked_app, <- IHcs, <- Hc.
      destruct oc; simpl; [by rewrite elements_by_tag_cons|done]. }
    specialize (Hcs marks).
    destruct (remove_marked_list tag cs marks) as [cs' ms']. simpl in *.
    by rewrite get_elements_by_tag_Elem, decide_False.
Qed.
End remove.

End RemoveMore.

Module RemoveLeaf.
Import Dom Fixup Notions DomFacts RemoveFacts RemoveMore.

Lemma remove_marked_list_absent tag cs ms :
  elements_by_tag cs tag = [] → remove_marked_list tag cs ms = (cs, ms).
Proof.
  revert ms. induction cs as [|c cs IHcs]; intros ms Hnone; [done|].
  rewrite elements_by_tag_cons in Hnone.
  apply app_eq_nil in Hnone as [Hn1 Hn2]. cbn [remove_marked_list].
  by rewrite remove_marked_absent, IHcs.
Qed.

Lemma elements_by_tag_no_elems cs tag :
  cs ≫= elems = [] → elements_by_tag cs tag = [].
Proof. unfold elements_by_tag. by intros ->. Qed.

Lemma leaf_entries_spec tags doc el :
  leaf_entries tags doc → el ∈ elems doc → tagName el ∈ tags →
  childNodes el ≫= elems = [].
Proof.
  unfold leaf_entries. rewrite Forall_forall. intros Hleaf Hel Ht.
  apply Hleaf. by apply list_elem_of_filter.
Qed.

Lemma elems_child t a cs c el :
  c ∈ cs → el ∈ elems c → el ∈ elems (Elem t a cs).
Proof.
  intros Hc Hel. cbn [elems]. apply list_elem_of_further.
  apply list_elem_of_bind. eauto.
Qed.

(** Removing entries that are leaves loses no element of another tag, and
    changes none that has no such entry below it. *)
Lemma remove_marked_other tag tag' n marks :
  tag' ≠ tag →
  (∀ el, el ∈ elems n → tagName el = tag → childNodes el ≫= elems = []) →
  (∀ el, el ∈ elems n → tagName el = tag' → getElementsByTagName el tag = []) →
  doc_elements_by_tag (remove_marked tag n marks).1 tag'
  = get_elements_by_tag n tag'.
Proof.
  intros Hne. revert marks. induction n as [t a cs IH| |] using node_rect';
    intros marks Hleaf Hclean; [|done..].
  rewrite remove_marked_Elem.
  destruct (String.eqb_spec t tag) as [->|Ht].
  - assert (cs ≫= elems = []) as Hnone.
    { apply (Hleaf (Elem tag a cs)); [apply list_elem_of_here|done]. }
    rewrite remove_marked_list_absent by (by apply elements_by_tag_no_elems).
    rewrite get_elements_by_tag_Elem, decide_False by done.
    rewrite (elements_by_tag_no_elems _ _ Hnone).
    destruct (default false (head marks)); [done|]. simpl.
    rewrite get_elements_by_tag_Elem, decide_False by done.
    by rewrite (elements_by_tag_no_elems _ _ Hnone).
  - destruct (decide (t = tag')) as [->|Ht'].
    + rewrite remove_marked_list_absent; [done|].
      apply (Hclean (Elem tag' a cs)); [apply list_elem_of_here|done].
    + assert (∀ ms, elements_by_tag (remove_marked_list tag cs ms).1 tag'
                    = elements_by_tag cs tag') as Hcs.
      { assert (∀ c el, c ∈ cs → el ∈ elems c → tagName el = tag →
                  childNodes el ≫= elems = []) as HleafC.
        { intros c el Hc Hel. apply Hleaf. by eapply elems_child. }
        assert (∀ c el, c ∈ cs → el ∈ elems c → tagName el = tag' →
                  getElementsByTagName el tag = []) as HcleanC.
        { intros c el Hc Hel. apply Hclean. by eapply elems_child. }
        clear marks Hleaf Hclean.
        induction cs as [|c cs IHcs]; intros ms; [done|].
        inversion IH as [|? ? Hc Hrest]; subst. cbn [remove_marked_list].
        specialize (Hc ms (λ el, HleafC c el (list_elem_of_here _ _))
                      (λ el, HcleanC c el (list_elem_of_here _ _))).
        destruct (remove_marked tag c ms) as [oc ms1]. cbn [fst] in Hc.
        specialize (IHcs Hrest
          (λ c' el Hc', HleafC c' el (list_elem_of_further _ _ _ Hc'))
          (λ c' el Hc', HcleanC c' el (list_elem_of_further _ _ _ Hc')) ms1).
        destruct (remove_marked_list tag cs ms1) as [l'' ms2]. cbn [fst] in *.
        rewrite elements_by_tag_cons, <- IHcs, <- Hc.
        destruct oc; simpl; [by rewrite elements_by_tag_cons|done]. }
      specialize (Hcs marks).
      destruct (remove_marked_list tag cs marks) as [cs' ms']. simpl in *.
      by rewrite !get_elements_by_tag_Elem, !decide_False, Hcs.
Qed.

Lemma leaf_no_nesting tag doc :
  (∀ el, el ∈ elems doc → tagName el = tag → childNodes el ≫= elems = []) →
  no_nesting tag doc.
Proof.
  intros Hleaf. apply Forall_forall.
  intros el [Hel Ht]%get_elements_by_tag_spec.
  unfold getElementsByTagName. by rewrite (Hleaf el Hel Ht).
Qed.

End RemoveLeaf.

(** ** B. Deduplication *)

Module DedupFacts.
Import Dom Fixup Notions DomFacts RemoveFacts RemoveMore.

Section dup_marks.
Context `{Countable K}.
Variable key : node → K.

Lemma kept_not_seen seen els el :
  el ∈ keep_unmarked els (dup_marks key seen els) → key el ∉ seen.
Proof.
  revert seen. induction els as [|x els IH]; intros seen; simpl.
  - by intros ?%elem_of_nil.
  - case_bool_decide as Hx; simpl.
    + apply IH.
    + intros [->|Hel%IH]%elem_of_cons; [done|]. set_solver.
Qed.

Lemma kept_NoDup seen els :
  NoDup (key <$> keep_unmarked els (dup_marks key seen els)).
Proof.
  revert seen. induction els as [|x els IH]; intros seen; simpl.
  - constructor.
  - case_bool_decide as Hx; simpl; [apply IH|].
    constructor; [|apply IH].
    intros (el & Hk & Hel%kept_not_seen)%list_elem_of_fmap. set_solver.
Qed.

Lemma kept_first seen els el :
  el ∈ keep_unmarked els (dup_marks key seen els) →
  ∃ i, els !! i = Some el
       ∧ ∀ j e, j < i → els !! j = Some e → key e ≠ key el.
Proof.
  revert seen. induction els as [|x els IH]; intros seen; simpl.
  - by intros ?%elem_of_nil.
  - case_bool_decide as Hx; simpl.
    + intros Hel. pose proof (kept_not_seen _ _ _ Hel) as Hns.
      destruct (IH _ Hel) as (i & Hi & Hfirst). exists (S i).
      split; [done|]. intros [|j] e Hj He; simpl in He.
      * injection He as <-. congruence.
      * apply (Hfirst j); [lia|done].
    + intros [->|Hel]%elem_of_cons.
      * exists 0. split; [done|]. intros; lia.
      * pose proof (kept_not_seen _ _ _ Hel) as Hns.
        destruct (IH _ Hel) as (i & Hi & Hfirst). exists (S i).
        split; [done|]. intros [|j] e Hj He; simpl in He.
        -- injection He as <-. set_solver.
        -- apply (Hfirst j); [lia|done].
Qed.

Lemma kept_covers seen els el :
  el ∈ els →
  key el ∈ seen ∨ key el ∈ key <$> keep_unmarked els (dup_marks key seen els).
Proof.
  revert seen. induction els as [|x els IH]; intros seen; simpl.
  - by intros ?%elem_of_nil.
  - intros [->|Hel]%elem_of_cons; case_bool_decide as Hx; simpl; auto.
    + right. apply list_elem_of_here.
    + destruct (IH ({[key x]} ∪ seen) Hel) as [Hs|Hk].
      * apply elem_of_union in Hs as [->%elem_of_singleton|?]; [|by left].
        right. apply list_elem_of_here.
      * right. by apply list_elem_of_further.
Qed.

Lemma dup_marks_count seen els :
  count_marked (dup_marks key seen els)
  + size (list_to_set (key <$> els) ∖ seen : gset K)
  = length els.
Proof.
  unfold count_marked.
  revert seen. induction els as [|x els IH]; intros seen.
  - simpl. assert ((∅ : gset K) ∖ seen = ∅) as ->.
    { apply set_eq. intros k. rewrite elem_of_difference, elem_of_empty.
      tauto. }
    by rewrite size_empty.
  - cbn [dup_marks length]. rewrite fmap_cons, list_to_set_cons.
    case_bool_decide as Hx.
    + rewrite filter_cons, decide_True by done. cbn [length].
      assert (({[key x]} ∪ list_to_set (key <$> els)) ∖ seen
              = (list_to_set (key <$> els) : gset K) ∖ seen) as ->.
      { apply set_eq. intros k.
        rewrite !elem_of_difference, elem_of_union, elem_of_singleton.
        split; [|tauto]. intros [[->|?] ?]; [done|tauto]. }
      specialize (IH seen). lia.
    + rewrite filter_cons, decide_False by done.
      assert (({[key x]} ∪ list_to_set (key <$> els)) ∖ seen
              = {[key x]}
                ∪ (list_to_set (key <$> els) : gset K) ∖ ({[key x]} ∪ seen))
        as ->.
      { apply set_eq. intros k.
        rewrite !elem_of_union, !elem_of_difference, !elem_of_union,
          !elem_of_singleton.
        destruct (decide (k = key x)) as [->|Hk]; tauto. }
      rewrite size_union.
      2:{ intros k. rewrite elem_of_singleton, elem_of_difference,
            elem_of_union, elem_of_singleton. tauto. }
      rewrite size_singleton.
      specialize (IH ({[key x]} ∪ seen)). lia.
Qed.

Lemma dup_marks_clean seen els :
  (∀ el, el ∈ els → key el ∉ seen) → NoDup (key <$> els) →
  Forall (λ m, m = false) (dup_marks key seen els).
Proof.
  revert seen. induction els as [|x els IH]; intros seen Hseen Hnd; simpl.
  - constructor.
  - rewrite fmap_cons in Hnd. apply NoDup_cons in Hnd as [Hx Hnd].
    rewrite bool_decide_eq_false_2 by (apply Hseen, list_elem_of_here).
    constructor; [done|]. apply IH; [|done].
    intros el Hel. rewrite elem_of_union, elem_of_singleton.
    intros [Heq|Hin].
    + apply Hx. rewrite <- Heq. by apply list_elem_of_fmap_2.
    + by apply (Hseen el); [apply list_elem_of_further|].
Qed.

Lemma duplicates_count els :
  count_marked (dup_marks key ∅ els) = duplicates key els.
Proof.
  unfold duplicates. pose proof (dup_marks_count ∅ els) as Hc.
  rewrite difference_empty_L in Hc. lia.
Qed.
End dup_marks.

End DedupFacts.

Module DedupPass.
Import Dom Fixup Notions DomFacts RemoveFacts RemoveMore DedupFacts.

Section pass.
Context `{Countable K}.
Variable key : node → K.
Hypothesis Hkey : by_attributes key.

Lemma key_via_attributes (l : list node) :
  key <$> l = (λ a, key (Elem "" a [])) <$> (attributes <$> l).
Proof.
  rewrite <- list_fmap_compose. apply list_fmap_ext. intros _ el _.
  by apply Hkey.
Qed.

Lemma key_sublist (l1 l2 : list node) :
  attributes <$> l1 `sublist_of` attributes <$> l2 →
  key <$> l1 `sublist_of` key <$> l2.
Proof. intros Hsub. rewrite !key_via_attributes. by apply fmap_sublist. Qed.

Lemma same_attributes_in (l1 l2 : list node) el' :
  attributes <$> l1 `sublist_of` attributes <$> l2 → el' ∈ l1 →
  ∃ el, el ∈ l2 ∧ attributes el = attributes el'.
Proof.
  intros Hsub Hel.
  assert (attributes el' ∈ attributes <$> l2) as Hin.
  { eapply elem_of_sublist; [|done]. by apply list_elem_of_fmap_2. }
  apply list_elem_of_fmap in Hin as (el & Heq & Hin). eauto.
Qed.

Lemma deduplicated_sublist snapshot (l1 l2 : list node) :
  attributes <$> l2 `sublist_of` attributes <$> l1 →
  deduplicated key snapshot l1 → deduplicated key snapshot l2.
Proof.
  intros Hsub [Hnd Hfirst]. split.
  - eapply sublist_NoDup; [done|]. by apply key_sublist.
  - intros el' Hel'.
    destruct (same_attributes_in _ _ _ Hsub Hel') as (el1 & Hel1 & Heq).
    destruct (Hfirst _ Hel1) as (i & el & Hi & Hattr & Hearlier).
    exists i, el. split_and!; [done|congruence|done].
Qed.

Lemma kept_deduplicated els :
  deduplicated key els (keep_unmarked els (dup_marks key ∅ els)).
Proof.
  split; [apply kept_NoDup|]. intros el' Hel'.
  destruct (kept_first key _ _ _ Hel') as (i & Hi & Hfirst).
  by exists i, el'.
Qed.

Variable tag : string.

Lemma dedup_pass_survivors doc tag' :
  attributes <$> doc_elements_by_tag (dedup_pass tag key doc).1 tag'
  `sublist_of`
  attributes <$> expected tag tag' (doc_elements_by_tag doc)
                   (dup_marks key ∅ (doc_elements_by_tag doc tag)).
Proof.
  destruct doc as [root|]; simpl.
  - apply remove_marked_spec.
  - unfold expected. by case_decide.
Qed.

(** One pass: what is left carries every key once, on a first occurrence,
    and the count is the number of repeated keys. *)
Lemma dedup_pass_deduplicated doc :
  deduplicated key (doc_elements_by_tag doc tag)
    (doc_elements_by_tag (dedup_pass tag key doc).1 tag).
Proof.
  eapply deduplicated_sublist; [|apply kept_deduplicated].
  pose proof (dedup_pass_survivors doc tag) as Hs.
  unfold expected in Hs. by rewrite decide_True in Hs.
Qed.

Lemma dedup_pass_count doc :
  (dedup_pass tag key doc).2 = duplicates key (doc_elements_by_tag doc tag).
Proof. apply duplicates_count. Qed.

Lemma dedup_pass_other doc tag' :
  tag' ≠ tag →
  attributes <$> doc_elements_by_tag (dedup_pass tag key doc).1 tag'
  `sublist_of` attributes <$> doc_elements_by_tag doc tag'.
Proof.
  intros Hne. pose proof (dedup_pass_survivors doc tag') as Hs.
  unfold expected in Hs. by rewrite decide_False in Hs.
Qed.

Lemma dedup_pass_zero doc :
  (dedup_pass tag key doc).2 = 0 → (dedup_pass tag key doc).1 = doc.
Proof.
  unfold dedup_pass. simpl. intros Hz%count_marked_0.
  destruct doc as [root|]; [|done]. simpl. by apply remove_marked_none.
Qed.

Lemma dedup_pass_clean doc :
  NoDup (key <$> doc_elements_by_tag doc tag) →
  dedup_pass tag key doc = (doc, 0).
Proof.
  intros Hnd.
  assert ((dedup_pass tag key doc).2 = 0) as Hz.
  { apply count_marked_0, dup_marks_clean; [set_solver|done]. }
  pose proof (dedup_pass_zero doc Hz) as H1.
  destruct (dedup_pass tag key doc). simpl in *. by subst.
Qed.
End pass.

Lemma part_name_by_attributes : by_attributes part_name.
Proof. unfold by_attributes, part_name, getAttribute. by intros ?? ->. Qed.
Lemma extension_by_attributes : by_attributes extension.
Proof. unfold by_attributes, extension, getAttribute. by intros ?? ->. Qed.
Lemma type_target_by_attributes : by_attributes type_target.
Proof. unfold by_attributes, type_target, getAttribute. by intros ?? ->. Qed.

End DedupPass.

Module DedupPhase.
Import Dom Fixup Notions DomFacts RemoveFacts RemoveMore DedupFacts DedupPass
  DiskFacts.

Lemma parse_write doc path fs : parse_xml (write_xml doc path fs) path = doc.
Proof. destruct doc; [apply parse_write_eq|apply parse_write_None]. Qed.

(** *** [Content_Types].xml *)

Lemma dedup_content_types_None fs :
  parse_xml fs ct_path = None → dedup_content_types fs = (0, fs).
Proof.
  unfold dedup_content_types. intros ->. by destruct (path_exists fs ct_path).
Qed.

Lemma dedup_content_types_Some fs doc :
  parse_xml fs ct_path = Some doc →
  dedup_content_types fs =
    (let n := (dedup_pass "Override" part_name (Some doc)).2
              + (dedup_pass "Default" extension (ct_after_override doc)).2 in
     (n, if (0 <? n)%nat then write_xml (ct_after doc) ct_path fs else fs)).
Proof.
  intros Hdoc. unfold dedup_content_types, ct_after, ct_after_override.
  rewrite (parse_exists _ _ _ Hdoc), Hdoc. unfold dedup_pass. simpl.
  by destruct (0 <? _)%nat.
Qed.

Lemma dedup_content_types_doc fs doc :
  parse_xml fs ct_path = Some doc →
  parse_xml (dedup_content_types fs).2 ct_path = ct_after doc.
Proof.
  intros Hdoc. rewrite (dedup_content_types_Some _ _ Hdoc). cbv zeta.
  cbn [snd].
  match goal with |- context [(0 <? ?n)%nat] =>
    destruct (Nat.ltb_spec 0 n) as [Hpos|Hzero] end.
  - apply parse_write.
  - unfold ct_after, ct_after_override.
    rewrite (dedup_pass_zero _ _ (Some doc)) by lia.
    rewrite (dedup_pass_zero _ _ (Some doc)).
    + done.
    + unfold ct_after_override in Hzero.
      rewrite (dedup_pass_zero _ _ (Some doc)) in Hzero by lia. lia.
Qed.

Lemma dedup_content_types_frame fs p :
  p ≠ ct_path → files (dedup_content_types fs).2 !! p = files fs !! p.
Proof.
  intros Hp. destruct (parse_xml fs ct_path) as [doc|] eqn:Hdoc.
  - rewrite (dedup_content_types_Some _ _ Hdoc). cbv zeta. cbn [snd].
    destruct (0 <? _)%nat; [by rewrite files_write_ne|done].
  - by rewrite dedup_content_types_None.
Qed.

(** *** The .rels files *)

Lemma dedup_rels_file_spec n fs p :
  (dedup_rels_file (n, fs) p).1 = n + rels_removed_in fs p
  ∧ parse_xml (dedup_rels_file (n, fs) p).2 p = rels_after (parse_xml fs p)
  ∧ ∀ q, q ≠ p → files (dedup_rels_file (n, fs) p).2 !! q = files fs !! q.
Proof.
  unfold dedup_rels_file, rels_removed_in, rels_after.
  destruct (parse_xml fs p) as [doc|] eqn:Hdoc.
  - pose proof (dedup_pass_zero type_target "Relationship" (Some doc)) as Hz.
    destruct (dedup_pass "Relationship" type_target (Some doc)) as [d n'].
    cbn [fst snd] in *. destruct (Nat.ltb_spec 0 n'); cbn [fst snd].
    + split_and!; [done|apply parse_write|].
      intros q Hq. by rewrite files_write_ne.
    + split_and!; [lia| |done]. rewrite Hz by lia. done.
  - cbn [fst snd]. split_and!; [|done..]. unfold dedup_pass, count_marked.
    simpl. lia.
Qed.

Lemma dedup_rels_fold l :
  NoDup l → ∀ n fs,
  let r := foldl dedup_rels_file (n, fs) l in
  r.1 = n + sum_list (rels_removed_in fs <$> l)
  ∧ (∀ p, p ∈ l → parse_xml r.2 p = rels_after (parse_xml fs p))
  ∧ (∀ p, p ∉ l → files r.2 !! p = files fs !! p).
Proof.
  induction 1 as [|p l Hp Hnd IH]; intros n fs; cbn [foldl].
  - split_and!; [simpl; lia| |done]. by intros p ?%elem_of_nil.
  - destruct (dedup_rels_file_spec n fs p) as (Hn & Hdoc & Hframe).
    destruct (dedup_rels_file (n, fs) p) as [n1 fs1] eqn:E1.
    cbn [fst snd] in *. clear E1.
    destruct (IH n1 fs1) as (Hn2 & Hdoc2 & Hframe2).
    assert (∀ q, q ∈ l → parse_xml fs1 q = parse_xml fs q) as Hsame.
    { intros q Hq. apply parse_xml_files, Hframe. by intros ->. }
    split_and!.
    + rewrite Hn2, Hn, fmap_cons. cbn [sum_list sum_list_with].
      rewrite Nat.add_assoc. f_equal. f_equal.
      apply list_fmap_ext. intros _ q Hq%list_elem_of_lookup_2.
      unfold rels_removed_in. by rewrite Hsame.
    + intros q [->|Hq]%elem_of_cons.
      * rewrite <- Hdoc. apply parse_xml_files. by apply Hframe2.
      * rewrite Hdoc2, Hsame by done. done.
    + intros q Hq. apply not_elem_of_cons in Hq as [Hne Hq].
      rewrite Hframe2, Hframe by done. done.
Qed.

Lemma elem_of_rels_paths fs p :
  p ∈ rels_paths fs ↔ is_rels p = true ∧ is_Some (files fs !! p).
Proof.
  unfold rels_paths. rewrite list_elem_of_filter, list_elem_of_fmap.
  split.
  - intros (Hr & [q x] & -> & Hin%elem_of_map_to_list). simpl. eauto.
  - intros (Hr & x & Hx). split; [done|]. exists (p, x).
    by rewrite elem_of_map_to_list.
Qed.

Lemma NoDup_rels_paths fs : NoDup (rels_paths fs).
Proof. apply NoDup_filter, NoDup_fst_map_to_list. Qed.

Lemma is_rels_ct : is_rels ct_path = false.
Proof. reflexivity. Qed.

(** *** The phase *)

Lemma dedup_relationships_unfold fs :
  dedup_relationships fs =
    (DedupSummary (dedup_content_types fs).1
                  (dedup_rels (dedup_content_types fs).2).1,
     (dedup_rels (dedup_content_types fs).2).2).
Proof.
  unfold dedup_relationships. destruct (dedup_content_types fs) as [n1 fs1].
  simpl. by destruct (dedup_rels fs1).
Qed.

Lemma dedup_rels_rels fs p :
  is_rels p = true →
  parse_xml (dedup_rels fs).2 p = rels_after (parse_xml fs p).
Proof.
  intros Hr. unfold dedup_rels.
  destruct (dedup_rels_fold _ (NoDup_rels_paths fs) 0 fs) as (_ & Hdoc & Hfr).
  destruct (decide (p ∈ rels_paths fs)) as [Hin|Hout]; [by apply Hdoc|].
  rewrite (parse_xml_files fs) by (by apply Hfr).
  assert (parse_xml fs p = None) as ->; [|done].
  unfold parse_xml. destruct (files fs !! p) eqn:E; [|done].
  destruct Hout. apply elem_of_rels_paths. eauto.
Qed.

Lemma dedup_rels_frame fs p :
  is_rels p = false → files (dedup_rels fs).2 !! p = files fs !! p.
Proof.
  intros Hr. unfold dedup_rels.
  destruct (dedup_rels_fold _ (NoDup_rels_paths fs) 0 fs) as (_ & _ & Hfr).
  apply Hfr. intros [? _]%elem_of_rels_paths. congruence.
Qed.

Lemma dedup_rels_count fs :
  (dedup_rels fs).1 = sum_list (rels_removed_in fs <$> rels_paths fs).
Proof.
  unfold dedup_rels.
  by destruct (dedup_rels_fold _ (NoDup_rels_paths fs) 0 fs) as (-> & _).
Qed.

Lemma dedup_relationships_ct fs doc :
  parse_xml fs ct_path = Some doc →
  parse_xml (dedup_relationships fs).2 ct_path = ct_after doc.
Proof.
  intros Hdoc. rewrite dedup_relationships_unfold. simpl.
  rewrite <- (dedup_content_types_doc _ _ Hdoc).
  apply parse_xml_files, dedup_rels_frame, is_rels_ct.
Qed.

Lemma dedup_relationships_rels fs p :
  is_rels p = true →
  parse_xml (dedup_relationships fs).2 p = rels_after (parse_xml fs p).
Proof.
  intros Hr. rewrite dedup_relationships_unfold. simpl.
  rewrite dedup_rels_rels by done. f_equal.
  apply parse_xml_files, dedup_content_types_frame. intros ->.
  by rewrite is_rels_ct in Hr.
Qed.

Lemma dedup_relationships_frame fs p :
  is_rels p = false → p ≠ ct_path →
  files (dedup_relationships fs).2 !! p = files fs !! p.
Proof.
  intros Hr Hp. rewrite dedup_relationships_unfold. simpl.
  by rewrite dedup_rels_frame, dedup_content_types_frame.
Qed.

End DedupPhase.

(** ** C. Orphan cleanup *)

Module OrphanFacts.
Import Dom Fixup Notions DomFacts RemoveFacts RemoveMore DedupPass DiskFacts
  DedupPhase PyFacts.

Lemma orphan_para_by_attributes attr valid :
  by_attributes (orphan_para attr valid).
Proof. unfold by_attributes, orphan_para, getAttribute. by intros ?? ->. Qed.

Lemma orphan_durable_by_attributes durable :
  by_attributes (orphan_durable durable).
Proof. unfold by_attributes, orphan_durable, getAttribute. by intros ?? ->. Qed.

(** The valid-durableId set: the non-empty durableIds of the commentEx
    entries whose paraId is that of a live comment paragraph. *)
Lemma elem_of_durable_ids valid els d :
  d ∈ durable_ids_from_valid valid els
  ↔ ∃ el, el ∈ els ∧ getAttribute el "w15:paraId" ≠ ""
          ∧ getAttribute el "w15:paraId" ∈ valid
          ∧ getAttribute el "w15:durableId" = d ∧ d ≠ "".
Proof.
  unfold durable_ids_from_valid.
  assert (∀ acc : gset string,
    d ∈ foldl (λ durable el,
           let para_id := getAttribute el "w15:paraId" in
           if Py.nonempty para_id && bool_decide (para_id ∉ valid)
           then durable
           else if Py.nonempty para_id && bool_decide (para_id ∈ valid) then
             let did := getAttribute el "w15:durableId" in
             if Py.nonempty did then {[did]} ∪ durable else durable
           else durable) acc els
    ↔ d ∈ acc ∨ ∃ el, el ∈ els ∧ getAttribute el "w15:paraId" ≠ ""
          ∧ getAttribute el "w15:paraId" ∈ valid
          ∧ getAttribute el "w15:durableId" = d ∧ d ≠ "") as Hgen.
  { induction els as [|x els IH]; intros acc; cbn [foldl].
    - split; [auto|]. intros [?|(el & Hel & _)]; [done|].
      by apply elem_of_nil in Hel.
    - rewrite IH. cbv zeta.
      destruct (Py.nonempty (getAttribute x "w15:paraId")) eqn:Ep;
        [apply nonempty_true in Ep|apply nonempty_false in Ep];
        cbn [andb];
        [destruct (decide (getAttribute x "w15:paraId" ∈ valid)) as [Hv|Hv];
         [rewrite (bool_decide_eq_false_2 (_ ∉ _)) by (by intros ?);
          rewrite bool_decide_eq_true_2 by done;
          destruct (Py.nonempty (getAttribute x "w15:durableId")) eqn:Ed;
          [apply nonempty_true in Ed|apply nonempty_false in Ed]
         |rewrite (bool_decide_eq_true_2 (_ ∉ _)) by done]|].
      + rewrite elem_of_union, elem_of_singleton. split.
        * intros [[->|?]|(el & Hel & ?)]; auto.
          -- right. exists x. split_and!; auto. apply list_elem_of_here.
          -- right. exists el. split; [by apply list_elem_of_further|done].
        * intros [?|(el & [->|Hel]%elem_of_cons & Hp & Hv' & Hd & Hne)];
            eauto 8.
      + split.
        * intros [?|(el & Hel & ?)]; auto.
          right. exists el. split; [by apply list_elem_of_further|done].
        * intros [?|(el & [->|Hel]%elem_of_cons & Hp & Hv' & Hd & Hne)];
            eauto 8. congruence.
      + split.
        * intros [?|(el & Hel & ?)]; auto.
          right. exists el. split; [by apply list_elem_of_further|done].
        * intros [?|(el & [->|Hel]%elem_of_cons & Hp & Hv' & Hd & Hne)];
            eauto 8. done.
      + split.
        * intros [?|(el & Hel & ?)]; auto.
          right. exists el. split; [by apply list_elem_of_further|done].
        * intros [?|(el & [->|Hel]%elem_of_cons & Hp & Hv' & Hd & Hne)];
            eauto 8. done. }
  rewrite Hgen. split; [intros [[]%elem_of_empty|?]; done|auto].
Qed.

Lemma orphan_para_false attr valid el :
  orphan_para attr valid el = false
  ↔ (getAttribute el attr ≠ "" → getAttribute el attr ∈ valid).
Proof.
  unfold orphan_para. rewrite andb_false_iff, nonempty_false,
    bool_decide_eq_false. split.
  - intros [->|Hv] Hne; [done|]. by apply dec_stable.
  - intros Himp. destruct (decide (getAttribute el attr = "")); auto.
Qed.

Lemma orphan_durable_false durable el :
  orphan_durable durable el = false
  ↔ (getAttribute el "w16cex:durableId" ≠ "" → durable ≠ ∅ →
     getAttribute el "w16cex:durableId" ∈ durable).
Proof.
  unfold orphan_durable.
  rewrite !andb_false_iff, nonempty_false, !bool_decide_eq_false. split.
  - intros [[->|He]|Hv] Hne Hd; [done|done|]. by apply dec_stable.
  - intros Himp.
    destruct (decide (getAttribute el "w16cex:durableId" = "")); auto.
    destruct (decide (durable = ∅)); auto.
Qed.

(** Dropping the orphaned entries does not change the set. *)
Lemma durable_ids_filter valid els :
  durable_ids_from_valid valid
    (filter (λ el, orphan_para "w15:paraId" valid el = false) els)
  = durable_ids_from_valid valid els.
Proof.
  apply set_eq. intros d. rewrite !elem_of_durable_ids.
  split; intros (el & Hel & Hp & Hv & Hd & Hne); exists el; split_and!;
    try done.
  - by apply list_elem_of_filter in Hel as [_ ?].
  - apply list_elem_of_filter. split; [|done]. by apply orphan_para_false.
Qed.

Lemma ext_durable_ids_parse valid fs :
  ext_durable_ids valid fs
  = durable_ids_from_valid valid
      (doc_elements_by_tag (parse_xml fs ext_path) "w15:commentEx").
Proof.
  unfold ext_durable_ids.
  destruct (parse_xml fs ext_path) as [doc|] eqn:E.
  - by rewrite (parse_exists _ _ _ E).
  - by destruct (path_exists fs ext_path).
Qed.

(** *** One metadata part *)

Section clean_part.
Variables (path tag : string) (orphan : node → bool).
Hypothesis Horphan : by_attributes orphan.

Lemma clean_part_None n fs :
  parse_xml fs path = None → clean_part path tag orphan (n, fs) = (n, fs).
Proof.
  unfold clean_part. intros ->. by destruct (path_exists fs path).
Qed.

Lemma clean_part_Some n fs doc :
  parse_xml fs path = Some doc →
  clean_part path tag orphan (n, fs) =
    (let marks := orphan <$> get_elements_by_tag doc tag in
     if (0 <? count_marked marks)%nat
     then (n + count_marked marks,
           write_xml (doc_remove_marked tag (Some doc) marks) path fs)
     else (n, fs)).
Proof.
  intros Hdoc. unfold clean_part. by rewrite (parse_exists _ _ _ Hdoc), Hdoc.
Qed.

Lemma clean_part_frame n fs q :
  q ≠ path → files (clean_part path tag orphan (n, fs)).2 !! q = files fs !! q.
Proof.
  intros Hq. destruct (parse_xml fs path) as [doc|] eqn:Hdoc.
  - rewrite (clean_part_Some _ _ _ Hdoc). cbv zeta.
    destruct (0 <? _)%nat; [by apply files_write_ne|done].
  - by rewrite clean_part_None.
Qed.

Lemma clean_part_doc n fs :
  parse_xml (clean_part path tag orphan (n, fs)).2 path
  = doc_remove_marked tag (parse_xml fs path)
      (orphan <$> doc_elements_by_tag (parse_xml fs path) tag).
Proof.
  destruct (parse_xml fs path) as [doc|] eqn:Hdoc.
  - rewrite (clean_part_Some _ _ _ Hdoc). cbv zeta.
    match goal with |- context [(0 <? ?k)%nat] =>
      destruct (Nat.ltb_spec 0 k) as [Hpos|Hzero] end.
    + apply parse_write.
    + cbn [snd]. rewrite Hdoc. simpl. symmetry.
      apply remove_marked_none, count_marked_0. lia.
  - by rewrite clean_part_None.
Qed.

Lemma clean_part_count n fs :
  (clean_part path tag orphan (n, fs)).1
  = n + length (filter (λ el, orphan el = true)
                  (doc_elements_by_tag (parse_xml fs path) tag)).
Proof.
  destruct (parse_xml fs path) as [doc|] eqn:Hdoc.
  - rewrite (clean_part_Some _ _ _ Hdoc). cbv zeta.
    rewrite count_marked_fmap. simpl.
    match goal with |- context [(0 <? ?k)%nat] =>
      destruct (Nat.ltb_spec 0 k) as [Hpos|Hzero] end; simpl; lia.
  - rewrite clean_part_None by done. simpl. lia.
Qed.

(** No entry that is left is an orphan. *)
Lemma clean_part_survivors n fs el' :
  el' ∈ doc_elements_by_tag
          (parse_xml (clean_part path tag orphan (n, fs)).2 path) tag →
  orphan el' = false.
Proof.
  rewrite clean_part_doc. intros Hel'.
  destruct (parse_xml fs path) as [doc|]; [|by apply elem_of_nil in Hel'].
  simpl in Hel'.
  pose proof (remove_marked_spec tag tag doc
                (orphan <$> get_elements_by_tag doc tag)) as [_ Hsub].
  unfold expected in Hsub. rewrite decide_True in Hsub by done.
  rewrite keep_unmarked_fmap in Hsub.
  destruct (same_attributes_in _ _ _ Hsub Hel') as (el & Hel & Heq).
  apply list_elem_of_filter in Hel as [Hel _].
  by rewrite <- (Horphan _ _ Heq).
Qed.

(** In a part without nested entries, what is left is exactly the
    entries that are not orphans. *)
Lemma clean_part_flat n fs doc :
  parse_xml fs path = Some doc → no_nesting tag doc →
  doc_elements_by_tag
    (parse_xml (clean_part path tag orphan (n, fs)).2 path) tag
  = filter (λ el, orphan el = false) (get_elements_by_tag doc tag).
Proof.
  intros Hdoc Hflat. rewrite clean_part_doc, Hdoc. simpl.
  by rewrite remove_marked_flat, keep_unmarked_fmap.
Qed.

(** A part without orphans is left alone. *)
Lemma clean_part_clean n fs :
  (∀ el, el ∈ doc_elements_by_tag (parse_xml fs path) tag →
         orphan el = false) →
  clean_part path tag orphan (n, fs) = (n, fs).
Proof.
  intros Hclean. destruct (parse_xml fs path) as [doc|] eqn:Hdoc.
  - rewrite (clean_part_Some _ _ _ Hdoc). cbv zeta.
    rewrite count_marked_fmap.
    assert (filter (λ el, orphan el = true) (get_elements_by_tag doc tag)
            = []) as ->; [|done].
    apply elem_of_nil_inv. intros el [Ho Hel]%list_elem_of_filter.
    simpl in Hclean. rewrite (Hclean _ Hel) in Ho. done.
  - by apply clean_part_None.
Qed.
End clean_part.

End OrphanFacts.

Module OrphanPhase.
Import Dom Fixup Notions DomFacts RemoveFacts RemoveMore DedupPass DiskFacts
  DedupPhase PyFacts OrphanFacts.

Lemma clean_part_pair path tag orphan acc :
  clean_part path tag orphan acc = clean_part path tag orphan (acc.1, acc.2).
Proof. by destruct acc. Qed.

Lemma clean_orphaned_comments_None fs :
  parse_xml fs comments_path = None → clean_orphaned_comments fs = (0, fs).
Proof.
  unfold clean_orphaned_comments. intros ->.
  by destruct (path_exists fs comments_path).
Qed.

Lemma clean_orphaned_comments_Some fs comments_doc :
  parse_xml fs comments_path = Some comments_doc →
  clean_orphaned_comments fs =
    (let valid := valid_para_ids comments_doc in
     clean_part extensible_path "w16cex:commentExtensible"
       (orphan_durable (ext_durable_ids valid fs))
       (clean_part ids_path "w16cid:commentId"
          (orphan_para "w16cid:paraId" valid)
          (clean_part ext_path "w15:commentEx"
             (orphan_para "w15:paraId" valid) (0, fs)))).
Proof.
  intros Hc. unfold clean_orphaned_comments.
  by rewrite (parse_exists _ _ _ Hc), Hc.
Qed.

Section phase.
Variables (fs : disk) (comments_doc : node).
Hypothesis Hcomments : parse_xml fs comments_path = Some comments_doc.

Local Abbreviation valid := (valid_para_ids comments_doc).
Local Abbreviation durable := (ext_durable_ids valid fs).
Local Abbreviation fs1 :=
  (clean_part ext_path "w15:commentEx" (orphan_para "w15:paraId" valid)
     (0, fs)).
Local Abbreviation fs2 :=
  (clean_part ids_path "w16cid:commentId" (orphan_para "w16cid:paraId" valid)
     (fs1.1, fs1.2)).
Local Abbreviation fs3 :=
  (clean_part extensible_path "w16cex:commentExtensible"
     (orphan_durable durable) (fs2.1, fs2.2)).

Lemma clean_steps : clean_orphaned_comments fs = fs3.
Proof.
  rewrite (clean_orphaned_comments_Some _ _ Hcomments). cbv zeta.
  by rewrite <- !clean_part_pair.
Qed.

Lemma clean_frame p :
  p ≠ ext_path → p ≠ ids_path → p ≠ extensible_path →
  files (clean_orphaned_comments fs).2 !! p = files fs !! p.
Proof.
  intros. by rewrite clean_steps, 3!clean_part_frame by done.
Qed.

Lemma clean_ext :
  parse_xml (clean_orphaned_comments fs).2 ext_path = parse_xml fs1.2 ext_path.
Proof.
  rewrite clean_steps. apply parse_xml_files.
  by rewrite 2!clean_part_frame by done.
Qed.

Lemma clean_ids :
  parse_xml (clean_orphaned_comments fs).2 ids_path = parse_xml fs2.2 ids_path.
Proof.
  rewrite clean_steps. apply parse_xml_files.
  by rewrite clean_part_frame by done.
Qed.

Lemma clean_extensible :
  parse_xml (clean_orphaned_comments fs).2 extensible_path
  = parse_xml fs3.2 extensible_path.
Proof. by rewrite clean_steps. Qed.

(** After the phase no entry that is left fails the test it was put to. *)
Lemma clean_orphan_free_wrt :
  orphan_free_wrt valid durable (clean_orphaned_comments fs).2.
Proof.
  unfold orphan_free_wrt. rewrite clean_ext, clean_ids, clean_extensible.
  split_and!; intros el Hel.
  - apply orphan_para_false.
    by eapply clean_part_survivors; [apply orphan_para_by_attributes|].
  - apply orphan_para_false.
    by eapply clean_part_survivors; [apply orphan_para_by_attributes|].
  - apply orphan_durable_false.
    by eapply clean_part_survivors; [apply orphan_durable_by_attributes|].
Qed.

Lemma clean_count :
  (clean_orphaned_comments fs).1
  = length (filter (λ el, orphan_para "w15:paraId" valid el = true)
              (doc_elements_by_tag (parse_xml fs ext_path) "w15:commentEx"))
    + length (filter (λ el, orphan_para "w16cid:paraId" valid el = true)
              (doc_elements_by_tag (parse_xml fs ids_path)
                 "w16cid:commentId"))
    + length (filter (λ el, orphan_durable durable el = true)
              (doc_elements_by_tag (parse_xml fs extensible_path)
                 "w16cex:commentExtensible")).
Proof.
  rewrite clean_steps, !clean_part_count. cbn [fst snd]. rewrite Nat.add_0_l.
  f_equal; [f_equal|]; do 3 f_equal; apply parse_xml_files;
    by rewrite ?clean_part_frame by done.
Qed.

(** Without nested commentEx entries, the entries that are left give the
    same valid-durableId set as before. *)
Lemma clean_durable_stable :
  (∀ doc, parse_xml fs ext_path = Some doc → no_nesting "w15:commentEx" doc) →
  ext_durable_ids valid (clean_orphaned_comments fs).2 = durable.
Proof.
  intros Hflat. rewrite !ext_durable_ids_parse, clean_ext.
  destruct (parse_xml fs ext_path) as [doc|] eqn:Hdoc.
  - rewrite (clean_part_flat _ _ _ _ _ _ Hdoc (Hflat _ eq_refl)).
    apply durable_ids_filter.
  - rewrite clean_part_None by done. cbn [snd]. by rewrite Hdoc.
Qed.
End phase.

Lemma clean_frame_any fs p :
  p ≠ ext_path → p ≠ ids_path → p ≠ extensible_path →
  files (clean_orphaned_comments fs).2 !! p = files fs !! p.
Proof.
  intros. destruct (parse_xml fs comments_path) as [cdoc|] eqn:Hc.
  - by eapply clean_frame.
  - by rewrite clean_orphaned_comments_None.
Qed.

(** The phase establishes [orphan_free] when commentsExtended.xml has no
    nested entries. *)
Lemma clean_orphan_free fs :
  (∀ doc, parse_xml fs ext_path = Some doc → no_nesting "w15:commentEx" doc) →
  orphan_free (clean_orphaned_comments fs).2.
Proof.
  intros Hflat cdoc Hc.
  assert (parse_xml fs comments_path = Some cdoc) as Hc0.
  { rewrite <- Hc. symmetry. apply parse_xml_files. by apply clean_frame_any. }
  cbv zeta. rewrite (clean_durable_stable _ _ Hc0 Hflat).
  by apply clean_orphan_free_wrt.
Qed.

(** On an orphan-free package the phase does nothing. *)
Lemma clean_orphaned_comments_clean fs :
  orphan_free fs → clean_orphaned_comments fs = (0, fs).
Proof.
  intros Hfree. destruct (parse_xml fs comments_path) as [cdoc|] eqn:Hc.
  - destruct (Hfree cdoc Hc) as (He & Hi & Hx).
    rewrite (clean_orphaned_comments_Some _ _ Hc). cbv zeta.
    rewrite (clean_part_clean ext_path); cycle 1.
    { intros el Hel. apply orphan_para_false. by apply He. }
    rewrite (clean_part_clean ids_path); cycle 1.
    { intros el Hel. apply orphan_para_false. by apply Hi. }
    apply clean_part_clean.
    intros el Hel. apply orphan_durable_false. by apply Hx.
  - by apply clean_orphaned_comments_None.
Qed.

Lemma orphan_free_agree fs fs' :
  (∀ p, p ∈ [comments_path; ext_path; ids_path; extensible_path] →
        files fs' !! p = files fs !! p) →
  orphan_free fs → orphan_free fs'.
Proof.
  intros Hagree Hfree cdoc Hc.
  assert (∀ p, p ∈ [comments_path; ext_path; ids_path; extensible_path] →
            parse_xml fs' p = parse_xml fs p) as Hparse.
  { intros p Hp. by apply parse_xml_files, Hagree. }
  rewrite Hparse in Hc by apply list_elem_of_here.
  specialize (Hfree cdoc Hc). cbv zeta in *.
  unfold orphan_free_wrt in *. rewrite !ext_durable_ids_parse in *.
  rewrite !Hparse by (rewrite !elem_of_cons; auto). done.
Qed.

End OrphanPhase.

(** ** D. White space *)

Module SpaceFacts.
Import Dom Fixup Notions DomFacts IndexFacts DiskFacts PyFacts.

Lemma text_of_map_elems update el :
  text_of (map_elems update el) = text_of el.
Proof.
  unfold text_of. rewrite map_elems_childNodes.
  generalize "". induction (childNodes el) as [|c cs IH]; intros acc; [done|].
  rewrite fmap_cons. cbn [foldl]. rewrite IH. by destruct c.
Qed.

Lemma lacks_preserve_after el :
  is_elem el = true → tagName el = "w:t" →
  lacks_preserve (add_preserve el) = false.
Proof.
  intros Hel Htag. unfold lacks_preserve, add_preserve.
  rewrite text_of_map_elems. unfold getAttribute.
  rewrite map_elems_attributes by done.
  fold (getAttribute (add_preserve_el el) "xml:space").
  unfold add_preserve_el. rewrite bool_decide_eq_true_2 by done. cbn [andb].
  destruct (lacks_preserve el) eqn:E.
  - destruct el as [t a cs| |]; try done.
    unfold getAttribute, setAttribute. simpl attributes.
    rewrite attr_lookup_update_eq. simpl. by rewrite andb_false_r.
  - apply E.
Qed.

Lemma w_id_add_preserve el :
  is_elem el = true → w_id (add_preserve el) = w_id el.
Proof.
  intros Hel. unfold add_preserve.
  transitivity (w_id (add_preserve_el el)).
  { apply w_id_attributes. by apply map_elems_attributes. }
  unfold add_preserve_el.
  destruct (bool_decide (tagName el = "w:t") && lacks_preserve el); [|done].
  destruct el as [t a cs| |]; try done.
  unfold w_id, getAttribute, setAttribute. simpl attributes.
  by rewrite attr_lookup_update_ne.
Qed.

Lemma id_set_add_preserve doc tags :
  id_set (add_preserve doc) tags = id_set doc tags.
Proof.
  apply set_eq. intros i. rewrite !elem_of_id_set. unfold add_preserve at 1.
  rewrite elems_map_elems. split.
  - intros (el' & (el & -> & Hel)%list_elem_of_fmap & Ht & Hi).
    exists el. rewrite map_elems_tagName in Ht.
    fold (add_preserve el) in Hi.
    rewrite w_id_add_preserve in Hi by (by eapply elems_is_elem). done.
  - intros (el & Hel & Ht & Hi). exists (add_preserve el). split_and!.
    + by apply list_elem_of_fmap_2.
    + unfold add_preserve. by rewrite map_elems_tagName.
    + by rewrite w_id_add_preserve by (by eapply elems_is_elem).
Qed.

Lemma shared_add_preserve doc i :
  shared_across_kinds (add_preserve doc) i ↔ shared_across_kinds doc i.
Proof. unfold shared_across_kinds. by rewrite !id_set_add_preserve. Qed.

Lemma add_preserve_space_marked doc : space_marked (add_preserve doc).
Proof.
  intros wt. unfold add_preserve at 1. rewrite get_elements_by_tag_map_elems.
  intros (el & -> & Hel)%list_elem_of_fmap.
  apply get_elements_by_tag_spec in Hel as [Hel Ht].
  apply lacks_preserve_after; [by eapply elems_is_elem|done].
Qed.

Lemma space_marked_filter doc :
  space_marked doc
  ↔ filter (λ wt, lacks_preserve wt = true) (get_elements_by_tag doc "w:t") = [].
Proof.
  unfold space_marked. split.
  - intros Hm. apply elem_of_nil_inv. intros wt [Hl Hwt]%list_elem_of_filter.
    by rewrite (Hm _ Hwt) in Hl.
  - intros Hnil wt Hwt. destruct (lacks_preserve wt) eqn:E; [|done].
    assert (wt ∈ filter (λ wt, lacks_preserve wt = true)
                   (get_elements_by_tag doc "w:t")) as Hin
      by (by apply list_elem_of_filter).
    rewrite Hnil in Hin. by apply elem_of_nil in Hin.
Qed.

(** *** The phase *)

Lemma fix_xml_space_None fs :
  parse_xml fs doc_path = None → fix_xml_space fs = (0, fs).
Proof. unfold fix_xml_space. by intros ->. Qed.

Lemma fix_xml_space_clean fs doc :
  parse_xml fs doc_path = Some doc → space_marked doc →
  fix_xml_space fs = (0, fs).
Proof.
  unfold fix_xml_space. intros -> Hm%space_marked_filter. by rewrite Hm.
Qed.

Lemma fix_xml_space_doc fs doc :
  parse_xml fs doc_path = Some doc →
  parse_xml (fix_xml_space fs).2 doc_path = Some doc
  ∨ parse_xml (fix_xml_space fs).2 doc_path = Some (add_preserve doc)
    ∧ ¬ space_marked doc.
Proof.
  unfold fix_xml_space. intros Hdoc. rewrite Hdoc.
  destruct (filter _ (get_elements_by_tag doc "w:t")) as [|wt l] eqn:E.
  - by left.
  - right. cbn [length Nat.ltb Nat.leb snd]. split; [apply parse_write_eq|].
    rewrite space_marked_filter. by rewrite E.
Qed.

Lemma fix_xml_space_frame fs p :
  p ≠ doc_path → files (fix_xml_space fs).2 !! p = files fs !! p.
Proof.
  intros Hp. unfold fix_xml_space.
  destruct (parse_xml fs doc_path) as [doc|]; [|done].
  destruct (0 <? _)%nat; [by apply files_write_ne|done].
Qed.

Lemma fix_xml_space_post fs doc' :
  parse_xml (fix_xml_space fs).2 doc_path = Some doc' → space_marked doc'.
Proof.
  destruct (parse_xml fs doc_path) as [doc|] eqn:Hdoc.
  - unfold fix_xml_space. rewrite Hdoc.
    destruct (filter _ (get_elements_by_tag doc "w:t")) as [|wt l] eqn:E.
    + cbn [length Nat.ltb Nat.leb snd]. rewrite Hdoc. intros [= <-].
      by apply space_marked_filter.
    + cbn [length Nat.ltb Nat.leb snd]. rewrite parse_write_eq. intros [= <-].
      apply add_preserve_space_marked.
  - rewrite fix_xml_space_None by done. cbn [snd]. by rewrite Hdoc.
Qed.

Lemma fix_xml_space_shared fs doc' :
  parse_xml (fix_xml_space fs).2 doc_path = Some doc' →
  ∃ doc, parse_xml fs doc_path = Some doc
         ∧ ∀ i, shared_across_kinds doc' i ↔ shared_across_kinds doc i.
Proof.
  destruct (parse_xml fs doc_path) as [doc|] eqn:Hdoc.
  - destruct (fix_xml_space_doc _ _ Hdoc) as [->|[-> _]]; intros [= <-];
      exists doc; split; try done. intros i. apply shared_add_preserve.
  - rewrite fix_xml_space_None by done. cbn [snd]. by rewrite Hdoc.
Qed.

End SpaceFacts.

(** ** The pipeline *)

Module PipelineFacts.
Import Dom Fixup Notions DomFacts RemoveFacts RemoveMore DedupFacts DedupPass
  DiskFacts DedupPhase OrphanFacts OrphanPhase SpaceFacts DeconflictFacts
  DeconflictPhase.

Lemma dedup_content_types_clean fs :
  (∀ doc, parse_xml fs ct_path = Some doc →
          NoDup (part_name <$> get_elements_by_tag doc "Override")
          ∧ NoDup (extension <$> get_elements_by_tag doc "Default")) →
  dedup_content_types fs = (0, fs).
Proof.
  intros Hclean. destruct (parse_xml fs ct_path) as [doc|] eqn:Hdoc.
  - destruct (Hclean doc eq_refl) as [Ho Hd].
    rewrite (dedup_content_types_Some _ _ Hdoc). unfold ct_after_override.
    rewrite (dedup_pass_clean part_name part_name_by_attributes "Override"
               (Some doc)) by done.
    cbn [fst snd].
    by rewrite (dedup_pass_clean extension extension_by_attributes "Default"
                  (Some doc)) by done.
  - by apply dedup_content_types_None.
Qed.

Lemma dedup_rels_fold_clean l n fs :
  (∀ p doc, p ∈ l → parse_xml fs p = Some doc →
            NoDup (type_target <$> get_elements_by_tag doc "Relationship")) →
  foldl dedup_rels_file (n, fs) l = (n, fs).
Proof.
  induction l as [|p l IH]; intros Hclean; [done|]. cbn [foldl].
  assert (dedup_rels_file (n, fs) p = (n, fs)) as ->.
  { unfold dedup_rels_file. destruct (parse_xml fs p) as [doc|] eqn:Hdoc; [|done].
    rewrite (dedup_pass_clean type_target type_target_by_attributes
               "Relationship" (Some doc)); [done|].
    eapply Hclean; [apply list_elem_of_here|done]. }
  apply IH. intros q doc Hq. apply Hclean. by apply list_elem_of_further.
Qed.

Lemma dedup_relationships_clean fs :
  (∀ doc, parse_xml fs ct_path = Some doc →
          NoDup (part_name <$> get_elements_by_tag doc "Override")
          ∧ NoDup (extension <$> get_elements_by_tag doc "Default")) →
  (∀ p doc, is_rels p = true → parse_xml fs p = Some doc →
            NoDup (type_target <$> get_elements_by_tag doc "Relationship")) →
  dedup_relationships fs = (DedupSummary 0 0, fs).
Proof.
  intros Hct Hrels. unfold dedup_relationships.
  rewrite (dedup_content_types_clean _ Hct). unfold dedup_rels.
  rewrite dedup_rels_fold_clean; [done|].
  intros p doc [Hr _]%elem_of_rels_paths. by apply Hrels.
Qed.

(** What the dedup phase leaves behind. *)
Lemma dedup_relationships_post_ct fs doc' :
  parse_xml (dedup_relationships fs).2 ct_path = Some doc' →
  NoDup (part_name <$> get_elements_by_tag doc' "Override")
  ∧ NoDup (extension <$> get_elements_by_tag doc' "Default").
Proof.
  destruct (parse_xml fs ct_path) as [doc|] eqn:Hdoc.
  - rewrite (dedup_relationships_ct _ _ Hdoc). unfold ct_after. intros Hafter.
    pose proof (dedup_pass_deduplicated extension extension_by_attributes
                  "Default" (ct_after_override doc)) as [Hd _].
    pose proof (dedup_pass_other extension "Default" (ct_after_override doc)
                  "Override") as Hsub.
    pose proof (dedup_pass_deduplicated part_name part_name_by_attributes
                  "Override" (Some doc)) as [Ho _].
    rewrite Hafter in Hd, Hsub. simpl in Hd, Hsub. split; [|done].
    eapply sublist_NoDup; [apply Ho|].
    apply (key_sublist part_name part_name_by_attributes). by apply Hsub.
  - rewrite dedup_relationships_unfold. cbn [snd].
    rewrite (parse_xml_files (dedup_content_types fs).2)
      by apply dedup_rels_frame, is_rels_ct.
    rewrite dedup_content_types_None by done. cbn [snd]. by rewrite Hdoc.
Qed.

Lemma dedup_relationships_post_rels fs p doc' :
  is_rels p = true →
  parse_xml (dedup_relationships fs).2 p = Some doc' →
  NoDup (type_target <$> get_elements_by_tag doc' "Relationship").
Proof.
  intros Hr. rewrite dedup_relationships_rels by done. unfold rels_after.
  intros Hafter.
  pose proof (dedup_pass_deduplicated type_target type_target_by_attributes
                "Relationship" (parse_xml fs p)) as [Hd _].
  by rewrite Hafter in Hd.
Qed.

(** The four phases in sequence. *)
Section states.
Variable fs : disk.
Local Abbreviation sA := ((deconflict_ids fs).2).
Local Abbreviation sB := ((dedup_relationships sA).2).
Local Abbreviation sC := ((clean_orphaned_comments sB).2).
Local Abbreviation sD := ((fix_xml_space sC).2).

Lemma main_unfold :
  main fs =
    (let a := (deconflict_ids fs).1 in
     let b := (dedup_relationships sA).1 in
     let c := (clean_orphaned_comments sB).1 in
     let d := (fix_xml_space sC).1 in
     Results a b c d
       (comments_renumbered a + changes_renumbered a
        + content_types_removed b + rels_removed b + c + d),
     sD).
Proof.
  unfold main. destruct (deconflict_ids fs) as [a s1]. cbn [fst snd].
  destruct (dedup_relationships s1) as [b s2]. cbn [fst snd].
  destruct (clean_orphaned_comments s2) as [c s3]. cbn [fst snd].
  by destruct (fix_xml_space s3) as [d s4].
Qed.

Lemma main_state : (main fs).2 = sD.
Proof. by rewrite main_unfold. Qed.

Lemma doc_before_space : parse_xml sC doc_path = parse_xml sA doc_path.
Proof.
  rewrite (parse_xml_files sB) by (by apply clean_frame_any).
  by apply parse_xml_files, dedup_relationships_frame.
Qed.

Lemma main_collision_free doc' :
  parse_xml sD doc_path = Some doc' → ∀ i, ¬ shared_across_kinds doc' i.
Proof.
  intros (doc & Hdoc & Hsame)%fix_xml_space_shared i.
  rewrite Hsame. rewrite doc_before_space in Hdoc.
  by eapply deconflict_ids_post.
Qed.

Lemma main_repaired : flat_comments_extended fs → repaired sD.
Proof.
  intros Hflat. split_and!.
  - intros doc' Hdoc'. split; [by apply main_collision_free|].
    by eapply fix_xml_space_post.
  - intros doc'.
    rewrite (parse_xml_files sC) by (by apply fix_xml_space_frame).
    rewrite (parse_xml_files sB) by (by apply clean_frame_any).
    apply dedup_relationships_post_ct.
  - intros p doc' Hr.
    assert (p ≠ doc_path ∧ p ≠ ext_path ∧ p ≠ ids_path
            ∧ p ≠ extensible_path) as (? & ? & ? & ?).
    { split_and!; intros ->; by vm_compute in Hr. }
    rewrite (parse_xml_files sC) by (by apply fix_xml_space_frame).
    rewrite (parse_xml_files sB) by (by apply clean_frame_any).
    by apply dedup_relationships_post_rels.
  - apply (orphan_free_agree sC).
    { intros p Hp. apply fix_xml_space_frame.
      intros ->. rewrite !elem_of_cons, elem_of_nil in Hp.
      intuition discriminate. }
    apply clean_orphan_free. intros doc Hdoc.
    unfold flat_comments_extended in Hflat.
    assert (parse_xml fs ext_path = Some doc) as Hdoc0; [|by rewrite Hdoc0 in Hflat].
    rewrite <- Hdoc. symmetry.
    rewrite (parse_xml_files sA) by (by apply dedup_relationships_frame).
    by apply parse_xml_files, deconflict_ids_frame.
Qed.
End states.

Lemma main_repaired_no_changes fs : repaired fs → main fs = (no_changes, fs).
Proof.
  intros (Hdoc & Hct & Hrels & Horph). rewrite main_unfold.
  assert (deconflict_ids fs = (IdSummary 0 0, fs)) as HA.
  { destruct (parse_xml fs doc_path) as [doc|] eqn:E.
    - apply (deconflict_ids_clean _ doc E), has_collision_false.
      by apply Hdoc.
    - by apply deconflict_ids_None. }
  rewrite HA. cbn [fst snd].
  rewrite (dedup_relationships_clean _ Hct Hrels). cbn [fst snd].
  rewrite (clean_orphaned_comments_clean _ Horph). cbn [fst snd].
  assert (fix_xml_space fs = (0, fs)) as ->; [|done].
  destruct (parse_xml fs doc_path) as [doc|] eqn:E.
  - apply (fix_xml_space_clean _ doc E). by apply Hdoc.
  - by apply fix_xml_space_None.
Qed.

End PipelineFacts.

(** ** Deduplication of manifests whose entries are leaves *)

Module DedupFlat.
Import Dom Fixup Notions DomFacts RemoveFacts RemoveMore DedupFacts DedupPass
  DedupPhase.

Lemma leaf_entries_tag tags doc tag entry :
  leaf_entries tags doc → tag ∈ tags → entry ∈ elems doc →
  tagName entry = tag → childNodes entry ≫= elems = [].
Proof. intros Hleaf Ht Hel <-. by eapply RemoveLeaf.leaf_entries_spec. Qed.

Lemma leaf_getElementsByTagName entry tag :
  childNodes entry ≫= elems = [] → getElementsByTagName entry tag = [].
Proof. unfold getElementsByTagName. by intros ->. Qed.

Section pass.
Context `{Countable K}.
Variable key : node → K.
Variable tag : string.

Lemma dedup_pass_flat doc :
  (∀ entry, entry ∈ elems doc → tagName entry = tag →
            childNodes entry ≫= elems = []) →
  doc_elements_by_tag (dedup_pass tag key (Some doc)).1 tag
  = keep_unmarked (get_elements_by_tag doc tag)
      (dup_marks key ∅ (get_elements_by_tag doc tag)).
Proof.
  intros Hleaf. unfold dedup_pass. simpl.
  by apply remove_marked_flat, RemoveLeaf.leaf_no_nesting.
Qed.

Lemma kept_keys (els : list node) :
  keys_kept key els (keep_unmarked els (dup_marks key ∅ els)).
Proof.
  intros entry Hentry.
  destruct (kept_covers key ∅ els entry Hentry) as [[]%elem_of_empty|?]. done.
Qed.
End pass.

(** [Content_Types].xml with leaf entries: each loop leaves exactly the
    first occurrences of the original document, and takes nothing of the
    other tag with it. *)
Lemma ct_after_flat doc :
  leaf_entries ["Override"; "Default"] doc →
  doc_elements_by_tag (ct_after doc) "Override"
  = keep_unmarked (get_elements_by_tag doc "Override")
      (dup_marks part_name ∅ (get_elements_by_tag doc "Override"))
  ∧ doc_elements_by_tag (ct_after_override doc) "Default"
    = get_elements_by_tag doc "Default"
  ∧ doc_elements_by_tag (ct_after doc) "Default"
    = keep_unmarked (get_elements_by_tag doc "Default")
        (dup_marks extension ∅ (get_elements_by_tag doc "Default")).
Proof.
  intros Hleaf.
  assert (∀ tag entry, tag ∈ ["Override"; "Default"] → entry ∈ elems doc →
            tagName entry = tag → childNodes entry ≫= elems = []) as Hl.
  { intros tag entry Ht. by apply (leaf_entries_tag _ _ _ _ Hleaf). }
  assert (∀ entry, entry ∈ elems doc → tagName entry = "Override" →
            childNodes entry ≫= elems = []) as HlO.
  { intros entry. apply Hl. set_solver. }
  assert (∀ entry, entry ∈ elems doc → tagName entry = "Default" →
            childNodes entry ≫= elems = []) as HlD.
  { intros entry. apply Hl. set_solver. }
  assert (doc_elements_by_tag (ct_after_override doc) "Override"
          = keep_unmarked (get_elements_by_tag doc "Override")
              (dup_marks part_name ∅ (get_elements_by_tag doc "Override")))
    as Ho1.
  { by apply dedup_pass_flat. }
  assert (doc_elements_by_tag (ct_after_override doc) "Default"
          = get_elements_by_tag doc "Default") as Hd1.
  { unfold ct_after_override, dedup_pass. simpl.
    apply RemoveLeaf.remove_marked_other; [done|done|].
    intros entry Hentry Ht. apply leaf_getElementsByTagName. by apply HlD. }
  unfold ct_after. destruct (ct_after_override doc) as [r1|] eqn:E1.
  - simpl in Ho1, Hd1.
    assert (∀ entry, entry ∈ elems r1 → tagName entry = "Default" →
              childNodes entry ≫= elems = []) as Hleaf1.
    { intros entry Hentry Ht.
      assert (entry ∈ get_elements_by_tag doc "Default") as Hin.
      { rewrite <- Hd1. by apply get_elements_by_tag_spec. }
      apply get_elements_by_tag_spec in Hin as [Hin _]. by apply HlD. }
    assert (∀ entry, entry ∈ elems r1 → tagName entry = "Override" →
              getElementsByTagName entry "Default" = []) as Hclean1.
    { intros entry Hentry Ht. apply leaf_getElementsByTagName.
      assert (entry ∈ get_elements_by_tag r1 "Override") as Hin
        by (by apply get_elements_by_tag_spec).
      rewrite Ho1 in Hin.
      pose proof (elem_of_sublist _ _ _ Hin (keep_unmarked_sublist _ _))
        as Hin'.
      apply get_elements_by_tag_spec in Hin' as [Hin' _]. by apply HlO. }
    split_and!; [|done|].
    + rewrite <- Ho1. unfold dedup_pass. simpl.
      by apply RemoveLeaf.remove_marked_other.
    + rewrite dedup_pass_flat by done. by rewrite Hd1.
  - simpl in *. split_and!; [done|done|]. by rewrite <- Hd1.
Qed.

End DedupFlat.

(** ** More on the orphan cleaner *)

Module OrphanMore.
Import Dom Fixup Notions DomFacts IndexFacts RenumberFacts DeconflictFacts
  DiskFacts DeconflictPhase RemoveFacts RemoveMore DedupFacts DedupPass
  DedupPhase OrphanFacts OrphanPhase SpaceFacts PipelineFacts PyFacts.

(** A valid paraId is the non-empty paraId of a paragraph inside a
    [w:comment] of comments.xml. *)
Lemma elem_of_valid_para_ids comments_doc para_id :
  para_id ∈ valid_para_ids comments_doc
  ↔ ∃ comment_el p_el,
      comment_el ∈ get_elements_by_tag comments_doc "w:comment"
      ∧ p_el ∈ getElementsByTagName comment_el "w:p"
      ∧ para_id_of p_el = para_id ∧ para_id ≠ "".
Proof.
  unfold valid_para_ids.
  assert (∀ ps (acc : gset string),
    para_id ∈ foldl (λ valid p_el,
                 let para_id := para_id_of p_el in
                 if Py.nonempty para_id then {[para_id]} ∪ valid else valid)
               acc ps
    ↔ para_id ∈ acc
      ∨ ∃ p_el, p_el ∈ ps ∧ para_id_of p_el = para_id ∧ para_id ≠ "")
    as Hinner.
  { induction ps as [|p ps IH]; intros acc; cbn [foldl].
    - split; [auto|]. intros [?|(? & []%elem_of_nil & _)]. done.
    - rewrite IH. cbv zeta.
      destruct (Py.nonempty (para_id_of p)) eqn:E;
        [apply nonempty_true in E|apply nonempty_false in E].
      + rewrite elem_of_union, elem_of_singleton. split.
        * intros [[->|?]|(q & Hq & ?)]; auto.
          -- right. exists p. split_and!; auto. apply list_elem_of_here.
          -- right. exists q. split; [by apply list_elem_of_further|done].
        * intros [?|(q & [->|Hq]%elem_of_cons & Hid & Hne)]; eauto 8.
      + split.
        * intros [?|(q & Hq & ?)]; auto.
          right. exists q. split; [by apply list_elem_of_further|done].
        * intros [?|(q & [->|Hq]%elem_of_cons & Hid & Hne)]; eauto 8.
          congruence. }
  generalize (get_elements_by_tag comments_doc "w:comment"). intros cs.
  assert (∀ acc : gset string,
    para_id ∈ foldl (λ valid comment_el,
                 foldl (λ valid p_el,
                   let para_id := para_id_of p_el in
                   if Py.nonempty para_id then {[para_id]} ∪ valid else valid)
                   valid (getElementsByTagName comment_el "w:p")) acc cs
    ↔ para_id ∈ acc
      ∨ ∃ comment_el p_el, comment_el ∈ cs
          ∧ p_el ∈ getElementsByTagName comment_el "w:p"
          ∧ para_id_of p_el = para_id ∧ para_id ≠ "") as Houter.
  { induction cs as [|c cs IH]; intros acc; cbn [foldl].
    - split; [auto|]. intros [?|(? & ? & []%elem_of_nil & _)]. done.
    - rewrite IH, Hinner. split.
      + intros [[?|(q & Hq & ?)]|(c' & q & Hc' & ?)]; auto.
        * right. exists c, q. split; [apply list_elem_of_here|done].
        * right. exists c', q. split; [by apply list_elem_of_further|done].
      + intros [?|(c' & q & [->|Hc']%elem_of_cons & ?)]; eauto 8. }
  rewrite Houter. split; [intros [[]%elem_of_empty|?]; done|auto].
Qed.

Lemma orphan_durable_true durable entry :
  orphan_durable durable entry = true
  ↔ getAttribute entry "w16cex:durableId" ≠ "" ∧ durable ≠ ∅
    ∧ getAttribute entry "w16cex:durableId" ∉ durable.
Proof.
  unfold orphan_durable.
  rewrite !andb_true_iff, nonempty_true, !bool_decide_eq_true. tauto.
Qed.

End OrphanMore.

(** ** Counting removed relationships *)

Module DedupCount.
Import Dom Fixup Notions DomFacts IndexFacts RenumberFacts DeconflictFacts
  DiskFacts DeconflictPhase RemoveFacts RemoveMore DedupFacts DedupPass
  DedupPhase OrphanFacts OrphanPhase SpaceFacts PipelineFacts PyFacts.

Lemma sum_list_fmap {A} (f : A → nat) (l : list A) :
  sum_list (f <$> l) = sum_list_with f l.
Proof. induction l as [|x l IH]; [done|]. rewrite fmap_cons. simpl. by rewrite IH. Qed.

Lemma sum_list_with_ext_in {A} (f g : A → nat) (l : list A) :
  (∀ x, x ∈ l → f x = g x) → sum_list_with f l = sum_list_with g l.
Proof.
  induction l as [|x l IH]; intros Hfg; [done|]. simpl.
  rewrite (Hfg x) by apply list_elem_of_here. rewrite IH; [done|].
  intros y Hy. by apply Hfg, list_elem_of_further.
Qed.

Lemma rels_paths_after_content_types fs :
  rels_paths (dedup_content_types fs).2 ≡ₚ rels_paths fs.
Proof.
  apply NoDup_Permutation; [apply NoDup_rels_paths..|].
  intros p. rewrite !elem_of_rels_paths. split; intros [Hr Hp]; split; try done.
  - rewrite dedup_content_types_frame in Hp; [done|].
    intros ->. by rewrite is_rels_ct in Hr.
  - rewrite dedup_content_types_frame; [done|].
    intros ->. by rewrite is_rels_ct in Hr.
Qed.

End DedupCount.

(** ** The validator's indexes *)

Module ValidateFacts.
Import Dom Fixup Notions DomFacts IndexFacts RenumberFacts DeconflictFacts
  DiskFacts DeconflictPhase RemoveFacts RemoveMore DedupFacts DedupPass
  DedupPhase OrphanFacts OrphanPhase SpaceFacts PipelineFacts PyFacts.


Lemma ends_with_app suffix s : ends_with suffix (s ++ suffix)%string = true.
Proof.
  induction s as [|c s IH]; simpl.
  - destruct suffix; simpl; by rewrite ?Ascii.eqb_refl, ?String.eqb_refl.
  - rewrite IH. apply orb_true_r.
Qed.

Lemma setdefault_append_keys seen val tag k :
  k ∈ (Validate.setdefault_append seen val tag).*1 ↔ k = val ∨ k ∈ seen.*1.
Proof.
  induction seen as [|[k' tags] seen IH]; simpl.
  - rewrite list_elem_of_singleton, elem_of_nil. tauto.
  - destruct (String.eqb_spec k' val) as [->|Hne]; simpl.
    + rewrite !elem_of_cons. tauto.
    + rewrite !elem_of_cons, IH. tauto.
Qed.

(** The validator's index: every non-empty [w:id] value of an annotation
    element, as a string. *)
Lemma collect_seen_keys doc val :
  val ∈ (Validate.collect_seen doc).*1
  ↔ val ≠ "" ∧ ∃ entry, entry ∈ elems doc
                ∧ tagName entry ∈ Validate.ANNOTATION_TAGS
                ∧ getAttribute entry "w:id" = val.
Proof.
  unfold Validate.collect_seen.
  assert (∀ tag els (acc : list (string * list string)),
    val ∈ (foldl (λ seen entry,
             let v := getAttribute entry "w:id" in
             if Py.nonempty v then Validate.setdefault_append seen v tag
             else seen) acc els).*1
    ↔ val ∈ acc.*1
      ∨ val ≠ "" ∧ ∃ entry, entry ∈ els ∧ getAttribute entry "w:id" = val)
    as Hinner.
  { intros tag els. induction els as [|x els IH]; intros acc; cbn [foldl].
    - split; [auto|]. intros [?|(_ & ? & []%elem_of_nil & _)]. done.
    - rewrite IH. cbv zeta.
      destruct (Py.nonempty (getAttribute x "w:id")) eqn:E;
        [apply nonempty_true in E|apply nonempty_false in E].
      + rewrite setdefault_append_keys. split.
        * intros [[->|?]|(Hne & q & Hq & ?)]; auto.
          -- right. split; [done|]. exists x. split; [apply list_elem_of_here|done].
          -- right. split; [done|]. exists q.
             split; [by apply list_elem_of_further|done].
        * intros [?|(Hne & q & [->|Hq]%elem_of_cons & Hid)]; eauto 8.
      + split.
        * intros [?|(Hne & q & Hq & ?)]; auto.
          right. split; [done|]. exists q.
          split; [by apply list_elem_of_further|done].
        * intros [?|(Hne & q & [->|Hq]%elem_of_cons & Hid)]; eauto 8.
          congruence. }
  assert (∀ tags (acc : list (string * list string)),
    val ∈ (foldl (λ seen tag,
             foldl (λ seen entry,
               let v := getAttribute entry "w:id" in
               if Py.nonempty v then Validate.setdefault_append seen v tag
               else seen) seen (get_elements_by_tag doc tag)) acc tags).*1
    ↔ val ∈ acc.*1
      ∨ val ≠ "" ∧ ∃ entry, entry ∈ elems doc ∧ tagName entry ∈ tags
                    ∧ getAttribute entry "w:id" = val) as Houter.
  { induction tags as [|tag tags IH]; intros acc; cbn [foldl].
    - split; [auto|]. intros [?|(_ & ? & _ & []%elem_of_nil & _)]. done.
    - rewrite IH, Hinner. split.
      + intros [[?|(Hne & q & [Hq Ht]%get_elements_by_tag_spec & ?)]
               |(Hne & q & Hq & Ht & ?)]; auto.
        * right. split; [done|]. exists q. split_and!; [done| |done].
          rewrite Ht. apply list_elem_of_here.
        * right. split; [done|]. exists q. split_and!; [done| |done].
          by apply list_elem_of_further.
      + intros [?|(Hne & q & Hq & [Ht|Ht]%elem_of_cons & ?)]; auto.
        * left. right. split; [done|]. exists q.
          by rewrite get_elements_by_tag_spec.
        * right. split; [done|]. eauto. }
  rewrite Houter. simpl. rewrite elem_of_nil. tauto.
Qed.

End ValidateFacts.

(** ** Elements without a usable id *)

Module IdFacts.
Import Dom Fixup Notions DomFacts IndexFacts RenumberFacts DeconflictFacts
  DiskFacts DeconflictPhase RemoveFacts RemoveMore DedupFacts DedupPass
  DedupPhase OrphanFacts OrphanPhase SpaceFacts PipelineFacts PyFacts.

Lemma w_id_None entry :
  w_id entry = None
  ↔ getAttribute entry "w:id" = "" ∨ Py.int (getAttribute entry "w:id") = None.
Proof.
  unfold w_id. destruct (Py.nonempty (getAttribute entry "w:id")) eqn:E;
    [apply nonempty_true in E|apply nonempty_false in E]; split; auto.
  - by intros [?|?].
Qed.

Lemma w_id_Some entry i :
  w_id entry = Some i
  ↔ getAttribute entry "w:id" ≠ "" ∧ Py.int (getAttribute entry "w:id") = Some i.
Proof.
  unfold w_id. destruct (Py.nonempty (getAttribute entry "w:id")) eqn:E;
    [apply nonempty_true in E|apply nonempty_false in E]; split; try tauto.
  done.
Qed.

Lemma renumber_without_id tags remap entry :
  is_elem entry = true → w_id entry = None →
  attributes (renumber tags remap entry) = attributes entry
  ∧ w_id (renumber tags remap entry) = None.
Proof.
  intros Hel Hid.
  assert (attributes (renumber tags remap entry) = attributes entry) as Ha.
  { unfold renumber. rewrite map_elems_attributes by done.
    unfold renumber_el. rewrite Hid. by case_bool_decide. }
  split; [done|]. rewrite <- Hid. by apply w_id_attributes.
Qed.

Lemma renumber_is_elem tags remap entry :
  is_elem (renumber tags remap entry) = is_elem entry.
Proof. by destruct entry. Qed.

End IdFacts.

(** ** Writes *)

Module WriteFacts.
Import Dom Fixup Notions DomFacts IndexFacts RenumberFacts DeconflictFacts
  DiskFacts DeconflictPhase RemoveFacts RemoveMore DedupFacts DedupPass
  DedupPhase OrphanFacts OrphanPhase SpaceFacts PipelineFacts DedupCount.

Lemma dirty_none exempt paths fs : dirty_writes exempt paths fs fs.
Proof.
  exists []. rewrite app_nil_r. split_and!; try done; try constructor;
    by intros p ?%elem_of_nil.
Qed.

Lemma dirty_mono exempt paths paths' before after :
  (∀ p, p ∈ paths → p ∈ paths') →
  dirty_writes exempt paths before after →
  dirty_writes exempt paths' before after.
Proof.
  intros Hsub (ws & Hw & Hnd & Hin & Hch & Hsame).
  exists ws. split_and!; auto.
Qed.

Lemma dirty_compose exempt paths1 paths2 a b c :
  (∀ p, p ∈ paths1 → p ∉ paths2) →
  dirty_writes exempt paths1 a b → dirty_writes exempt paths2 b c →
  dirty_writes exempt (paths1 ++ paths2) a c.
Proof.
  intros Hdisj (w1 & Hw1 & Hnd1 & Hin1 & Hch1 & Hsame1)
    (w2 & Hw2 & Hnd2 & Hin2 & Hch2 & Hsame2).
  exists (w1 ++ w2). split_and!.
  - by rewrite Hw2, Hw1, app_assoc.
  - apply NoDup_app. split_and!; [done| |done].
    intros p Hp1 Hp2. by apply (Hdisj p); [apply Hin1|apply Hin2].
  - intros p [?|?]%elem_of_app; apply elem_of_app; auto.
  - intros p [Hp|Hp]%elem_of_app Hex.
    + rewrite Hsame2; [by apply Hch1|].
      intros Hp2. by apply (Hdisj p); [apply Hin1|apply Hin2].
    + rewrite <- Hsame1; [by apply Hch2|].
      intros Hp1. by apply (Hdisj p); [apply Hin1|apply Hin2].
  - intros p Hp. apply not_elem_of_app in Hp as [Hp1 Hp2].
    by rewrite Hsame2, Hsame1.
Qed.

Lemma parse_Some_files fs p doc :
  parse_xml fs p = Some doc ↔ files fs !! p = Some (Parsed doc).
Proof.
  unfold parse_xml. destruct (files fs !! p) as [[|d]|]; split; congruence.
Qed.

(** One write of a part that did change. *)
Lemma dirty_write exempt o p fs doc :
  parse_xml fs p = Some doc → o ≠ Some doc →
  dirty_writes exempt [p] fs (write_xml o p fs).
Proof.
  intros Hdoc%parse_Some_files Hne. exists [p]. split_and!.
  - done.
  - apply NoDup_singleton.
  - done.
  - intros q ->%list_elem_of_singleton _. unfold write_xml. cbn [files].
    rewrite lookup_insert_eq, Hdoc. destruct o; congruence.
  - intros q Hq. apply files_write_ne. intros ->. apply Hq, list_elem_of_here.
Qed.

(** One write of a part that may not have changed. *)
Lemma exempt_write o p fs : dirty_writes [p] [p] fs (write_xml o p fs).
Proof.
  exists [p]. split_and!; [done|apply NoDup_singleton|done| |].
  - intros q Hq Hex. by destruct Hex.
  - intros q Hq. apply files_write_ne. intros ->. apply Hq, list_elem_of_here.
Qed.

Lemma dirty_exempt exempt exempt' paths before after :
  (∀ p, p ∈ exempt → p ∈ exempt') →
  dirty_writes exempt paths before after →
  dirty_writes exempt' paths before after.
Proof.
  intros Hsub (ws & Hw & Hnd & Hin & Hch & Hsame).
  exists ws. split_and!; auto.
Qed.

(** *** Removal changes the part *)

Lemma count_marked_cons m ms :
  count_marked (m :: ms) = (if m then 1 else 0) + count_marked ms.
Proof.
  unfold count_marked. rewrite filter_cons. by destruct m; case_decide.
Qed.

Lemma keep_unmarked_length {A} (l : list A) marks :
  length marks = length l →
  length (keep_unmarked l marks) + count_marked marks = length l.
Proof.
  revert marks. induction l as [|x l IH]; intros [|m ms] Hlen; try done.
  cbn [keep_unmarked head tail default]. rewrite count_marked_cons.
  injection Hlen as Hlen. specialize (IH ms Hlen).
  destruct m; simpl; lia.
Qed.

Lemma dup_marks_length `{Countable K} (key : node → K) seen els :
  length (dup_marks key seen els) = length els.
Proof.
  revert seen. induction els as [|x els IH]; intros seen; [done|]. simpl.
  case_bool_decide; simpl; by rewrite IH.
Qed.

Lemma remove_changes tag doc marks :
  length marks = length (get_elements_by_tag doc tag) →
  0 < count_marked marks →
  (remove_marked tag doc marks).1 ≠ Some doc.
Proof.
  intros Hlen Hpos Heq.
  pose proof (remove_marked_spec tag tag doc marks) as [_ Hsub].
  rewrite Heq in Hsub. unfold expected in Hsub.
  rewrite decide_True in Hsub by done. simpl in Hsub.
  apply sublist_length in Hsub. rewrite !length_fmap in Hsub.
  pose proof (keep_unmarked_length _ _ Hlen). lia.
Qed.

Lemma dedup_pass_changes `{Countable K} (key : node → K) tag doc :
  0 < (dedup_pass tag key (Some doc)).2 →
  (dedup_pass tag key (Some doc)).1 ≠ Some doc.
Proof.
  unfold dedup_pass. cbn [fst snd doc_remove_marked doc_elements_by_tag].
  apply remove_changes, dup_marks_length.
Qed.

Lemma ct_after_changes doc :
  0 < (dedup_pass "Override" part_name (Some doc)).2
      + (dedup_pass "Default" extension (ct_after_override doc)).2 →
  ct_after doc ≠ Some doc.
Proof.
  intros Hpos Heq.
  destruct (decide ((dedup_pass "Override" part_name (Some doc)).2 = 0))
    as [Hz|Hnz].
  - pose proof (dedup_pass_zero part_name "Override" (Some doc) Hz) as H1.
    unfold ct_after, ct_after_override in *. rewrite H1 in Heq, Hpos.
    apply (dedup_pass_changes extension "Default" doc); [lia|done].
  - assert ("Override" ≠ "Default") as Hod by done.
    pose proof (dedup_pass_other extension "Default" (ct_after_override doc)
                  "Override" Hod) as Hs2.
    fold (ct_after doc) in Hs2. rewrite Heq in Hs2.
    pose proof (dedup_pass_survivors part_name "Override" (Some doc)
                  "Override") as Hs1.
    unfold expected in Hs1. rewrite decide_True in Hs1 by done.
    fold (ct_after_override doc) in Hs1.
    apply sublist_length in Hs1, Hs2. rewrite !length_fmap in Hs1, Hs2.
    simpl in Hs1, Hs2.
    pose proof (keep_unmarked_length (get_elements_by_tag doc "Override")
                  (dup_marks part_name ∅ (get_elements_by_tag doc "Override"))
                  (dup_marks_length _ _ _)) as Hk.
    unfold dedup_pass in Hnz. cbn [snd doc_elements_by_tag] in Hnz. lia.
Qed.

(** *** The phases *)

Lemma deconflict_doc_changes doc :
  has_collision doc = true → deconflict_doc doc ≠ doc.
Proof.
  intros Hcol Heq.
  assert (has_collision (deconflict_doc doc) = false) as Hfree.
  { apply has_collision_false, deconflict_doc_collision_free. }
  congruence.
Qed.

Lemma deconflict_ids_writes fs :
  dirty_writes [comments_path] [doc_path; comments_path] fs
    (deconflict_ids fs).2.
Proof.
  destruct (parse_xml fs doc_path) as [doc|] eqn:Hdoc;
    [|rewrite deconflict_ids_None by done; apply dirty_none].
  destruct (has_collision doc) eqn:Hcol;
    [|rewrite (deconflict_ids_clean _ _ Hdoc Hcol); apply dirty_none].
  rewrite (deconflict_ids_collision _ _ Hdoc Hcol). cbn [snd].
  assert (dirty_writes [comments_path] [doc_path] fs
            (write_xml (Some (deconflict_doc doc)) doc_path fs)) as Hfirst.
  { apply (dirty_write _ _ _ _ doc); [done|].
    intros [= Heq]. by apply (deconflict_doc_changes doc). }
  assert (∀ p, p ∈ [doc_path] → p ∈ [doc_path; comments_path]) as Hsub.
  { intros p ->%list_elem_of_singleton. apply list_elem_of_here. }
  destruct (parse_xml fs comments_path) as [cdoc|];
    [case_bool_decide|]; try by apply (dirty_mono _ _ _ _ _ Hsub).
  eapply (dirty_compose _ [doc_path] [comments_path]); [|exact Hfirst|].
  - intros p ->%list_elem_of_singleton ?%list_elem_of_singleton. done.
  - apply exempt_write.
Qed.

Lemma dedup_content_types_writes fs :
  dirty_writes [] [ct_path] fs (dedup_content_types fs).2.
Proof.
  destruct (parse_xml fs ct_path) as [doc|] eqn:Hdoc;
    [|rewrite dedup_content_types_None by done; apply dirty_none].
  rewrite (dedup_content_types_Some _ _ Hdoc). cbv zeta. cbn [snd].
  match goal with |- context [(0 <? ?n)%nat] =>
    destruct (Nat.ltb_spec 0 n) as [Hpos|Hzero] end; [|apply dirty_none].
  apply (dirty_write _ _ _ _ doc); [done|]. by apply ct_after_changes.
Qed.

Lemma dedup_rels_file_writes n fs p :
  dirty_writes [] [p] fs (dedup_rels_file (n, fs) p).2.
Proof.
  unfold dedup_rels_file.
  destruct (parse_xml fs p) as [doc|] eqn:Hdoc; [|apply dirty_none].
  pose proof (dedup_pass_changes type_target "Relationship" doc) as Hch.
  destruct (dedup_pass "Relationship" type_target (Some doc)) as [d k].
  cbn [fst snd] in *.
  destruct (Nat.ltb_spec 0 k); [|apply dirty_none]. cbn [snd].
  apply (dirty_write _ _ _ _ doc); [done|]. by apply Hch.
Qed.

Lemma dedup_rels_fold_writes l :
  NoDup l → ∀ n fs,
  dirty_writes [] l fs (foldl dedup_rels_file (n, fs) l).2.
Proof.
  induction 1 as [|p l Hp Hnd IH]; intros n fs; cbn [foldl].
  - apply dirty_none.
  - pose proof (dedup_rels_file_writes n fs p) as Hstep.
    destruct (dedup_rels_file (n, fs) p) as [n1 fs1]. cbn [snd] in Hstep.
    apply (dirty_compose [] [p] l fs fs1); [|done|apply IH].
    by intros q ->%list_elem_of_singleton.
Qed.

Lemma dedup_relationships_writes fs :
  dirty_writes [] (ct_path :: rels_paths fs) fs (dedup_relationships fs).2.
Proof.
  rewrite dedup_relationships_unfold. cbn [snd]. unfold dedup_rels.
  eapply dirty_mono; cycle 1.
  - apply (dirty_compose [] [ct_path]
             (rels_paths (dedup_content_types fs).2) fs
             (dedup_content_types fs).2).
    + intros p ->%list_elem_of_singleton [Hr _]%elem_of_rels_paths.
      by rewrite is_rels_ct in Hr.
    + apply dedup_content_types_writes.
    + apply dedup_rels_fold_writes, NoDup_rels_paths.
  - intros p [->%list_elem_of_singleton|Hp]%elem_of_app;
      [apply list_elem_of_here|].
    apply list_elem_of_further. revert Hp.
    by rewrite (rels_paths_after_content_types fs).
Qed.

Lemma clean_part_writes path tag orphan n fs :
  dirty_writes [] [path] fs (clean_part path tag orphan (n, fs)).2.
Proof.
  destruct (parse_xml fs path) as [doc|] eqn:Hdoc;
    [|rewrite clean_part_None by done; apply dirty_none].
  rewrite (clean_part_Some _ _ _ _ _ _ Hdoc). cbv zeta.
  match goal with |- context [(0 <? ?k)%nat] =>
    destruct (Nat.ltb_spec 0 k) as [Hpos|Hzero] end; [|apply dirty_none].
  cbn [snd]. apply (dirty_write _ _ _ _ doc); [done|].
  apply remove_changes; [by rewrite length_fmap|done].
Qed.

Lemma clean_orphaned_comments_writes fs :
  dirty_writes [] [ext_path; ids_path; extensible_path] fs
    (clean_orphaned_comments fs).2.
Proof.
  destruct (parse_xml fs comments_path) as [cdoc|] eqn:Hc;
    [|rewrite clean_orphaned_comments_None by done; apply dirty_none].
  rewrite (clean_steps _ _ Hc).
  eapply (dirty_compose [] [ext_path] [ids_path; extensible_path]).
  - intros p ->%list_elem_of_singleton Hp.
    rewrite !elem_of_cons, elem_of_nil in Hp. intuition discriminate.
  - apply clean_part_writes.
  - eapply (dirty_compose [] [ids_path] [extensible_path]).
    + intros p ->%list_elem_of_singleton ?%list_elem_of_singleton. done.
    + apply clean_part_writes.
    + apply clean_part_writes.
Qed.

Lemma fix_xml_space_writes fs :
  dirty_writes [] [doc_path] fs (fix_xml_space fs).2.
Proof.
  unfold fix_xml_space.
  destruct (parse_xml fs doc_path) as [doc|] eqn:Hdoc; [|apply dirty_none].
  destruct (filter _ (get_elements_by_tag doc "w:t")) as [|wt l] eqn:E;
    [apply dirty_none|].
  cbn [length Nat.ltb Nat.leb snd].
  apply (dirty_write _ _ _ _ doc); [done|]. intros [= Heq].
  pose proof (add_preserve_space_marked doc) as Hm. rewrite Heq in Hm.
  apply space_marked_filter in Hm. by rewrite Hm in E.
Qed.

End WriteFacts.


Import Dom Fixup Notions Examples.
Import DomFacts IndexFacts RenumberFacts DeconflictFacts DiskFacts
  DeconflictPhase RemoveFacts RemoveMore DedupFacts DedupPass DedupPhase
  OrphanFacts OrphanPhase SpaceFacts PipelineFacts PyFacts.
Import OrphanMore DedupCount ValidateFacts IdFacts.

(* ===================================================================== *)
(** * The validator's remaining checks and the repair, fact by fact *)
(* ===================================================================== *)

Example check_xml_space_busy :
  Report.check_xml_space busy
  = [Report.xml_space " foo "
       ("w:t with whitespace missing xml:space=" ++ Report.dquote ++ "preserve"
        ++ Report.dquote ++ ": " ++ Report.dquote ++ " foo ..."
        ++ Report.dquote)].
Proof. vm_compute. done. Qed.

Example check_duplicate_entries_busy :
  Report.check_duplicate_entries busy
  = [Report.duplicate_entries "[Content_Types].xml"
       "Duplicate Override for PartName=/word/document.xml";
     Report.duplicate_entries "[Content_Types].xml"
       "Duplicate Default for Extension=xml";
     Report.duplicate_entries "word/_rels/document.xml.rels"
       "Duplicate Relationship Type=t, Target=x"].
Proof. vm_compute. done. Qed.

(** ** The duplicate-entries check and the dedup phase *)

Module ReportFacts.
Import Conditions.

Section duplicates_of.
Context `{Countable K}.
Variables (key : node → K) (report : K → Report.record).

Lemma duplicates_of_length seen els :
  length (Report.duplicates_of key report seen els)
  = count_marked (dup_marks key seen els).
Proof.
  revert seen. induction els as [|x els IH]; intros seen; [done|].
  cbn [Report.duplicates_of dup_marks].
  case_bool_decide; rewrite WriteFacts.count_marked_cons; cbn [length];
    by rewrite IH.
Qed.

Lemma keep_unmarked_all_false {A} (l : list A) marks :
  Forall (λ m, m = false) marks → keep_unmarked l marks = l.
Proof.
  revert marks. induction l as [|x l IH]; intros marks Hm; [done|].
  destruct Hm as [|m marks -> Hm]; simpl; f_equal; apply IH;
    [constructor|done].
Qed.

Lemma dup_free els :
  count_marked (dup_marks key ∅ els) = 0 ↔ NoDup (key <$> els).
Proof.
  split.
  - intros Hz%count_marked_0. pose proof (kept_NoDup key ∅ els) as Hnd.
    by rewrite keep_unmarked_all_false in Hnd.
  - intros Hnd. apply count_marked_0, dup_marks_clean; [|done].
    intros el _. apply not_elem_of_empty.
Qed.

Lemma duplicates_of_nil els :
  Report.duplicates_of key report ∅ els = [] ↔ NoDup (key <$> els).
Proof.
  rewrite <- dup_free, <- duplicates_of_length. split.
  - by intros ->.
  - apply nil_length_inv.
Qed.
End duplicates_of.

Lemma bind_nil_iff {A B} (f : A → list B) (l : list A) :
  l ≫= f = [] ↔ ∀ x, x ∈ l → f x = [].
Proof.
  induction l as [|x l IH]; simpl.
  - split; [by intros _ ? ?%elem_of_nil|done].
  - rewrite app_nil, IH. split.
    + intros [Hx Hl] y [->|Hy]%elem_of_cons; auto.
    + intros Hall. split; [apply Hall, list_elem_of_here|].
      intros y Hy. by apply Hall, list_elem_of_further.
Qed.

Lemma bind_length {A B} (f : A → list B) (l : list A) :
  length (l ≫= f) = sum_list_with (λ x, length (f x)) l.
Proof.
  induction l as [|x l IH]; [done|].
  rewrite bind_cons, length_app, IH. done.
Qed.

Lemma sum_list_with_0 {A} (f : A → nat) (l : list A) :
  sum_list_with f l = 0 ↔ ∀ x, x ∈ l → f x = 0.
Proof.
  induction l as [|x l IH]; simpl.
  - split; [by intros _ ? ?%elem_of_nil|done].
  - split.
    + intros Hs y [->|Hy]%elem_of_cons; [lia|]. apply IH; [lia|done].
    + intros Hall.
      rewrite (Hall x) by apply list_elem_of_here.
      apply IH. intros y Hy. by apply Hall, list_elem_of_further.
Qed.

Lemma validate_parse fs p : Validate.parse_xml fs p = parse_xml fs p.
Proof. done. Qed.

Lemma parse_None_missing fs p :
  Validate.path_exists fs p = false → parse_xml fs p = None.
Proof.
  unfold Validate.path_exists, parse_xml. intros Hn.
  destruct (files fs !! p) as [f|] eqn:E; [|done].
  apply bool_decide_eq_false in Hn. destruct Hn. by eexists.
Qed.

(** The check is silent exactly on packages whose manifests repeat no
    key. *)
Lemma check_duplicate_entries_nil fs :
  Report.check_duplicate_entries fs = [] ↔ duplicate_free fs.
Proof.
  unfold Report.check_duplicate_entries, duplicate_free. cbv zeta.
  rewrite app_nil, bind_nil_iff. apply Morphisms_Prop.and_iff_morphism.
  - change "[Content_Types].xml" with ct_path. rewrite validate_parse.
    destruct (Validate.path_exists fs ct_path) eqn:Hex.
    + destruct (parse_xml fs ct_path) as [doc|]; [|by split].
      rewrite app_nil, !duplicates_of_nil. split.
      * by intros Hnd ? [= <-].
      * intros Hnd. by apply Hnd.
    + rewrite (parse_None_missing _ _ Hex). by split.
  - split.
    + intros Hall p doc Hr Hdoc.
      assert (p ∈ rels_paths fs) as Hp.
      { apply elem_of_rels_paths. split; [done|]. unfold parse_xml in Hdoc.
        destruct (files fs !! p); [by eexists|done]. }
      specialize (Hall p Hp). rewrite validate_parse, Hdoc in Hall.
      by apply duplicates_of_nil in Hall.
    + intros Hall p [Hr _]%elem_of_rels_paths. rewrite validate_parse.
      destruct (parse_xml fs p) as [doc|] eqn:Hdoc; [|done].
      apply duplicates_of_nil. by eapply Hall.
Qed.

(** The dedup phase reports nothing removed exactly on such packages. *)
Lemma dedup_zero fs :
  (dedup_relationships fs).1 = DedupSummary 0 0 → duplicate_free fs.
Proof.
  rewrite dedup_relationships_unfold. cbn [fst]. intros [= Hct Hrels].
  assert ((dedup_content_types fs).2 = fs
          ∧ ∀ doc, parse_xml fs ct_path = Some doc →
              NoDup (part_name <$> get_elements_by_tag doc "Override")
              ∧ NoDup (extension <$> get_elements_by_tag doc "Default"))
    as [Hsame Hnd].
  { destruct (parse_xml fs ct_path) as [doc|] eqn:Hdoc.
    - rewrite (dedup_content_types_Some _ _ Hdoc) in Hct |- *.
      cbv zeta in Hct |- *. cbn [fst snd] in Hct |- *.
      rewrite Hct. split; [done|]. intros ? [= <-].
      assert ((dedup_pass "Override" part_name (Some doc)).2 = 0) as Ho by lia.
      assert ((dedup_pass "Default" extension (ct_after_override doc)).2 = 0)
        as Hd by lia.
      unfold ct_after_override in Hd.
      rewrite (dedup_pass_zero part_name "Override" (Some doc) Ho) in Hd.
      split; [by apply (dup_free part_name)|by apply (dup_free extension)].
    - by rewrite dedup_content_types_None. }
  split; [done|]. intros p doc Hr Hdoc. rewrite Hsame in Hrels.
  rewrite dedup_rels_count, DedupCount.sum_list_fmap in Hrels.
  apply (dup_free type_target).
  assert (rels_removed_in fs p = 0) as Hz.
  { eapply sum_list_with_0; [exact Hrels|].
    apply elem_of_rels_paths. split; [done|]. unfold parse_xml in Hdoc.
    destruct (files fs !! p); [by eexists|done]. }
  unfold rels_removed_in in Hz. by rewrite Hdoc in Hz.
Qed.

Lemma dedup_clean fs :
  duplicate_free fs → dedup_relationships fs = (DedupSummary 0 0, fs).
Proof. intros [Hct Hrels]. by apply dedup_relationships_clean. Qed.

Lemma dedup_duplicate_free fs : duplicate_free (dedup_relationships fs).2.
Proof.
  split.
  - apply dedup_relationships_post_ct.
  - intros p doc Hr. by apply dedup_relationships_post_rels.
Qed.

Lemma main_duplicate_free fs : duplicate_free (main fs).2.
Proof.
  rewrite main_state.
  destruct (dedup_duplicate_free (deconflict_ids fs).2) as [Hct Hrels].
  split.
  - intros doc.
    rewrite (parse_xml_files (clean_orphaned_comments
               (dedup_relationships (deconflict_ids fs).2).2).2)
      by (by apply fix_xml_space_frame).
    rewrite (parse_xml_files (dedup_relationships (deconflict_ids fs).2).2)
      by (by apply clean_frame_any).
    apply Hct.
  - intros p doc Hr.
    assert (p ≠ doc_path ∧ p ≠ ext_path ∧ p ≠ ids_path
            ∧ p ≠ extensible_path) as (? & ? & ? & ?).
    { split_and!; intros ->; by vm_compute in Hr. }
    rewrite (parse_xml_files (clean_orphaned_comments
               (dedup_relationships (deconflict_ids fs).2).2).2)
      by (by apply fix_xml_space_frame).
    rewrite (parse_xml_files (dedup_relationships (deconflict_ids fs).2).2)
      by (by apply clean_frame_any).
    by apply Hrels.
Qed.

(** The counters of the phase against the length of the issue list. *)
Lemma rels_removed_sum fs :
  rels_removed (dedup_relationships fs).1
  = sum_list_with (rels_removed_in fs) (rels_paths fs).
Proof.
  rewrite dedup_relationships_unfold. cbn [fst rels_removed].
  rewrite dedup_rels_count, DedupCount.sum_list_fmap.
  rewrite DedupCount.rels_paths_after_content_types.
  apply DedupCount.sum_list_with_ext_in. intros p [Hr _]%elem_of_rels_paths.
  unfold rels_removed_in. do 2 f_equal.
  apply parse_xml_files, dedup_content_types_frame.
  intros ->. by rewrite is_rels_ct in Hr.
Qed.

Lemma rels_issues_length fs :
  length (rels_paths fs ≫= λ rels_path,
            match Validate.parse_xml fs rels_path with
            | None => []
            | Some doc =>
                Report.duplicates_of type_target
                  (λ key, Report.duplicate_entries rels_path
                            ("Duplicate Relationship Type=" ++ key.1
                             ++ ", Target=" ++ key.2))
                  ∅ (get_elements_by_tag doc "Relationship")
            end)
  = sum_list_with (rels_removed_in fs) (rels_paths fs).
Proof.
  rewrite bind_length. apply DedupCount.sum_list_with_ext_in. intros p _.
  rewrite validate_parse. unfold rels_removed_in, dedup_pass. cbn [snd].
  destruct (parse_xml fs p) as [doc|]; [|done].
  apply duplicates_of_length.
Qed.

Lemma content_types_issues_length fs doc :
  parse_xml fs ct_path = Some doc →
  leaf_entries ["Override"; "Default"] doc →
  content_types_removed (dedup_relationships fs).1
  = count_marked (dup_marks part_name ∅ (get_elements_by_tag doc "Override"))
    + count_marked (dup_marks extension ∅ (get_elements_by_tag doc "Default")).
Proof.
  intros Hdoc Hleaf. rewrite dedup_relationships_unfold.
  cbn [fst content_types_removed].
  rewrite (dedup_content_types_Some _ _ Hdoc). cbv zeta. cbn [fst].
  destruct (DedupFlat.ct_after_flat doc Hleaf) as (_ & Hd & _).
  unfold dedup_pass. cbn [snd]. by rewrite Hd.
Qed.

End ReportFacts.

(** ** The white-space check and the white-space phase *)

Module SpaceCheck.

Lemma check_xml_space_nil fs :
  Report.check_xml_space fs = []
  ↔ ∀ doc, parse_xml fs doc_path = Some doc → space_marked doc.
Proof.
  unfold Report.check_xml_space. rewrite ReportFacts.validate_parse.
  change "word/document.xml" with doc_path.
  destruct (parse_xml fs doc_path) as [doc|]; [|by split].
  split.
  - intros Hm%fmap_nil_inv ? [= <-]. by apply space_marked_filter.
  - intros Hm. specialize (Hm doc eq_refl).
    apply space_marked_filter in Hm. by rewrite Hm.
Qed.

Lemma check_xml_space_length fs :
  length (Report.check_xml_space fs) = (fix_xml_space fs).1.
Proof.
  unfold Report.check_xml_space, fix_xml_space.
  rewrite ReportFacts.validate_parse. change "word/document.xml" with doc_path.
  destruct (parse_xml fs doc_path) as [doc|]; [|done].
  rewrite length_fmap. cbv zeta. by destruct (0 <? _)%nat.
Qed.

Lemma main_space_marked fs doc' :
  parse_xml (main fs).2 doc_path = Some doc' → space_marked doc'.
Proof. rewrite main_state. apply fix_xml_space_post. Qed.

End SpaceCheck.

(** ** The unique-id check *)

Module UniqueIds.
Import Conditions.

(** The value [k] is filed with the tag [t]. *)
Local Abbreviation covered seen k t :=
  (∃ tags : list string, (k, tags) ∈ (seen : list (string * list string))
                         ∧ t ∈ tags).

Lemma setdefault_append_covered seen val tag k t :
  covered (Validate.setdefault_append seen val tag) k t
  ↔ covered seen k t ∨ (k = val ∧ t = tag).
Proof.
  induction seen as [|[k' tags'] seen IH]; simpl.
  - split.
    + intros (tags & [= -> ->]%list_elem_of_singleton
                   & ->%list_elem_of_singleton). auto.
    + intros [(tags & []%elem_of_nil & _)|[-> ->]].
      exists [tag]. split; apply list_elem_of_here.
  - destruct (String.eqb_spec k' val) as [->|Hne].
    + split.
      * intros (tags & [[= -> ->]|Hin]%elem_of_cons & Ht).
        -- apply elem_of_app in Ht as [Ht| ->%list_elem_of_singleton]; [|auto].
           left. exists tags'. split; [apply list_elem_of_here|done].
        -- left. exists tags. split; [by apply list_elem_of_further|done].
      * intros [(tags & [[= -> ->]|Hin]%elem_of_cons & Ht)|[-> ->]].
        -- exists (tags' ++ [tag]). split; [apply list_elem_of_here|].
           apply elem_of_app. by left.
        -- exists tags. split; [by apply list_elem_of_further|done].
        -- exists (tags' ++ [tag]). split; [apply list_elem_of_here|].
           apply elem_of_app. right. apply list_elem_of_here.
    + split.
      * intros (tags & [[= -> ->]|Hin]%elem_of_cons & Ht).
        -- left. eexists. split; [apply list_elem_of_here|done].
        -- assert (covered (Validate.setdefault_append seen val tag) k t)
             as Hc by eauto.
           apply IH in Hc as [(tags0 & Hin0 & Ht0)|?]; [|auto].
           left. exists tags0. split; [by apply list_elem_of_further|done].
      * intros [(tags & [[= -> ->]|Hin]%elem_of_cons & Ht)|[-> ->]].
        -- eexists. split; [apply list_elem_of_here|done].
        -- assert (covered (Validate.setdefault_append seen val tag) k t)
             as (tags0 & Hin0 & Ht0) by (apply IH; eauto).
           exists tags0. split; [by apply list_elem_of_further|done].
        -- assert (covered (Validate.setdefault_append seen val tag) val tag)
             as (tags0 & Hin0 & Ht0) by (apply IH; eauto).
           exists tags0. split; [by apply list_elem_of_further|done].
Qed.

Lemma setdefault_append_NoDup seen val tag :
  NoDup seen.*1 → NoDup (Validate.setdefault_append seen val tag).*1.
Proof.
  induction seen as [|[k' tags'] seen IH]; simpl.
  - intros _. apply NoDup_singleton.
  - intros [Hk Hnd]%NoDup_cons.
    destruct (String.eqb_spec k' val) as [->|Hne]; simpl.
    + by apply NoDup_cons.
    + apply NoDup_cons. split; [|by apply IH].
      rewrite setdefault_append_keys. intros [?|?]; done.
Qed.

Lemma collect_seen_fold doc tags acc :
  let seen :=
    foldl (λ seen tag,
      foldl (λ seen entry,
        let v := getAttribute entry "w:id" in
        if Py.nonempty v then Validate.setdefault_append seen v tag else seen)
        seen (get_elements_by_tag doc tag)) acc tags in
  (NoDup acc.*1 → NoDup seen.*1)
  ∧ ∀ k t, covered seen k t
           ↔ covered acc k t
             ∨ (k ≠ "" ∧ t ∈ tags
                ∧ ∃ entry, entry ∈ get_elements_by_tag doc t
                           ∧ getAttribute entry "w:id" = k).
Proof.
  assert (∀ tag els acc,
    let seen :=
      foldl (λ seen entry,
        let v := getAttribute entry "w:id" in
        if Py.nonempty v then Validate.setdefault_append seen v tag else seen)
        acc els in
    (NoDup acc.*1 → NoDup seen.*1)
    ∧ ∀ k t, covered seen k t
             ↔ covered acc k t
               ∨ (k ≠ "" ∧ t = tag
                  ∧ ∃ entry, entry ∈ els ∧ getAttribute entry "w:id" = k))
    as Hinner.
  { intros tag els. induction els as [|x els IH]; intros acc0; cbn [foldl].
    - cbv zeta. split; [done|]. intros k t. split; [auto|].
      intros [?|(_ & _ & ? & []%elem_of_nil & _)]. done.
    - cbv zeta.
      destruct (Py.nonempty (getAttribute x "w:id")) eqn:E;
        [apply nonempty_true in E|apply nonempty_false in E].
      + destruct (IH (Validate.setdefault_append acc0 (getAttribute x "w:id")
                        tag)) as [Hnd Hcov]. cbv zeta in Hnd, Hcov.
        split.
        * intros H0. by apply Hnd, setdefault_append_NoDup.
        * intros k t. rewrite Hcov, setdefault_append_covered. split.
          -- intros [[?|[-> ->]]|(Hne & -> & q & Hq & Hid)]; auto.
             ++ right. split_and!; [done|done|]. exists x.
                split; [apply list_elem_of_here|done].
             ++ right. split_and!; [done|done|]. exists q.
                split; [by apply list_elem_of_further|done].
          -- intros [?|(Hne & -> & q & [->|Hq]%elem_of_cons & Hid)]; auto.
             right. split_and!; [done|done|]. by exists q.
      + destruct (IH acc0) as [Hnd Hcov]. cbv zeta in Hnd, Hcov.
        split; [done|]. intros k t. rewrite Hcov. split.
        * intros [?|(Hne & -> & q & Hq & Hid)]; auto.
          right. split_and!; [done|done|]. exists q.
          split; [by apply list_elem_of_further|done].
        * intros [?|(Hne & -> & q & [->|Hq]%elem_of_cons & Hid)]; auto.
          -- congruence.
          -- right. split_and!; [done|done|]. by exists q. }
  revert acc. induction tags as [|tag tags IH]; intros acc; cbn [foldl].
  - cbv zeta. split; [done|]. intros k t. split; [auto|].
    intros [?|(_ & []%elem_of_nil & _)]. done.
  - cbv zeta.
    destruct (Hinner tag (get_elements_by_tag doc tag) acc) as [Hnd1 Hcov1].
    cbv zeta in Hnd1, Hcov1.
    destruct (IH (foldl (λ seen entry,
        let v := getAttribute entry "w:id" in
        if Py.nonempty v then Validate.setdefault_append seen v tag else seen)
        acc (get_elements_by_tag doc tag))) as [Hnd Hcov].
    cbv zeta in Hnd, Hcov. split; [auto|].
    intros k t. rewrite Hcov, Hcov1. split.
    + intros [[?|(Hne & -> & q & Hq & Hid)]|(Hne & Ht & q & Hq & Hid)]; auto.
      * right. split_and!; [done|apply list_elem_of_here|eauto].
      * right. split_and!; [done|by apply list_elem_of_further|eauto].
    + intros [?|(Hne & [->|Ht]%elem_of_cons & q & Hq & Hid)]; auto.
      * left. right. split_and!; [done|done|eauto].
      * right. split_and!; [done|done|eauto].
Qed.

(** The validator's index files every non-empty [w:id] text once, with
    the tags of the annotation elements that carry it. *)
Lemma collect_seen_covered doc k t :
  covered (Validate.collect_seen doc) k t
  ↔ k ≠ "" ∧ t ∈ Validate.ANNOTATION_TAGS
    ∧ ∃ entry, entry ∈ get_elements_by_tag doc t
               ∧ getAttribute entry "w:id" = k.
Proof.
  destruct (collect_seen_fold doc Validate.ANNOTATION_TAGS []) as [_ Hcov].
  cbv zeta in Hcov. unfold Validate.collect_seen. rewrite Hcov. split; [|auto].
  intros [(tags & []%elem_of_nil & _)|?]. done.
Qed.

Lemma collect_seen_NoDup doc : NoDup (Validate.collect_seen doc).*1.
Proof.
  destruct (collect_seen_fold doc Validate.ANNOTATION_TAGS []) as [Hnd _].
  apply Hnd. constructor.
Qed.

Lemma NoDup_fst_eq {A B} (l : list (A * B)) x y1 y2 :
  NoDup l.*1 → (x, y1) ∈ l → (x, y2) ∈ l → y1 = y2.
Proof.
  induction l as [|[a b] l IH]; simpl.
  - by intros _ ?%elem_of_nil.
  - intros [Ha Hnd]%NoDup_cons [[= -> ->]|H1]%elem_of_cons
      [[= ->]|H2]%elem_of_cons; auto.
    + destruct Ha. apply list_elem_of_fmap. by exists (a, y2).
    + destruct Ha. apply list_elem_of_fmap. by exists (a, y1).
Qed.

Lemma two_kinds (tags : list string) :
  (1 <? length (Validate.unique_types tags))%nat = true
  ↔ ∃ t1 t2, t1 ∈ tags ∧ t2 ∈ tags
             ∧ Validate.kind_of t1 ≠ Validate.kind_of t2.
Proof.
  unfold Validate.unique_types.
  pose proof (NoDup_remove_dups (Validate.kind_of <$> tags)) as Hnd.
  rewrite Nat.ltb_lt. split.
  - destruct (remove_dups (Validate.kind_of <$> tags)) as [|k1 [|k2 l]] eqn:E;
      simpl; [lia|lia|]. intros _.
    assert (k1 ∈ Validate.kind_of <$> tags) as (t1 & -> & H1)%list_elem_of_fmap.
    { apply elem_of_remove_dups. rewrite E. apply list_elem_of_here. }
    assert (k2 ∈ Validate.kind_of <$> tags) as (t2 & -> & H2)%list_elem_of_fmap.
    { apply elem_of_remove_dups. rewrite E.
      apply list_elem_of_further, list_elem_of_here. }
    exists t1, t2. split_and!; [done|done|].
    apply NoDup_cons in Hnd as [Hnot _]. intros Heq. apply Hnot.
    rewrite Heq. apply list_elem_of_here.
  - intros (t1 & t2 & H1 & H2 & Hne).
    assert (Validate.kind_of t1 ∈ remove_dups (Validate.kind_of <$> tags))
      as Hk1 by (by apply elem_of_remove_dups, list_elem_of_fmap_2).
    assert (Validate.kind_of t2 ∈ remove_dups (Validate.kind_of <$> tags))
      as Hk2 by (by apply elem_of_remove_dups, list_elem_of_fmap_2).
    destruct (remove_dups (Validate.kind_of <$> tags)) as [|k1 [|k2 l]];
      simpl; [by apply elem_of_nil in Hk1| |lia].
    apply list_elem_of_singleton in Hk1, Hk2. congruence.
Qed.

Lemma two_tags (tags : list string) t1 t2 :
  t1 ∈ tags → t2 ∈ tags → t1 ≠ t2 → (1 <? length tags)%nat = true.
Proof.
  intros H1 H2 Hne. apply Nat.ltb_lt.
  destruct tags as [|a [|b l]]; simpl; [by apply elem_of_nil in H1| |lia].
  apply list_elem_of_singleton in H1, H2. congruence.
Qed.

(** What the check reports. *)
Lemma check_unique_ids_spec fs doc val :
  parse_xml fs doc_path = Some doc →
  (∃ tags message,
     Validate.unique_ids val tags message ∈ Validate.check_unique_ids fs)
  ↔ val ≠ "" ∧ same_text_across_kinds doc val.
Proof.
  intros Hdoc. unfold Validate.check_unique_ids.
  change "word/document.xml" with doc_path.
  rewrite ReportFacts.validate_parse, Hdoc. split.
  - intros (tags & message & Hin). apply list_elem_of_bind in Hin
      as ([val' tags'] & Hissue & Hseen).
    destruct (1 <? length tags')%nat eqn:E1; [|by apply elem_of_nil in Hissue].
    destruct (1 <? length (Validate.unique_types tags'))%nat eqn:E2;
      [|by apply elem_of_nil in Hissue].
    apply list_elem_of_singleton in Hissue. injection Hissue as -> -> _.
    apply two_kinds in E2 as (t1 & t2 & H1 & H2 & Hne).
    assert (covered (Validate.collect_seen doc) val' t1) as Hc1 by eauto.
    assert (covered (Validate.collect_seen doc) val' t2) as Hc2 by eauto.
    apply collect_seen_covered in Hc1 as (Hv & Ha1 & e1 & He1 & Hid1).
    apply collect_seen_covered in Hc2 as (_ & Ha2 & e2 & He2 & Hid2).
    apply get_elements_by_tag_spec in He1 as [He1 Ht1].
    apply get_elements_by_tag_spec in He2 as [He2 Ht2].
    split; [done|]. exists e1, e2. rewrite Ht1, Ht2. done.
  - intros (Hv & e1 & e2 & He1 & He2 & Ha1 & Ha2 & Hne & Hid1 & Hid2).
    assert (covered (Validate.collect_seen doc) val (tagName e1))
      as (tags1 & Hin1 & Ht1).
    { apply collect_seen_covered. split_and!; [done|done|].
      exists e1. by rewrite get_elements_by_tag_spec. }
    assert (covered (Validate.collect_seen doc) val (tagName e2))
      as (tags2 & Hin2 & Ht2).
    { apply collect_seen_covered. split_and!; [done|done|].
      exists e2. by rewrite get_elements_by_tag_spec. }
    pose proof (NoDup_fst_eq _ _ _ _ (collect_seen_NoDup doc) Hin1 Hin2) as <-.
    eexists tags1, _. apply list_elem_of_bind. exists (val, tags1).
    split; [|done]. cbv beta iota.
    rewrite (two_tags tags1 (tagName e1) (tagName e2)) by congruence.
    assert ((1 <? length (Validate.unique_types tags1))%nat = true) as ->.
    { apply two_kinds. eauto. }
    apply list_elem_of_here.
Qed.

Lemma kind_of_tags t :
  t ∈ Validate.ANNOTATION_TAGS → t ∈ kind_tags (Validate.kind_of t).
Proof.
  unfold Validate.ANNOTATION_TAGS. rewrite !elem_of_cons, elem_of_nil.
  intros H; repeat (destruct H as [->|H]); try done;
    vm_compute;
    repeat first [apply list_elem_of_here | apply list_elem_of_further].
Qed.

Lemma shared_of_kinds doc i k1 k2 :
  k1 ≠ k2 → i ∈ id_set doc (kind_tags k1) → i ∈ id_set doc (kind_tags k2) →
  shared_across_kinds doc i.
Proof.
  unfold shared_across_kinds.
  destruct k1, k2; simpl; intros Hne H1 H2; try done; tauto.
Qed.

(** A reported id that reads as an integer is an integer two kinds share. *)
Lemma same_text_shared doc val i :
  val ≠ "" → same_text_across_kinds doc val → Py.int val = Some i →
  shared_across_kinds doc i.
Proof.
  intros Hv (e1 & e2 & He1 & He2 & Ha1 & Ha2 & Hne & Hid1 & Hid2) Hi.
  apply (shared_of_kinds doc i _ _ Hne); apply elem_of_id_set.
  - exists e1. split_and!; [done|by apply kind_of_tags|].
    apply IdFacts.w_id_Some. by rewrite Hid1.
  - exists e2. split_and!; [done|by apply kind_of_tags|].
    apply IdFacts.w_id_Some. by rewrite Hid2.
Qed.

End UniqueIds.

(** ** The cross-reference check and the orphan cleaner *)

Module ArtifactCheck.

Lemma elem_of_part_para_ids fs path tag attr pid :
  pid ∈ Validate.part_para_ids fs path tag attr
  ↔ pid ≠ "" ∧ ∃ el, el ∈ doc_elements_by_tag (parse_xml fs path) tag
                     ∧ getAttribute el attr = pid.
Proof.
  unfold Validate.part_para_ids. rewrite ReportFacts.validate_parse.
  destruct (Validate.path_exists fs path) eqn:Hex.
  2:{ rewrite (ReportFacts.parse_None_missing _ _ Hex). simpl.
      rewrite elem_of_empty. split; [done|].
      by intros (_ & el & ?%elem_of_nil & _). }
  destruct (parse_xml fs path) as [doc|]; simpl.
  2:{ rewrite elem_of_empty. split; [done|].
      by intros (_ & el & ?%elem_of_nil & _). }
  generalize (get_elements_by_tag doc tag). intros els.
  assert (∀ acc : gset string,
    pid ∈ foldl (λ ids el,
             let para_id := getAttribute el attr in
             if Py.nonempty para_id then {[para_id]} ∪ ids else ids) acc els
    ↔ pid ∈ acc ∨ (pid ≠ "" ∧ ∃ el, el ∈ els ∧ getAttribute el attr = pid))
    as Hgen.
  { induction els as [|x els IH]; intros acc; cbn [foldl].
    - split; [auto|]. intros [?|(_ & ? & []%elem_of_nil & _)]. done.
    - rewrite IH. cbv zeta.
      destruct (Py.nonempty (getAttribute x attr)) eqn:E;
        [apply nonempty_true in E|apply nonempty_false in E].
      + rewrite elem_of_union, elem_of_singleton. split.
        * intros [[->|?]|(Hne & q & Hq & ?)]; auto.
          -- right. split; [done|]. exists x.
             split; [apply list_elem_of_here|done].
          -- right. split; [done|]. exists q.
             split; [by apply list_elem_of_further|done].
        * intros [?|(Hne & q & [->|Hq]%elem_of_cons & Hid)]; eauto 8.
      + split.
        * intros [?|(Hne & q & Hq & ?)]; auto.
          right. split; [done|]. exists q.
          split; [by apply list_elem_of_further|done].
        * intros [?|(Hne & q & [->|Hq]%elem_of_cons & Hid)]; eauto 8.
          congruence. }
  rewrite Hgen. rewrite elem_of_empty. tauto.
Qed.

Lemma comment_para_ids_valid cdoc :
  Validate.comment_para_ids cdoc = valid_para_ids cdoc.
Proof. done. Qed.

(** With no orphan left in the two paraId-keyed parts, whatever the check
    reports is the paraId of a live comment. *)
Lemma artifacts_of_valid fs cdoc pid message :
  parse_xml fs comments_path = Some cdoc →
  (∀ el, el ∈ doc_elements_by_tag (parse_xml fs ext_path) "w15:commentEx" →
         getAttribute el "w15:paraId" ≠ "" →
         getAttribute el "w15:paraId" ∈ valid_para_ids cdoc) →
  (∀ el, el ∈ doc_elements_by_tag (parse_xml fs ids_path) "w16cid:commentId" →
         getAttribute el "w16cid:paraId" ≠ "" →
         getAttribute el "w16cid:paraId" ∈ valid_para_ids cdoc) →
  Validate.comment_artifacts pid message ∈ Validate.check_comment_artifacts fs →
  pid ∈ valid_para_ids cdoc.
Proof.
  intros Hc Hext Hids. unfold Validate.check_comment_artifacts. cbv zeta.
  change "word/comments.xml" with comments_path.
  change "word/commentsExtended.xml" with ext_path.
  change "word/commentsIds.xml" with ids_path.
  rewrite (parse_exists _ _ _ Hc : Validate.path_exists fs comments_path = true).
  rewrite ReportFacts.validate_parse, Hc. cbn [negb].
  rewrite comment_para_ids_valid, !elem_of_app.
  intros [Hin|[Hin|[Hin|Hin]]].
  - apply list_elem_of_fmap in Hin as (q & [= -> _] & Hq).
    apply elem_of_elements, elem_of_difference in Hq as [Hq Hnot].
    apply elem_of_part_para_ids in Hq as (Hne & el & Hel & <-).
    destruct Hnot. by apply Hext.
  - apply list_elem_of_fmap in Hin as (q & [= -> _] & Hq).
    apply elem_of_elements, elem_of_difference in Hq as [Hq Hnot].
    apply elem_of_part_para_ids in Hq as (Hne & el & Hel & <-).
    destruct Hnot. by apply Hids.
  - destruct (Validate.path_exists fs ext_path); [|by apply elem_of_nil in Hin].
    apply list_elem_of_fmap in Hin as (q & [= -> _] & Hq).
    by apply elem_of_elements, elem_of_difference in Hq as [Hq _].
  - destruct (Validate.path_exists fs ids_path); [|by apply elem_of_nil in Hin].
    apply list_elem_of_fmap in Hin as (q & [= -> _] & Hq).
    by apply elem_of_elements, elem_of_difference in Hq as [Hq _].
Qed.

Lemma clean_artifacts fs cdoc pid message :
  parse_xml fs comments_path = Some cdoc →
  Validate.comment_artifacts pid message
  ∈ Validate.check_comment_artifacts (clean_orphaned_comments fs).2 →
  pid ∈ valid_para_ids cdoc.
Proof.
  intros Hc. destruct (clean_orphan_free_wrt fs cdoc Hc) as (Hext & Hids & _).
  apply artifacts_of_valid; [|done|done].
  rewrite <- Hc. by apply parse_xml_files, clean_frame_any.
Qed.

Lemma main_artifacts fs cdoc pid message :
  parse_xml (main fs).2 comments_path = Some cdoc →
  Validate.comment_artifacts pid message
  ∈ Validate.check_comment_artifacts (main fs).2 →
  pid ∈ valid_para_ids cdoc.
Proof.
  rewrite main_state.
  set (sB := (dedup_relationships (deconflict_ids fs).2).2).
  assert (∀ p, p ≠ doc_path →
            parse_xml (fix_xml_space (clean_orphaned_comments sB).2).2 p
            = parse_xml (clean_orphaned_comments sB).2 p) as Hfix.
  { intros p Hp. by apply parse_xml_files, fix_xml_space_frame. }
  rewrite Hfix by done. intros Hc.
  assert (parse_xml sB comments_path = Some cdoc) as HcB.
  { rewrite <- Hc. symmetry. by apply parse_xml_files, clean_frame_any. }
  destruct (clean_orphan_free_wrt sB cdoc HcB) as (Hext & Hids & _).
  apply artifacts_of_valid.
  - by rewrite Hfix.
  - by rewrite Hfix.
  - by rewrite Hfix.
Qed.

End ArtifactCheck.

(** ** What the counters of the deconfliction pass count *)

Module RenumberCount.
Import Conditions.

Lemma index_step_length tag els (m : gmap Z (list (string * node))) i :
  length (default [] (foldl (index_step tag) m els !! i))
  = length (default [] (m !! i))
    + length (filter (λ el, w_id el = Some i) els).
Proof.
  revert m. induction els as [|x els IH]; intros m; cbn [foldl].
  - simpl. lia.
  - rewrite IH. unfold index_step. rewrite filter_cons.
    destruct (w_id x) as [j|] eqn:Ej.
    + destruct (decide (j = i)) as [->|Hne].
      * rewrite lookup_insert_eq, decide_True by done. cbn [default length].
        unfold id. rewrite length_app. simpl. lia.
      * rewrite lookup_insert_ne by done.
        rewrite decide_False by congruence. done.
    + by rewrite decide_False by done.
Qed.

Lemma collect_w_ids_length doc tags i :
  length (default [] (collect_w_ids doc tags !! i))
  = length (filter (λ el, w_id el = Some i)
              (tags ≫= get_elements_by_tag doc)).
Proof.
  unfold collect_w_ids.
  change (λ (id_map : gmap Z (list (string * node))) (tag : string),
            foldl _ id_map (get_elements_by_tag doc tag))
    with (λ (id_map : gmap Z (list (string * node))) (tag : string),
            foldl (index_step tag) id_map (get_elements_by_tag doc tag)).
  assert (∀ (m : gmap Z (list (string * node))),
    length (default []
      (foldl (λ id_map tag,
         foldl (index_step tag) id_map (get_elements_by_tag doc tag)) m tags
       !! i))
    = length (default [] (m !! i))
      + length (filter (λ el, w_id el = Some i)
                  (tags ≫= get_elements_by_tag doc))) as Hgen.
  { induction tags as [|t tags IH]; intros m; cbn [foldl].
    - simpl. lia.
    - rewrite IH, index_step_length, bind_cons, filter_app, length_app. lia. }
  rewrite Hgen, lookup_empty. done.
Qed.

Lemma renumbered_sum id_map remap :
  renumbered id_map remap
  = sum_list_with (λ i, length (default [] (id_map !! i)))
      (map_to_list remap).*1.
Proof.
  unfold renumbered. induction (map_to_list remap) as [|[i j] l IH]; [done|].
  simpl. by rewrite IH.
Qed.

Local Abbreviation among keys o :=
  (match o with Some i => bool_decide (i ∈ (keys : list Z)) | None => false end).

Lemma count_one (keys : list Z) (o : option Z) :
  NoDup keys →
  sum_list_with (λ i, if decide (o = Some i) then 1 else 0) keys
  = if among keys o then 1 else 0.
Proof.
  destruct o as [i|].
  2:{ intros _. induction keys as [|k keys IH]; [done|].
      cbn [sum_list_with]. rewrite IH. by rewrite decide_False. }
  induction keys as [|k keys IH]; intros Hnd; [done|].
  apply NoDup_cons in Hnd as [Hk Hnd]. cbn [sum_list_with].
  rewrite IH by done.
  destruct (decide (Some i = Some k)) as [[= ->]|Hne].
  - rewrite (bool_decide_eq_true_2 (k ∈ k :: keys)) by apply list_elem_of_here.
    by rewrite (bool_decide_eq_false_2 (k ∈ keys)).
  - destruct (decide (i ∈ keys)) as [Hin|Hnot].
    + rewrite (bool_decide_eq_true_2 (i ∈ keys)) by done.
      by rewrite (bool_decide_eq_true_2 (i ∈ k :: keys))
        by (by apply list_elem_of_further).
    + rewrite (bool_decide_eq_false_2 (i ∈ keys)) by done.
      rewrite (bool_decide_eq_false_2 (i ∈ k :: keys)); [done|].
      intros [->|?]%elem_of_cons; [congruence|done].
Qed.

Lemma count_in_keys (keys : list Z) (els : list node) :
  NoDup keys →
  sum_list_with (λ i, length (filter (λ el, w_id el = Some i) els)) keys
  = length (filter (λ el, among keys (w_id el) = true) els).
Proof.
  intros Hnd. induction els as [|x els IH].
  - simpl. clear Hnd. induction keys as [|k keys IHk]; [done|].
    simpl. apply IHk.
  - rewrite filter_cons.
    assert (sum_list_with
              (λ i, length (filter (λ el, w_id el = Some i) (x :: els))) keys
            = sum_list_with (λ i, if decide (w_id x = Some i) then 1 else 0)
                keys
              + sum_list_with
                  (λ i, length (filter (λ el, w_id el = Some i) els)) keys)
      as ->.
    { clear. induction keys as [|k keys IHk]; [done|]. simpl.
      rewrite IHk, filter_cons. destruct (decide (w_id x = Some k)); simpl; lia. }
    rewrite IH, count_one by done.
    destruct (among keys (w_id x)).
    + rewrite decide_True by done. simpl. lia.
    + rewrite decide_False by done. lia.
Qed.

Lemma filter_by_tags (P : node → Prop) `{∀ el, Decision (P el)}
    (tags : list string) (l : list node) :
  NoDup tags →
  length (filter P (tags ≫= λ t, filter (λ el, tagName el = t) l))
  = length (filter (λ el, tagName el ∈ tags ∧ P el) l).
Proof.
  induction tags as [|t tags IH]; intros Hnd.
  - simpl. symmetry. apply length_zero_iff_nil, elem_of_nil_inv.
    by intros el [[?%elem_of_nil _] _]%list_elem_of_filter.
  - apply NoDup_cons in Hnd as [Ht Hnd].
    rewrite bind_cons, filter_app, length_app, IH by done. clear IH.
    induction l as [|x l IHl]; [done|]. rewrite !filter_cons.
    destruct (decide (tagName x = t)) as [Hx|Hx]; [rewrite filter_cons|];
      repeat case_decide; cbn [length]; try lia; exfalso;
      rewrite ?elem_of_cons in *; intuition congruence.
Qed.

(** The counter of a rewriting loop is the number of elements of the tag
    list whose id the mapping moves. *)
Lemma renumbered_count doc tags remap :
  NoDup tags →
  renumbered (collect_w_ids doc tags) remap
  = length (filter (λ el, tagName el ∈ tags
                          ∧ carries_id_in (dom remap) el = true) (elems doc)).
Proof.
  intros Hnd. rewrite renumbered_sum.
  erewrite DedupCount.sum_list_with_ext_in
    by (intros i _; apply collect_w_ids_length).
  rewrite count_in_keys by apply NoDup_fst_map_to_list.
  unfold get_elements_by_tag.
  rewrite (filter_by_tags _ tags (elems doc) Hnd).
  f_equal. apply list_filter_iff. intros el. unfold carries_id_in.
  apply and_iff_compat_l. destruct (w_id el) as [i|]; [|done].
  rewrite !bool_decide_eq_true, elem_of_dom. split.
  - intros ([i' j] & -> & Hij)%list_elem_of_fmap.
    apply elem_of_map_to_list in Hij. by eexists.
  - intros [j Hj]. apply list_elem_of_fmap. exists (i, j).
    split; [done|]. by apply elem_of_map_to_list.
Qed.

End RenumberCount.

Module DeconflictCount.
Import Conditions.

Section doc.
Variable doc : node.
Local Abbreviation B := (id_set doc BOOKMARK_TAGS).
Local Abbreviation C := (id_set doc COMMENT_DOC_TAGS).
Local Abbreviation H := (id_set doc CHANGE_TAGS).

Lemma carries_comment el :
  el ∈ elems doc → tagName el ∈ COMMENT_DOC_TAGS →
  carries_id_in (dom (comment_id_remap doc).1) el = carries_id_in (B ∪ H) el.
Proof.
  intros Hel Ht. unfold carries_id_in. destruct (w_id el) as [i|] eqn:Ei; [|done].
  assert (i ∈ C) as Hi by (apply elem_of_id_set; eauto).
  apply bool_decide_ext. rewrite elem_of_dom, elem_of_union. split.
  - intros [j Hj]. by apply comment_remap_lookup in Hj as (_ & ? & _).
  - by apply comment_remap_dom.
Qed.

Lemma carries_change el :
  el ∈ elems doc → tagName el ∈ CHANGE_TAGS →
  carries_id_in (dom (change_id_remap doc).1) el = carries_id_in (B ∪ C) el.
Proof.
  intros Hel Ht. unfold carries_id_in. destruct (w_id el) as [i|] eqn:Ei; [|done].
  assert (i ∈ H) as Hi by (apply elem_of_id_set; eauto).
  apply bool_decide_ext. rewrite elem_of_dom, elem_of_union. split.
  - intros [j Hj]. by apply change_remap_lookup in Hj as (_ & ? & _).
  - by apply change_remap_dom.
Qed.

Lemma NoDup_comment_tags : NoDup COMMENT_DOC_TAGS.
Proof. apply (bool_decide_unpack _). by vm_compute. Qed.

Lemma NoDup_change_tags : NoDup CHANGE_TAGS.
Proof. apply (bool_decide_unpack _). by vm_compute. Qed.

Lemma filter_ext_length {A} (P Q : A → Prop) `{∀ x, Decision (P x)}
    `{∀ x, Decision (Q x)} (l : list A) :
  (∀ x, x ∈ l → P x ↔ Q x) → length (filter P l) = length (filter Q l).
Proof.
  induction l as [|x l IH]; intros Hext; [done|]. rewrite !filter_cons.
  assert (length (filter P l) = length (filter Q l)) as Hl.
  { apply IH. intros y Hy. by apply Hext, list_elem_of_further. }
  pose proof (Hext x (list_elem_of_here _ _)) as Hx.
  destruct (decide (P x)), (decide (Q x)); cbn [length]; try lia; tauto.
Qed.

Lemma comments_count :
  renumbered (collect_w_ids doc COMMENT_DOC_TAGS) (comment_id_remap doc).1
  = length (filter (λ el, tagName el ∈ COMMENT_DOC_TAGS
                          ∧ carries_id_in (B ∪ H) el = true) (elems doc)).
Proof.
  rewrite RenumberCount.renumbered_count by apply NoDup_comment_tags.
  apply filter_ext_length. intros el Hel. split; intros [Ht Hc]; (split; [done|]).
  - by rewrite <- carries_comment.
  - by rewrite carries_comment.
Qed.

Lemma changes_count :
  renumbered (collect_w_ids doc CHANGE_TAGS) (change_id_remap doc).1
  = length (filter (λ el, tagName el ∈ CHANGE_TAGS
                          ∧ carries_id_in (B ∪ C) el = true) (elems doc)).
Proof.
  rewrite RenumberCount.renumbered_count by apply NoDup_change_tags.
  apply filter_ext_length. intros el Hel. split; intros [Ht Hc]; (split; [done|]).
  - by rewrite <- carries_change.
  - by rewrite carries_change.
Qed.

(** Without a collision neither filter finds anything. *)
Lemma no_collision_counts :
  has_collision doc = false →
  filter (λ el, tagName el ∈ COMMENT_DOC_TAGS
                ∧ carries_id_in (B ∪ H) el = true) (elems doc) = []
  ∧ filter (λ el, tagName el ∈ CHANGE_TAGS
                  ∧ carries_id_in (B ∪ C) el = true) (elems doc) = [].
Proof.
  intros Hfree. pose proof (proj1 (has_collision_false doc) Hfree) as Hno.
  split; apply elem_of_nil_inv; intros el [[Ht Hc] Hel]%list_elem_of_filter;
    unfold carries_id_in in Hc; destruct (w_id el) as [i|] eqn:Ei; try done;
    apply bool_decide_eq_true, elem_of_union in Hc;
    apply (Hno i); unfold shared_across_kinds.
  - assert (i ∈ C) by (apply elem_of_id_set; eauto). tauto.
  - assert (i ∈ H) by (apply elem_of_id_set; eauto). tauto.
Qed.

(** With a collision at least one of them does. *)
Lemma collision_counts :
  has_collision doc = true →
  0 < length (filter (λ el, tagName el ∈ COMMENT_DOC_TAGS
                            ∧ carries_id_in (B ∪ H) el = true) (elems doc))
      + length (filter (λ el, tagName el ∈ CHANGE_TAGS
                              ∧ carries_id_in (B ∪ C) el = true) (elems doc)).
Proof.
  intros Hcol.
  assert (∃ i, shared_across_kinds doc i) as [i Hi].
  { unfold has_collision in Hcol. cbv zeta in Hcol.
    apply orb_true_iff in Hcol as [Hcol|Hcol];
      [apply orb_true_iff in Hcol as [Hcol|Hcol]|];
      apply bool_decide_eq_true, set_choose_L in Hcol as [i Hi];
      apply elem_of_intersection in Hi; exists i; unfold shared_across_kinds;
      tauto. }
  assert (∀ (P : node → Prop) `{∀ x, Decision (P x)} (l : list node) el,
            el ∈ l → P el → 0 < length (filter P l)) as Hpos.
  { intros P ? l el Hel HP.
    assert (el ∈ filter P l) as Hin by (by apply list_elem_of_filter).
    destruct (filter P l); [by apply elem_of_nil in Hin|simpl; lia]. }
  assert (∀ (tags : list string) (s : gset Z) el,
            el ∈ elems doc → w_id el = Some i → i ∈ s →
            tagName el ∈ tags →
            0 < length (filter (λ el, tagName el ∈ tags
                                      ∧ carries_id_in s el = true) (elems doc)))
    as Hfound.
  { intros tags s el Hel Hid Hs Ht. apply (Hpos _ _ _ el Hel). split; [done|].
    unfold carries_id_in. rewrite Hid. by apply bool_decide_eq_true. }
  destruct Hi as [[Hb Hc]|[[Hb Hh]|[Hc Hh]]].
  - apply elem_of_id_set in Hc as (el & Hel & Ht & Hid).
    pose proof (Hfound COMMENT_DOC_TAGS (B ∪ H) el Hel Hid) as Hp.
    rewrite elem_of_union in Hp. specialize (Hp (or_introl Hb) Ht). lia.
  - apply elem_of_id_set in Hh as (el & Hel & Ht & Hid).
    pose proof (Hfound CHANGE_TAGS (B ∪ C) el Hel Hid) as Hp.
    rewrite elem_of_union in Hp. specialize (Hp (or_introl Hb) Ht). lia.
  - apply elem_of_id_set in Hc as (el & Hel & Ht & Hid).
    pose proof (Hfound COMMENT_DOC_TAGS (B ∪ H) el Hel Hid) as Hp.
    rewrite elem_of_union in Hp. specialize (Hp (or_intror Hh) Ht). lia.
Qed.
End doc.

End DeconflictCount.

(** ** What the rewriting loops do to one element *)

Module Rewritten.
Import Conditions.

Lemma build_remap_inj_fold (ids : list Z) (collides : Z → bool)
    (m0 : gmap Z Z) (n0 : Z) :
  (∀ i j, m0 !! i = Some j → (j < n0)%Z) →
  (∀ i1 i2 j, m0 !! i1 = Some j → m0 !! i2 = Some j → i1 = i2) →
  let r := foldl (λ '(remap, next_id) old_id,
                    if collides old_id
                    then (<[old_id := next_id]> remap, (next_id + 1)%Z)
                    else (remap, next_id)) (m0, n0) ids in
  ∀ i1 i2 j, r.1 !! i1 = Some j → r.1 !! i2 = Some j → i1 = i2.
Proof.
  revert m0 n0. induction ids as [|x ids IH]; intros m0 n0 Hlt Hinj;
    cbn [foldl]; [done|].
  destruct (collides x); [|by apply IH].
  apply IH.
  - intros i j. destruct (decide (x = i)) as [->|Hne].
    + rewrite lookup_insert_eq. intros [= <-]. lia.
    + rewrite lookup_insert_ne by done. intros Hj%Hlt. lia.
  - intros i1 i2 j.
    destruct (decide (i1 = x)) as [->|H1], (decide (i2 = x)) as [->|H2];
      rewrite ?lookup_insert_eq, ?lookup_insert_ne by done; try done.
    + intros [= <-] Hj%Hlt. lia.
    + intros Hj%Hlt [= <-]. lia.
    + apply Hinj.
Qed.

Lemma build_remap_inj ids collides next_id i1 i2 j :
  (build_remap ids collides next_id).1 !! i1 = Some j →
  (build_remap ids collides next_id).1 !! i2 = Some j → i1 = i2.
Proof.
  apply (build_remap_inj_fold ids collides ∅ next_id).
  - intros i j'. by rewrite lookup_empty.
  - intros ? ? j'. by rewrite lookup_empty.
Qed.

Lemma map_elems_id update n :
  (∀ el, attributes (update el) = attributes el) → map_elems update n = n.
Proof.
  intros Hid. induction n as [t a cs IH| |] using node_rect'; try done.
  cbn [map_elems]. rewrite Hid. cbn [attributes]. f_equal.
  induction cs as [|c cs IHcs]; [done|].
  inversion IH as [|? ? Hc Hcs]; subst. rewrite fmap_cons, Hc. f_equal.
  by apply IHcs.
Qed.

Lemma renumber_empty tags n : renumber tags ∅ n = n.
Proof.
  apply map_elems_id. intros el. unfold renumber_el.
  case_bool_decide; [|done]. destruct (w_id el); [|done].
  by rewrite lookup_empty.
Qed.

Section doc.
Variable doc : node.
Local Abbreviation B := (id_set doc BOOKMARK_TAGS).
Local Abbreviation C := (id_set doc COMMENT_DOC_TAGS).
Local Abbreviation H := (id_set doc CHANGE_TAGS).
Local Abbreviation cr := ((comment_id_remap doc).1).
Local Abbreviation hr := ((change_id_remap doc).1).

Lemma deconflict_doc_rewritten : deconflict_doc doc = rewritten doc doc.
Proof. done. Qed.

Lemma elems_deconflict_doc :
  elems (deconflict_doc doc) = rewritten doc <$> elems doc.
Proof.
  unfold deconflict_doc, rewritten, renumber. rewrite !elems_map_elems.
  by rewrite <- list_fmap_compose.
Qed.

Lemma rewritten_tagName el : tagName (rewritten doc el) = tagName el.
Proof. unfold rewritten, renumber. by rewrite !map_elems_tagName. Qed.

Lemma rewritten_is_elem el : is_elem (rewritten doc el) = is_elem el.
Proof. by destruct el. Qed.

Lemma rewritten_text el : text_of (rewritten doc el) = text_of el.
Proof. unfold rewritten, renumber. by rewrite !text_of_map_elems. Qed.

Lemma renumber_other_attr tags remap el name :
  is_elem el = true → name ≠ "w:id" →
  getAttribute (renumber tags remap el) name = getAttribute el name.
Proof.
  intros Hel Hname. unfold getAttribute, renumber.
  rewrite map_elems_attributes by done. unfold renumber_el.
  case_bool_decide; [|done]. destruct (w_id el); [|done].
  destruct (remap !! z); [|done]. destruct el as [t a cs| |]; try done.
  cbn [setAttribute attributes]. by apply attr_lookup_update_ne.
Qed.

Lemma rewritten_other_attr el name :
  is_elem el = true → name ≠ "w:id" →
  getAttribute (rewritten doc el) name = getAttribute el name.
Proof.
  intros Hel Hname. unfold rewritten.
  rewrite renumber_other_attr by (by rewrite ?IdFacts.renumber_is_elem).
  by apply renumber_other_attr.
Qed.

Lemma renumber_foreign tags remap el :
  is_elem el = true → tagName el ∉ tags →
  attributes (renumber tags remap el) = attributes el.
Proof.
  intros Hel Ht. unfold renumber. rewrite map_elems_attributes by done.
  unfold renumber_el. by rewrite bool_decide_eq_false_2.
Qed.

Lemma rewritten_foreign el :
  is_elem el = true → tagName el ∉ COMMENT_DOC_TAGS → tagName el ∉ CHANGE_TAGS →
  attributes (rewritten doc el) = attributes el.
Proof.
  intros Hel Hc Hh. unfold rewritten.
  rewrite renumber_foreign; [by apply renumber_foreign| |].
  - by rewrite IdFacts.renumber_is_elem.
  - unfold renumber. by rewrite map_elems_tagName.
Qed.

Lemma w_id_rewritten el :
  is_elem el = true →
  w_id (rewritten doc el)
  = if decide (tagName el ∈ COMMENT_DOC_TAGS) then apply_remap cr <$> w_id el
    else if decide (tagName el ∈ CHANGE_TAGS) then apply_remap hr <$> w_id el
    else w_id el.
Proof.
  intros Hel. unfold rewritten.
  rewrite w_id_renumber by (by rewrite IdFacts.renumber_is_elem).
  assert (tagName (renumber COMMENT_DOC_TAGS cr el) = tagName el) as ->
    by apply map_elems_tagName.
  rewrite w_id_renumber by done.
  destruct (decide (tagName el ∈ COMMENT_DOC_TAGS)) as [Hc|Hc].
  - by rewrite decide_False by (by apply comment_not_change).
  - done.
Qed.

(** The new identifier of an annotation element, by cases. *)
Lemma rewritten_cases el i :
  el ∈ elems doc → w_id el = Some i →
  tagName el ∈ BOOKMARK_TAGS ∨ tagName el ∈ COMMENT_DOC_TAGS
  ∨ tagName el ∈ CHANGE_TAGS →
  let M := set_max (id_set doc
             (BOOKMARK_TAGS ++ COMMENT_DOC_TAGS ++ CHANGE_TAGS)) in
  (w_id (rewritten doc el) = Some i ∧ (i ≤ M)%Z)
  ∨ (tagName el ∈ COMMENT_DOC_TAGS
     ∧ ∃ j, cr !! i = Some j ∧ w_id (rewritten doc el) = Some j
            ∧ (M < j < (comment_id_remap doc).2)%Z)
  ∨ (tagName el ∈ CHANGE_TAGS
     ∧ ∃ j, hr !! i = Some j ∧ w_id (rewritten doc el) = Some j
            ∧ ((comment_id_remap doc).2 ≤ j)%Z).
Proof.
  intros Hel Hid Ht. cbv zeta.
  pose proof (elems_is_elem _ _ Hel) as Helem.
  assert (i ≤ set_max (id_set doc
            (BOOKMARK_TAGS ++ COMMENT_DOC_TAGS ++ CHANGE_TAGS)))%Z as Hmax.
  { apply id_le_max. rewrite !elem_of_id_set.
    destruct Ht as [?|[?|?]]; eauto 10. }
  rewrite w_id_rewritten, Hid by done.
  destruct (decide (tagName el ∈ COMMENT_DOC_TAGS)) as [Hc|Hc].
  - unfold apply_remap. simpl. destruct (cr !! i) as [j|] eqn:Ej; simpl.
    + right. left. split; [done|]. exists j. split; [done|]. split; [done|].
      by apply comment_remap_lookup in Ej as (_ & _ & ?).
    + by left.
  - destruct (decide (tagName el ∈ CHANGE_TAGS)) as [Hh|Hh]; [|by left].
    unfold apply_remap. simpl. destruct (hr !! i) as [j|] eqn:Ej; simpl.
    + right. right. split; [done|]. exists j. split; [done|]. split; [done|].
      by apply change_remap_lookup in Ej as (_ & _ & ?).
    + by left.
Qed.

Lemma comment_remap_moves i :
  i ∈ C → apply_remap cr i ≠ i ↔ is_Some (cr !! i).
Proof.
  intros Hi. unfold apply_remap. destruct (cr !! i) as [j|] eqn:Ej; simpl.
  - split; [eauto|]. intros _ ->.
    apply comment_remap_lookup in Ej as (_ & _ & Hj).
    pose proof (id_le_max doc i). intuition lia.
  - split; [done|]. by intros [? ?].
Qed.

Lemma change_remap_moves i :
  i ∈ H → apply_remap hr i ≠ i ↔ is_Some (hr !! i).
Proof.
  intros Hi. unfold apply_remap. destruct (hr !! i) as [j|] eqn:Ej; simpl.
  - split; [eauto|]. intros _ ->.
    apply change_remap_lookup in Ej as (_ & _ & Hj).
    pose proof (comment_remap_counter doc).
    pose proof (id_le_max doc i). intuition lia.
  - split; [done|]. by intros [? ?].
Qed.

(** An element's identifier moves exactly when its kind is renumbered and
    its identifier collides. *)
Lemma rewritten_moves el :
  el ∈ elems doc →
  w_id (rewritten doc el) ≠ w_id el
  ↔ (tagName el ∈ COMMENT_DOC_TAGS ∧ carries_id_in (B ∪ H) el = true)
    ∨ (tagName el ∈ CHANGE_TAGS ∧ carries_id_in (B ∪ C) el = true).
Proof.
  intros Hel. pose proof (elems_is_elem _ _ Hel) as Helem.
  rewrite w_id_rewritten by done.
  destruct (decide (tagName el ∈ COMMENT_DOC_TAGS)) as [Hc|Hc].
  - rewrite <- (DeconflictCount.carries_comment doc el Hel Hc).
    pose proof (comment_not_change _ Hc) as Hnh.
    unfold carries_id_in. destruct (w_id el) as [i|] eqn:Hid; simpl.
    + assert (i ∈ C) as Hi by (apply elem_of_id_set; eauto).
      pose proof (comment_remap_moves i Hi) as Hmv. split.
      * intros Hne. left. split; [done|].
        apply bool_decide_eq_true, elem_of_dom, Hmv. congruence.
      * intros [[_ Hin]|[? _]]; [|done].
        apply bool_decide_eq_true, elem_of_dom, Hmv in Hin. congruence.
    + split; [done|]. intros [[_ ?]|[? _]]; done.
  - destruct (decide (tagName el ∈ CHANGE_TAGS)) as [Hh|Hh].
    + rewrite <- (DeconflictCount.carries_change doc el Hel Hh).
      unfold carries_id_in. destruct (w_id el) as [i|] eqn:Hid; simpl.
      * assert (i ∈ H) as Hi by (apply elem_of_id_set; eauto).
        pose proof (change_remap_moves i Hi) as Hmv. split.
        -- intros Hne. right. split; [done|].
           apply bool_decide_eq_true, elem_of_dom, Hmv. congruence.
        -- intros [[? _]|[_ Hin]]; [done|].
           apply bool_decide_eq_true, elem_of_dom, Hmv in Hin. congruence.
      * split; [done|]. intros [[? _]|[_ ?]]; done.
    + split; [done|]. intros [[? _]|[? _]]; done.
Qed.
End doc.

End Rewritten.

Module Apart.
Import Conditions.

Lemma kind_tags_cases k t :
  t ∈ kind_tags k →
  t ∈ BOOKMARK_TAGS ∨ t ∈ COMMENT_DOC_TAGS ∨ t ∈ CHANGE_TAGS.
Proof. destruct k; simpl; auto. Qed.

Lemma kind_tags_disjoint k1 k2 t : t ∈ kind_tags k1 → t ∈ kind_tags k2 → k1 = k2.
Proof.
  destruct k1, k2; simpl; intros H1 H2; try done; exfalso.
  - by apply bookmark_not_comment in H1.
  - by apply bookmark_not_change in H1.
  - by apply bookmark_not_comment in H2.
  - by apply comment_not_change in H1.
  - by apply bookmark_not_change in H2.
  - by apply comment_not_change in H2.
Qed.

(** Annotation elements with different identifiers keep different
    identifiers. *)
Lemma rewritten_apart doc e1 e2 i1 i2 :
  e1 ∈ elems doc → e2 ∈ elems doc →
  tagName e1 ∈ BOOKMARK_TAGS ∨ tagName e1 ∈ COMMENT_DOC_TAGS
  ∨ tagName e1 ∈ CHANGE_TAGS →
  tagName e2 ∈ BOOKMARK_TAGS ∨ tagName e2 ∈ COMMENT_DOC_TAGS
  ∨ tagName e2 ∈ CHANGE_TAGS →
  w_id e1 = Some i1 → w_id e2 = Some i2 → i1 ≠ i2 →
  w_id (rewritten doc e1) ≠ w_id (rewritten doc e2).
Proof.
  intros He1 He2 Ht1 Ht2 Hid1 Hid2 Hne.
  pose proof (comment_remap_counter doc) as Hcnt.
  destruct (Rewritten.rewritten_cases doc e1 i1 He1 Hid1 Ht1)
    as [[-> Hm1]|[(_ & j1 & Hj1 & -> & Hr1)|(_ & j1 & Hj1 & -> & Hr1)]];
    destruct (Rewritten.rewritten_cases doc e2 i2 He2 Hid2 Ht2)
      as [[-> Hm2]|[(_ & j2 & Hj2 & -> & Hr2)|(_ & j2 & Hj2 & -> & Hr2)]];
    intros [= Heq]; try lia.
  - subst j2. apply Hne. unfold comment_id_remap in Hj1, Hj2.
    by eapply Rewritten.build_remap_inj.
  - subst j2. apply Hne. unfold change_id_remap in Hj1, Hj2.
    by eapply Rewritten.build_remap_inj.
Qed.

(** Elements of one kind with the same identifier keep the same
    identifier. *)
Lemma rewritten_together doc k e1 e2 :
  is_elem e1 = true → is_elem e2 = true →
  tagName e1 ∈ kind_tags k → tagName e2 ∈ kind_tags k →
  w_id e1 = w_id e2 →
  w_id (rewritten doc e1) = w_id (rewritten doc e2).
Proof.
  intros He1 He2 Ht1 Ht2 Hid. rewrite !Rewritten.w_id_rewritten by done.
  rewrite Hid. destruct k; simpl in Ht1, Ht2.
  - rewrite !decide_False; try done;
      auto using bookmark_not_comment, bookmark_not_change.
  - by rewrite !decide_True.
  - rewrite (decide_False (P:=tagName e1 ∈ COMMENT_DOC_TAGS))
      by (by apply change_not_comment).
    rewrite (decide_False (P:=tagName e2 ∈ COMMENT_DOC_TAGS))
      by (by apply change_not_comment).
    by rewrite !decide_True.
Qed.

End Apart.

(** ** Counters and writes *)

Module Counted.
Import Conditions.

Lemma counted_zero fs : counted 0 fs fs.
Proof. by left. Qed.

Lemma counted_write n doc p fs :
  0 < n → counted n fs (write_xml doc p fs).
Proof.
  intros Hn. right. split; [done|]. rewrite written_write, length_app.
  simpl. lia.
Qed.

Lemma counted_trans n m a b c :
  counted n a b → counted m b c → counted (n + m) a c.
Proof.
  intros [[-> ->]|[Hn Hab]] [[-> ->]|[Hm Hbc]].
  - by left.
  - right. split; [lia|done].
  - right. split; [lia|done].
  - right. split; [lia|lia].
Qed.

Lemma deconflict_counted fs :
  counted (comments_renumbered (deconflict_ids fs).1
           + changes_renumbered (deconflict_ids fs).1)
    fs (deconflict_ids fs).2.
Proof.
  destruct (parse_xml fs doc_path) as [doc|] eqn:Hdoc;
    [|rewrite deconflict_ids_None by done; apply counted_zero].
  destruct (has_collision doc) eqn:Hcol;
    [|rewrite (deconflict_ids_clean _ _ Hdoc Hcol); apply counted_zero].
  rewrite (deconflict_ids_collision _ _ Hdoc Hcol). cbn [fst snd].
  cbn [comments_renumbered changes_renumbered].
  rewrite DeconflictCount.comments_count, DeconflictCount.changes_count.
  pose proof (DeconflictCount.collision_counts doc Hcol) as Hpos.
  right. split; [done|].
  destruct (parse_xml fs comments_path) as [cdoc|]; [case_bool_decide|];
    rewrite !written_write, ?length_app; simpl; lia.
Qed.

Lemma dedup_content_types_counted fs :
  counted (dedup_content_types fs).1 fs (dedup_content_types fs).2.
Proof.
  destruct (parse_xml fs ct_path) as [doc|] eqn:Hdoc;
    [|rewrite dedup_content_types_None by done; apply counted_zero].
  rewrite (dedup_content_types_Some _ _ Hdoc). cbv zeta. cbn [fst snd].
  destruct (0 <? _)%nat eqn:E.
  - apply counted_write. by apply Nat.ltb_lt.
  - apply Nat.ltb_ge in E. left. split; [lia|done].
Qed.

Lemma dedup_rels_file_counted n fs p :
  ∃ k, (dedup_rels_file (n, fs) p).1 = n + k
       ∧ counted k fs (dedup_rels_file (n, fs) p).2.
Proof.
  unfold dedup_rels_file.
  destruct (parse_xml fs p) as [doc|];
    [|exists 0; split; [simpl; lia|apply counted_zero]].
  destruct (dedup_pass "Relationship" type_target (Some doc)) as [doc' removed].
  destruct (0 <? removed)%nat eqn:E.
  - exists removed. split; [done|]. apply counted_write. by apply Nat.ltb_lt.
  - exists 0. split; [simpl; lia|apply counted_zero].
Qed.

Lemma dedup_rels_fold_counted l n fs :
  ∃ k, (foldl dedup_rels_file (n, fs) l).1 = n + k
       ∧ counted k fs (foldl dedup_rels_file (n, fs) l).2.
Proof.
  revert n fs. induction l as [|p l IH]; intros n fs; cbn [foldl].
  - exists 0. split; [simpl; lia|apply counted_zero].
  - destruct (dedup_rels_file_counted n fs p) as (k1 & Hk1 & Hc1).
    destruct (dedup_rels_file (n, fs) p) as [n1 fs1]. cbn [fst snd] in *.
    destruct (IH n1 fs1) as (k2 & Hk2 & Hc2).
    exists (k1 + k2). split; [lia|]. by eapply counted_trans.
Qed.

Lemma dedup_counted fs :
  counted (content_types_removed (dedup_relationships fs).1
           + rels_removed (dedup_relationships fs).1)
    fs (dedup_relationships fs).2.
Proof.
  rewrite dedup_relationships_unfold.
  cbn [fst snd content_types_removed rels_removed].
  eapply counted_trans; [apply dedup_content_types_counted|].
  unfold dedup_rels.
  destruct (dedup_rels_fold_counted (rels_paths (dedup_content_types fs).2)
              0 (dedup_content_types fs).2) as (k & Hk & Hc).
  rewrite Hk. exact Hc.
Qed.

Lemma clean_part_counted path tag orphan n fs :
  ∃ k, (clean_part path tag orphan (n, fs)).1 = n + k
       ∧ counted k fs (clean_part path tag orphan (n, fs)).2.
Proof.
  unfold clean_part.
  destruct (path_exists fs path);
    [|exists 0; split; [simpl; lia|apply counted_zero]].
  destruct (parse_xml fs path) as [doc|];
    [|exists 0; split; [simpl; lia|apply counted_zero]].
  cbv zeta. destruct (0 <? _)%nat eqn:E.
  - eexists. split; [done|]. apply counted_write. by apply Nat.ltb_lt.
  - exists 0. split; [simpl; lia|apply counted_zero].
Qed.

Lemma clean_counted fs :
  counted (clean_orphaned_comments fs).1 fs (clean_orphaned_comments fs).2.
Proof.
  destruct (parse_xml fs comments_path) as [cdoc|] eqn:Hc;
    [|rewrite clean_orphaned_comments_None by done; apply counted_zero].
  rewrite (clean_orphaned_comments_Some _ _ Hc). cbv zeta.
  destruct (clean_part_counted ext_path "w15:commentEx"
              (orphan_para "w15:paraId" (valid_para_ids cdoc)) 0 fs)
    as (k1 & Hk1 & Hc1).
  destruct (clean_part ext_path "w15:commentEx" _ (0, fs)) as [n1 fs1].
  cbn [fst snd] in *.
  destruct (clean_part_counted ids_path "w16cid:commentId"
              (orphan_para "w16cid:paraId" (valid_para_ids cdoc)) n1 fs1)
    as (k2 & Hk2 & Hc2).
  destruct (clean_part ids_path "w16cid:commentId" _ (n1, fs1)) as [n2 fs2].
  cbn [fst snd] in *.
  destruct (clean_part_counted extensible_path "w16cex:commentExtensible"
              (orphan_durable (ext_durable_ids (valid_para_ids cdoc) fs))
              n2 fs2) as (k3 & Hk3 & Hc3).
  subst n1 n2. rewrite Hk3.
  replace (0 + k1 + k2 + k3) with (k1 + (k2 + k3)) by lia.
  eapply counted_trans; [exact Hc1|]. eapply counted_trans; [exact Hc2|done].
Qed.

Lemma fix_counted fs :
  counted (fix_xml_space fs).1 fs (fix_xml_space fs).2.
Proof.
  unfold fix_xml_space.
  destruct (parse_xml fs doc_path) as [doc|]; [|apply counted_zero].
  cbv zeta. destruct (0 <? _)%nat eqn:E; cbn [fst snd].
  - apply counted_write. by apply Nat.ltb_lt.
  - apply Nat.ltb_ge in E. left. split; [lia|done].
Qed.

Lemma main_counted fs : counted (total_changes (main fs).1) fs (main fs).2.
Proof.
  rewrite main_unfold. cbv zeta. cbn [fst snd total_changes].
  pose proof (deconflict_counted fs) as HA.
  pose proof (dedup_counted (deconflict_ids fs).2) as HB.
  pose proof (clean_counted (dedup_relationships (deconflict_ids fs).2).2)
    as HC.
  pose proof (fix_counted
    (clean_orphaned_comments
       (dedup_relationships (deconflict_ids fs).2).2).2) as HD.
  pose proof (counted_trans _ _ _ _ _ HA
                (counted_trans _ _ _ _ _ HB
                   (counted_trans _ _ _ _ _ HC HD))) as Hall.
  match goal with
  | H : counted ?n _ _ |- counted ?m _ _ => replace m with n by lia
  end.
  exact Hall.
Qed.

End Counted.

(** ** Running a phase again *)

Module Again.
Import Conditions.

Lemma deconflict_ids_again fs :
  deconflict_ids (deconflict_ids fs).2 = (IdSummary 0 0, (deconflict_ids fs).2).
Proof.
  destruct (parse_xml (deconflict_ids fs).2 doc_path) as [doc'|] eqn:Hdoc'.
  - apply (deconflict_ids_clean _ doc' Hdoc'), has_collision_false.
    by eapply deconflict_ids_post.
  - by apply deconflict_ids_None.
Qed.

Lemma fix_xml_space_again fs :
  fix_xml_space (fix_xml_space fs).2 = (0, (fix_xml_space fs).2).
Proof.
  destruct (parse_xml (fix_xml_space fs).2 doc_path) as [doc'|] eqn:Hdoc'.
  - apply (fix_xml_space_clean _ doc' Hdoc'). by eapply fix_xml_space_post.
  - by apply fix_xml_space_None.
Qed.

Lemma dedup_relationships_again fs :
  dedup_relationships (dedup_relationships fs).2
  = (DedupSummary 0 0, (dedup_relationships fs).2).
Proof. apply ReportFacts.dedup_clean, ReportFacts.dedup_duplicate_free. Qed.

Lemma clean_orphaned_comments_again fs :
  flat_comments_extended fs →
  clean_orphaned_comments (clean_orphaned_comments fs).2
  = (0, (clean_orphaned_comments fs).2).
Proof.
  intros Hflat. apply clean_orphaned_comments_clean, clean_orphan_free.
  intros doc Hdoc. unfold flat_comments_extended in Hflat.
  by rewrite Hdoc in Hflat.
Qed.

End Again.

(** ** What the white-space phase does to one element *)

Module Preserve.

Lemma add_preserve_tagName el : tagName (add_preserve el) = tagName el.
Proof. apply map_elems_tagName. Qed.

Lemma add_preserve_text el : text_of (add_preserve el) = text_of el.
Proof. apply text_of_map_elems. Qed.

Lemma add_preserve_attributes el :
  is_elem el = true →
  attributes (add_preserve el) = attributes (add_preserve_el el).
Proof. apply map_elems_attributes. Qed.

Lemma add_preserve_other_attr el name :
  is_elem el = true → name ≠ "xml:space" →
  getAttribute (add_preserve el) name = getAttribute el name.
Proof.
  intros Hel Hname. unfold getAttribute. rewrite add_preserve_attributes by done.
  unfold add_preserve_el.
  destruct (bool_decide (tagName el = "w:t") && lacks_preserve el); [|done].
  destruct el as [t a cs| |]; try done. cbn [setAttribute attributes].
  by apply attr_lookup_update_ne.
Qed.

Lemma add_preserve_kept el :
  is_elem el = true →
  tagName el ≠ "w:t" ∨ lacks_preserve el = false →
  attributes (add_preserve el) = attributes el.
Proof.
  intros Hel Hcase. rewrite add_preserve_attributes by done.
  unfold add_preserve_el. destruct Hcase as [Ht| ->].
  - by rewrite bool_decide_eq_false_2.
  - by rewrite andb_false_r.
Qed.

Lemma lacks_preserve_attr el :
  getAttribute el "xml:space" ≠ "" → lacks_preserve el = false.
Proof.
  intros Hattr%nonempty_true. unfold lacks_preserve. rewrite Hattr.
  apply andb_false_r.
Qed.

Lemma add_preserve_marked el :
  is_elem el = true → tagName el = "w:t" → lacks_preserve el = true →
  getAttribute (add_preserve el) "xml:space" = "preserve".
Proof.
  intros Hel Ht Hl. unfold getAttribute. rewrite add_preserve_attributes by done.
  unfold add_preserve_el. rewrite Hl, bool_decide_eq_true_2 by done.
  destruct el as [t a cs| |]; try done. cbn [andb setAttribute attributes].
  apply attr_lookup_update_eq.
Qed.

End Preserve.

(** ** Comment markup through the pipeline *)

Module Markup.
Import Conditions.




Section doc.
Variable doc : node.
Local Abbreviation cr := ((comment_id_remap doc).1).




End doc.






End Markup.

(** ** The identifier index, entry by entry *)

Module IndexEntries.
Import Conditions.

Lemma index_step_entries_list tag els (m : gmap Z (list (string * node))) i :
  default [] (foldl (index_step tag) m els !! i)
  = default [] (m !! i)
    ++ ((λ el, (tag, el)) <$> filter (λ el, w_id el = Some i) els).
Proof.
  revert m. induction els as [|x els IH]; intros m; cbn [foldl].
  - simpl. by rewrite app_nil_r.
  - rewrite IH. unfold index_step. rewrite filter_cons.
    destruct (w_id x) as [j|] eqn:Ej.
    + destruct (decide (j = i)) as [->|Hne].
      * rewrite lookup_insert_eq, decide_True by done. cbn [default].
        unfold id. by rewrite fmap_cons, <- app_assoc.
      * rewrite lookup_insert_ne by done.
        by rewrite decide_False by congruence.
    + by rewrite decide_False by done.
Qed.

Lemma collect_w_ids_entries_list doc tags i :
  default [] (collect_w_ids doc tags !! i)
  = tags ≫= λ tag,
      (λ el, (tag, el))
      <$> filter (λ el, w_id el = Some i) (get_elements_by_tag doc tag).
Proof.
  unfold collect_w_ids.
  change (λ (id_map : gmap Z (list (string * node))) (tag : string),
            foldl _ id_map (get_elements_by_tag doc tag))
    with (λ (id_map : gmap Z (list (string * node))) (tag : string),
            foldl (index_step tag) id_map (get_elements_by_tag doc tag)).
  assert (∀ (m : gmap Z (list (string * node))),
    default []
      (foldl (λ id_map tag,
         foldl (index_step tag) id_map (get_elements_by_tag doc tag)) m tags
       !! i)
    = default [] (m !! i)
      ++ (tags ≫= λ tag,
            (λ el, (tag, el))
            <$> filter (λ el, w_id el = Some i) (get_elements_by_tag doc tag)))
    as Hgen.
  { induction tags as [|t tags IH]; intros m; cbn [foldl].
    - simpl. by rewrite app_nil_r.
    - by rewrite IH, index_step_entries_list, bind_cons, app_assoc. }
  by rewrite Hgen, lookup_empty.
Qed.

Lemma collect_w_ids_None doc tags i :
  collect_w_ids doc tags !! i = None
  ↔ ∀ el, el ∈ elems doc → tagName el ∈ tags → w_id el ≠ Some i.
Proof.
  rewrite <- not_elem_of_dom. fold (id_set doc tags). rewrite elem_of_id_set.
  split.
  - intros Hno el Hel Ht Hid. apply Hno. eauto.
  - intros Hall (el & Hel & Ht & Hid). by apply (Hall el).
Qed.

End IndexEntries.

(** ** The fresh identifiers *)

Module Fresh.
Import Conditions.

Lemma build_remap_range_fold (ids : list Z) (collides : Z → bool)
    (m0 : gmap Z Z) (n0 : Z) :
  NoDup ids → (∀ i, i ∈ ids → m0 !! i = None) →
  let r := foldl (λ '(remap, next_id) old_id,
                    if collides old_id
                    then (<[old_id := next_id]> remap, (next_id + 1)%Z)
                    else (remap, next_id)) (m0, n0) ids in
  (n0 ≤ r.2)%Z
  ∧ ∀ j, (∃ i, r.1 !! i = Some j)
         ↔ (∃ i, m0 !! i = Some j) ∨ (n0 ≤ j < r.2)%Z.
Proof.
  revert m0 n0. induction ids as [|x ids IH]; intros m0 n0 Hnd Hnew;
    cbn [foldl].
  - cbv zeta. cbn [fst snd]. split; [lia|]. intros j. split; [auto|].
    intros [?|?]; [done|lia].
  - apply NoDup_cons in Hnd as [Hx Hnd]. destruct (collides x).
    + destruct (IH (<[x:=n0]> m0) (n0 + 1)%Z Hnd) as [Hle Hrange].
      { intros i Hi. rewrite lookup_insert_ne by (by intros ->).
        by apply Hnew, list_elem_of_further. }
      cbv zeta in Hle, Hrange |- *. split; [lia|]. intros j.
      rewrite Hrange. split.
      * intros [(i & Hi)|Hj]; [|right; lia].
        destruct (decide (x = i)) as [->|Hne].
        -- rewrite lookup_insert_eq in Hi. injection Hi as <-. right. lia.
        -- rewrite lookup_insert_ne in Hi by done. eauto.
      * intros [(i & Hi)|Hj].
        -- left. exists i. rewrite lookup_insert_ne; [done|].
           intros ->. rewrite Hnew in Hi by apply list_elem_of_here. done.
        -- destruct (decide (j = n0)) as [->|Hne]; [|right; lia].
           left. exists x. by rewrite lookup_insert_eq.
    + apply IH; [done|]. intros i Hi. by apply Hnew, list_elem_of_further.
Qed.

Lemma build_remap_mono_fold (ids : list Z) (collides : Z → bool)
    (m0 : gmap Z Z) (n0 : Z) :
  StronglySorted Z.lt ids →
  (∀ i j, m0 !! i = Some j → (j < n0)%Z ∧ ∀ x, x ∈ ids → (i < x)%Z) →
  (∀ i1 i2 j1 j2, m0 !! i1 = Some j1 → m0 !! i2 = Some j2 →
                  (i1 < i2)%Z → (j1 < j2)%Z) →
  let r := foldl (λ '(remap, next_id) old_id,
                    if collides old_id
                    then (<[old_id := next_id]> remap, (next_id + 1)%Z)
                    else (remap, next_id)) (m0, n0) ids in
  ∀ i1 i2 j1 j2, r.1 !! i1 = Some j1 → r.1 !! i2 = Some j2 →
                 (i1 < i2)%Z → (j1 < j2)%Z.
Proof.
  revert m0 n0. induction ids as [|x ids IH]; intros m0 n0 Hs Hold Hmono;
    cbn [foldl]; [done|].
  apply StronglySorted_inv in Hs as [Hs Hx]. rewrite Forall_forall in Hx.
  destruct (collides x).
  - apply IH; [done| |].
    + intros i j. destruct (decide (x = i)) as [->|Hne].
      * rewrite lookup_insert_eq. intros [= <-]. split; [lia|].
        intros y Hy. by apply Hx.
      * rewrite lookup_insert_ne by done. intros [Hj Hi]%Hold.
        split; [lia|]. intros y Hy. by apply Hi, list_elem_of_further.
    + intros i1 i2 j1 j2.
      destruct (decide (x = i1)) as [<-|H1], (decide (x = i2)) as [<-|H2];
        rewrite ?lookup_insert_eq, ?lookup_insert_ne by done.
      * intros _ _ ?. lia.
      * intros [= <-] [_ Hi]%Hold Hlt.
        specialize (Hi x (list_elem_of_here _ _)). lia.
      * intros [Hj _]%Hold [= <-] _. lia.
      * apply Hmono.
  - apply IH; [done| |done].
    intros i j [Hj Hi]%Hold. split; [done|].
    intros y Hy. by apply Hi, list_elem_of_further.
Qed.

Lemma strictly_sorted (l : list Z) :
  Sorted Z.le l → NoDup l → StronglySorted Z.lt l.
Proof.
  intros Hs%Sorted_StronglySorted; [|intros ???; lia].
  induction Hs as [|x l Hs IH Hx]; intros Hnd; [constructor|].
  apply NoDup_cons in Hnd as [Hnot Hnd]. constructor; [by apply IH|].
  rewrite Forall_forall in Hx |- *. intros y Hy.
  specialize (Hx y Hy). assert (x ≠ y) by (by intros ->). lia.
Qed.

Lemma NoDup_sorted (s : gset Z) : NoDup (sorted s).
Proof.
  unfold sorted. rewrite merge_sort_Permutation. apply NoDup_elements.
Qed.

Lemma build_remap_range ids collides next_id :
  NoDup ids →
  let r := build_remap ids collides next_id in
  (next_id ≤ r.2)%Z
  ∧ ∀ j, (∃ i, r.1 !! i = Some j) ↔ (next_id ≤ j < r.2)%Z.
Proof.
  intros Hnd.
  destruct (build_remap_range_fold ids collides ∅ next_id Hnd) as [Hle Hr].
  { intros i _. apply lookup_empty. }
  cbv zeta in Hle, Hr |- *. split; [done|]. intros j.
  unfold build_remap. rewrite Hr. split; [|auto].
  intros [(i & Hi)|?]; [|done]. by rewrite lookup_empty in Hi.
Qed.

Lemma build_remap_mono ids collides next_id i1 i2 j1 j2 :
  StronglySorted Z.lt ids →
  (build_remap ids collides next_id).1 !! i1 = Some j1 →
  (build_remap ids collides next_id).1 !! i2 = Some j2 →
  (i1 < i2)%Z → (j1 < j2)%Z.
Proof.
  intros Hs. apply (build_remap_mono_fold ids collides ∅ next_id Hs).
  - intros i j. by rewrite lookup_empty.
  - intros ? ? ? ?. by rewrite lookup_empty.
Qed.

End Fresh.

(** ** The entries the orphan cleaner keeps *)

Module Kept.
Import Conditions.

Lemma keeps_iff attr valid el :
  orphan_para attr valid el = false
  ↔ getAttribute el attr = "" ∨ getAttribute el attr ∈ valid.
Proof.
  rewrite orphan_para_false.
  destruct (decide (getAttribute el attr = "")); split; auto.
  - intros [?|?]; done.
  - intros [?|?]; done.
Qed.

Lemma clean_ext_flat fs cdoc doc :
  parse_xml fs comments_path = Some cdoc →
  parse_xml fs ext_path = Some doc → no_nesting "w15:commentEx" doc →
  doc_elements_by_tag (parse_xml (clean_orphaned_comments fs).2 ext_path)
    "w15:commentEx"
  = filter (λ el, getAttribute el "w15:paraId" = ""
                  ∨ getAttribute el "w15:paraId" ∈ valid_para_ids cdoc)
      (get_elements_by_tag doc "w15:commentEx").
Proof.
  intros Hc Hdoc Hflat. rewrite (clean_ext fs cdoc Hc).
  rewrite (clean_part_flat _ _ _ _ _ doc Hdoc Hflat).
  apply list_filter_iff. intros el. apply keeps_iff.
Qed.

Lemma clean_ids_flat fs cdoc doc :
  parse_xml fs comments_path = Some cdoc →
  parse_xml fs ids_path = Some doc → no_nesting "w16cid:commentId" doc →
  doc_elements_by_tag (parse_xml (clean_orphaned_comments fs).2 ids_path)
    "w16cid:commentId"
  = filter (λ el, getAttribute el "w16cid:paraId" = ""
                  ∨ getAttribute el "w16cid:paraId" ∈ valid_para_ids cdoc)
      (get_elements_by_tag doc "w16cid:commentId").
Proof.
  intros Hc Hdoc Hflat. rewrite (clean_ids fs cdoc Hc).
  rewrite (clean_part_flat _ _ _ _ _ doc); [| |done].
  - apply list_filter_iff. intros el. apply keeps_iff.
  - rewrite <- Hdoc. apply parse_xml_files. by rewrite clean_part_frame.
Qed.

Lemma clean_extensible_flat fs cdoc doc :
  parse_xml fs comments_path = Some cdoc →
  parse_xml fs extensible_path = Some doc →
  no_nesting "w16cex:commentExtensible" doc →
  doc_elements_by_tag
    (parse_xml (clean_orphaned_comments fs).2 extensible_path)
    "w16cex:commentExtensible"
  = filter (λ el, orphan_durable
                    (ext_durable_ids (valid_para_ids cdoc) fs) el = false)
      (get_elements_by_tag doc "w16cex:commentExtensible").
Proof.
  intros Hc Hdoc Hflat. rewrite (clean_steps _ _ Hc).
  rewrite (clean_part_flat _ _ _ _ _ doc); [done| |done].
  rewrite <- Hdoc. apply parse_xml_files.
  by rewrite 2!clean_part_frame by done.
Qed.

Lemma durable_keeps_iff durable el :
  orphan_durable durable el = false
  ↔ getAttribute el "w16cex:durableId" = "" ∨ durable = ∅
    ∨ getAttribute el "w16cex:durableId" ∈ durable.
Proof.
  rewrite orphan_durable_false.
  destruct (decide (getAttribute el "w16cex:durableId" = ""));
    destruct (decide (durable = ∅)); intuition auto.
Qed.

End Kept.

(** ** Packages that read back as they are written *)

Module StableFacts.
Import Serialise.

Lemma read_back_attr_kept s :
  all_chars attr_char_kept s = true → read_back_attr s = s.
Proof.
  induction s as [|c s IH]; [done|]. cbn [all_chars read_back_attr].
  intros [Hc Hs]%andb_true_iff. unfold attr_char_kept in Hc.
  apply negb_true_iff, orb_false_iff in Hc as [[Hcr Hlf]%orb_false_iff Htab].
  rewrite Hcr, Hlf, Htab. cbn [orb]. by rewrite IH.
Qed.

Lemma read_back_text_kept s :
  all_chars text_char_kept s = true → read_back_text s = s.
Proof.
  induction s as [|c s IH]; [done|]. cbn [all_chars read_back_text].
  intros [Hc Hs]%andb_true_iff. unfold text_char_kept in Hc.
  apply negb_true_iff in Hc. rewrite Hc. by rewrite IH.
Qed.

Lemma read_back_attrs_kept a :
  attrs_kept a = true → (λ kv, (kv.1, read_back_attr kv.2)) <$> a = a.
Proof.
  induction a as [|[k v] a IH]; [done|]. unfold attrs_kept. cbn [forallb].
  intros [Hv Ha]%andb_true_iff. rewrite fmap_cons. cbn [fst snd] in *.
  rewrite (read_back_attr_kept v Hv). f_equal. by apply IH.
Qed.

Lemma read_back_stable n : stable_node n = true → read_back n = n.
Proof.
  induction n as [t a cs IH| |] using node_rect'; cbn [stable_node read_back].
  - intros [Ha Hcs]%andb_true_iff. rewrite read_back_attrs_kept by done.
    f_equal. induction cs as [|c cs IHcs]; [done|].
    inversion IH as [|? ? Hc Hrest]; subst. cbn [forallb] in Hcs.
    apply andb_true_iff in Hcs as [Hcst Hcs]. rewrite fmap_cons.
    rewrite Hc by done. f_equal. by apply IHcs.
  - intros Hs. by rewrite read_back_text_kept.
  - intros Hs. by rewrite read_back_text_kept.
Qed.

Lemma read_back_file_stable f : stable_file f = true → read_back_file f = f.
Proof. destruct f as [|doc]; [done|]. simpl. by intros ->%read_back_stable. Qed.

(** On such a package the next process finds what this one left. *)
Lemma reopen_stable fs : stable fs → reopen fs = fs.
Proof.
  intros Hst. destruct fs as [m w]. unfold reopen. cbn [files written].
  f_equal. apply map_eq. intros p. rewrite map_lookup_imap.
  destruct (m !! p) as [f|] eqn:E; [|done]. cbn.
  case_bool_decide; [|done]. f_equal. apply read_back_file_stable.
  by apply (Hst p f).
Qed.

Lemma stable_parse fs p doc :
  stable fs → parse_xml fs p = Some doc → stable_node doc = true.
Proof.
  intros Hst. unfold parse_xml.
  destruct (files fs !! p) as [[|d]|] eqn:E; try done.
  intros [= <-]. by apply (Hst p (Parsed d)).
Qed.

Lemma stable_write doc p fs :
  stable fs → (∀ root, doc = Some root → stable_node root = true) →
  stable (write_xml doc p fs).
Proof.
  intros Hst Hdoc. unfold stable, write_xml. cbn [files].
  apply map_Forall_insert_2; [|done]. destruct doc as [root|]; [|done].
  by apply Hdoc.
Qed.

(** *** The values the scripts write *)

Lemma digits_kept s : Py.all_digits s = true → all_chars attr_char_kept s = true.
Proof.
  induction s as [|c s IH]; [done|]. cbn [Py.all_digits all_chars].
  intros [Hc Hs]%andb_true_iff. rewrite IH by done.
  rewrite andb_true_r. unfold Py.is_digit in Hc. unfold attr_char_kept.
  apply andb_true_iff in Hc as [Hlo Hhi].
  apply Nat.leb_le in Hlo. apply negb_true_iff.
  rewrite !orb_false_iff. split_and!; apply Ascii.eqb_neq; intros ->;
    vm_compute in Hlo; lia.
Qed.

Lemma str_kept n : all_chars attr_char_kept (Py.str n) = true.
Proof.
  assert (∀ d, all_chars attr_char_kept (NilZero.string_of_uint d) = true)
    as Huint.
  { intros d. unfold NilZero.string_of_uint.
    destruct d; try done; apply digits_kept, string_of_uint_digits. }
  unfold Py.str, NilZero.string_of_int.
  destruct (Z.to_int n) as [d|d]; [apply Huint|].
  cbn [all_chars]. by rewrite Huint.
Qed.

Lemma attr_update_kept a name value :
  attrs_kept a = true → all_chars attr_char_kept value = true →
  attrs_kept (attr_update a name value) = true.
Proof.
  unfold attrs_kept. intros Ha Hv. induction a as [|[k v] a IH]; simpl.
  - by rewrite Hv.
  - cbn [forallb] in Ha. apply andb_true_iff in Ha as [Hkv Ha].
    destruct (String.eqb k name); cbn [forallb snd].
    + by rewrite Hv, Ha.
    + cbn [snd] in Hkv. by rewrite Hkv, IH.
Qed.

Lemma stable_attrs el :
  is_elem el = true → stable_node el = true → attrs_kept (attributes el) = true.
Proof.
  destruct el as [t a cs| |]; try done. cbn [stable_node attributes].
  by intros _ [? _]%andb_true_iff.
Qed.

Lemma setAttribute_kept el name value :
  is_elem el = true → stable_node el = true →
  all_chars attr_char_kept value = true →
  attrs_kept (attributes (setAttribute el name value)) = true.
Proof.
  intros Hel Hst Hv. destruct el as [t a cs| |]; try done.
  cbn [setAttribute attributes]. apply attr_update_kept; [|done].
  by apply (stable_attrs (Elem t a cs)).
Qed.

Lemma map_elems_stable update n :
  (∀ el, is_elem el = true → stable_node el = true →
         attrs_kept (attributes (update el)) = true) →
  stable_node n = true → stable_node (map_elems update n) = true.
Proof.
  intros Hup. induction n as [t a cs IH| |] using node_rect'; try done.
  intros Hst. cbn [map_elems stable_node].
  rewrite (Hup (Elem t a cs)) by done. cbn [andb].
  cbn [stable_node] in Hst. apply andb_true_iff in Hst as [_ Hcs].
  induction cs as [|c cs IHcs]; [done|].
  inversion IH as [|? ? Hc Hrest]; subst. cbn [forallb] in Hcs.
  apply andb_true_iff in Hcs as [Hcst Hcs]. rewrite fmap_cons.
  cbn [forallb]. rewrite Hc by done. cbn [andb]. by apply IHcs.
Qed.

Lemma renumber_stable tags remap n :
  stable_node n = true → stable_node (renumber tags remap n) = true.
Proof.
  apply map_elems_stable. intros el Hel Hst. unfold renumber_el.
  case_bool_decide; [|by apply stable_attrs].
  destruct (w_id el) as [i|]; [|by apply stable_attrs].
  destruct (remap !! i) as [j|]; [|by apply stable_attrs].
  apply setAttribute_kept; [done|done|apply str_kept].
Qed.

Lemma add_preserve_stable n :
  stable_node n = true → stable_node (add_preserve n) = true.
Proof.
  apply map_elems_stable. intros el Hel Hst. unfold add_preserve_el.
  destruct (bool_decide (tagName el = "w:t") && lacks_preserve el);
    [|by apply stable_attrs].
  by apply setAttribute_kept.
Qed.

(** *** Removal *)

Lemma remove_marked_stable tag n :
  stable_node n = true →
  ∀ marks root, (remove_marked tag n marks).1 = Some root →
                stable_node root = true.
Proof.
  induction n as [t a cs IH| |] using node_rect'; intros Hst marks root.
  - rewrite remove_marked_Elem. cbn [stable_node] in Hst.
    apply andb_true_iff in Hst as [Ha Hcs].
    assert (∀ ms, forallb stable_node (remove_marked_list tag cs ms).1 = true)
      as Hlist.
    { clear -IH Hcs. induction cs as [|c cs IHcs]; intros ms; [done|].
      inversion IH as [|? ? Hc Hrest]; subst. cbn [forallb] in Hcs.
      apply andb_true_iff in Hcs as [Hcst Hcs]. cbn [remove_marked_list].
      destruct (remove_marked tag c ms) as [oc ms1] eqn:E1.
      specialize (IHcs Hrest Hcs ms1).
      destruct (remove_marked_list tag cs ms1) as [l'' ms2]. cbn [fst] in *.
      destruct oc as [c'|]; [|done]. cbn [forallb]. rewrite IHcs.
      rewrite (Hc Hcst ms c'); [done|]. by rewrite E1. }
    destruct (String.eqb t tag).
    + specialize (Hlist (tail marks)).
      destruct (remove_marked_list tag cs (tail marks)) as [cs' ms'].
      cbn [fst] in *. destruct (default false (head marks)); [done|].
      intros [= <-]. cbn [stable_node]. by rewrite Ha, Hlist.
    + specialize (Hlist marks).
      destruct (remove_marked_list tag cs marks) as [cs' ms'].
      cbn [fst] in *. intros [= <-]. cbn [stable_node]. by rewrite Ha, Hlist.
  - simpl. by intros [= <-].
  - simpl. by intros [= <-].
Qed.

Lemma doc_remove_marked_stable tag doc marks root :
  (∀ d, doc = Some d → stable_node d = true) →
  doc_remove_marked tag doc marks = Some root → stable_node root = true.
Proof.
  intros Hdoc. destruct doc as [d|]; [|done]. simpl.
  by apply remove_marked_stable, Hdoc.
Qed.

Lemma dedup_pass_stable `{Countable K} tag (key : node → K) doc root :
  (∀ d, doc = Some d → stable_node d = true) →
  (dedup_pass tag key doc).1 = Some root → stable_node root = true.
Proof. intros Hdoc. by apply doc_remove_marked_stable. Qed.

(** *** The phases keep a package that way *)

Lemma deconflict_ids_stable fs : stable fs → stable (deconflict_ids fs).2.
Proof.
  intros Hst.
  destruct (parse_xml fs doc_path) as [doc|] eqn:Hdoc;
    [|by rewrite deconflict_ids_None].
  destruct (has_collision doc) eqn:Hcol;
    [|by rewrite (deconflict_ids_clean _ _ Hdoc Hcol)].
  rewrite (deconflict_ids_collision _ _ Hdoc Hcol). cbn [snd].
  pose proof (stable_parse _ _ _ Hst Hdoc) as Hd.
  assert (stable (write_xml (Some (deconflict_doc doc)) doc_path fs)) as H1.
  { apply stable_write; [done|]. intros ? [= <-].
    unfold deconflict_doc. by do 2 apply renumber_stable. }
  destruct (parse_xml fs comments_path) as [cdoc|] eqn:Hc; [|done].
  case_bool_decide; [|done]. apply stable_write; [done|].
  intros ? [= <-]. apply renumber_stable.
  exact (stable_parse fs comments_path cdoc Hst Hc).
Qed.

Lemma dedup_content_types_stable fs :
  stable fs → stable (dedup_content_types fs).2.
Proof.
  intros Hst.
  destruct (parse_xml fs ct_path) as [doc|] eqn:Hdoc;
    [|by rewrite dedup_content_types_None].
  rewrite (dedup_content_types_Some _ _ Hdoc). cbv zeta. cbn [snd].
  destruct (0 <? _)%nat; [|done]. apply stable_write; [done|].
  intros root Hroot. unfold ct_after in Hroot.
  eapply dedup_pass_stable; [|exact Hroot].
  intros d Hd. unfold ct_after_override in Hd.
  eapply dedup_pass_stable; [|exact Hd].
  intros ? [= <-]. by eapply stable_parse.
Qed.

Lemma dedup_rels_file_stable n fs p :
  stable fs → stable (dedup_rels_file (n, fs) p).2.
Proof.
  intros Hst. unfold dedup_rels_file.
  destruct (parse_xml fs p) as [doc|] eqn:Hdoc; [|done].
  destruct (dedup_pass "Relationship" type_target (Some doc))
    as [doc' removed] eqn:E.
  destruct (0 <? removed)%nat; [|done]. cbn [snd].
  apply stable_write; [done|]. intros root ->.
  eapply (dedup_pass_stable "Relationship" type_target (Some doc)).
  - intros ? [= <-]. by eapply stable_parse.
  - by rewrite E.
Qed.

Lemma dedup_rels_fold_stable l n fs :
  stable fs → stable (foldl dedup_rels_file (n, fs) l).2.
Proof.
  revert n fs. induction l as [|p l IH]; intros n fs Hst; [done|].
  cbn [foldl]. pose proof (dedup_rels_file_stable n fs p Hst) as H1.
  destruct (dedup_rels_file (n, fs) p) as [n1 fs1]. by apply IH.
Qed.

Lemma dedup_relationships_stable fs :
  stable fs → stable (dedup_relationships fs).2.
Proof.
  intros Hst. rewrite dedup_relationships_unfold. cbn [snd].
  pose proof (dedup_content_types_stable fs Hst) as H1.
  unfold dedup_rels.
  destruct (dedup_content_types fs) as [n1 fs1]. cbn [snd] in *.
  by apply dedup_rels_fold_stable.
Qed.

Lemma clean_part_stable path tag orphan n fs :
  stable fs → stable (clean_part path tag orphan (n, fs)).2.
Proof.
  intros Hst. unfold clean_part.
  destruct (path_exists fs path); [|done].
  destruct (parse_xml fs path) as [doc|] eqn:Hdoc; [|done].
  cbv zeta. destruct (0 <? _)%nat; [|done]. cbn [snd].
  apply stable_write; [done|]. intros root Hroot.
  eapply doc_remove_marked_stable; [|exact Hroot].
  intros ? [= <-]. by eapply stable_parse.
Qed.

Lemma clean_orphaned_comments_stable fs :
  stable fs → stable (clean_orphaned_comments fs).2.
Proof.
  intros Hst.
  destruct (parse_xml fs comments_path) as [cdoc|] eqn:Hc;
    [|by rewrite clean_orphaned_comments_None].
  rewrite (clean_orphaned_comments_Some _ _ Hc). cbv zeta.
  pose proof (clean_part_stable ext_path "w15:commentEx"
                (orphan_para "w15:paraId" (valid_para_ids cdoc)) 0 fs Hst)
    as H1.
  destruct (clean_part ext_path "w15:commentEx" _ (0, fs)) as [n1 fs1].
  pose proof (clean_part_stable ids_path "w16cid:commentId"
                (orphan_para "w16cid:paraId" (valid_para_ids cdoc)) n1 fs1 H1)
    as H2.
  destruct (clean_part ids_path "w16cid:commentId" _ (n1, fs1)) as [n2 fs2].
  by apply clean_part_stable.
Qed.

Lemma fix_xml_space_stable fs : stable fs → stable (fix_xml_space fs).2.
Proof.
  intros Hst. unfold fix_xml_space.
  destruct (parse_xml fs doc_path) as [doc|] eqn:Hdoc; [|done].
  cbv zeta. destruct (0 <? _)%nat; [|done]. cbn [snd].
  apply stable_write; [done|]. intros ? [= <-].
  apply add_preserve_stable. by eapply stable_parse.
Qed.

Lemma main_stable fs : stable fs → stable (main fs).2.
Proof.
  intros Hst. rewrite main_state.
  by apply fix_xml_space_stable, clean_orphaned_comments_stable,
    dedup_relationships_stable, deconflict_ids_stable.
Qed.

End StableFacts.

(** ** First occurrences *)

Module FirstOccurrences.
Import Conditions.

Section first.
Context `{Countable K}.
Variable key : node → K.

Lemma kept_from (pre l : list node) :
  keep_unmarked l (dup_marks key (list_to_set (key <$> pre)) l)
  = snd <$> filter (λ p, key p.2 ∉ key <$> take p.1 (pre ++ l))
              (imap (λ i el, (length pre + i, el)) l).
Proof.
  revert pre. induction l as [|el l IH]; intros pre; [done|].
  cbn [dup_marks imap]. rewrite filter_cons. cbn [fst snd].
  replace (length pre + 0) with (length pre) by lia.
  rewrite take_app_length.
  assert (∀ seen, seen = list_to_set (key <$> (pre ++ [el])) →
            keep_unmarked l (dup_marks key seen l)
            = snd <$> filter (λ p, key p.2 ∉ key <$> take p.1 (pre ++ el :: l))
                        (imap ((λ i el0, (length pre + i, el0)) ∘ S) l))
    as Htail.
  { intros seen ->. rewrite IH. f_equal.
    rewrite <- (assoc_L (++) pre [el] l). cbn [app].
    f_equal. apply imap_ext. intros i x _. cbn.
    rewrite length_app. cbn [length]. f_equal. lia. }
  case_bool_decide as Hseen; case_decide as Hpre;
    cbn [keep_unmarked head tail default].
  - by apply elem_of_list_to_set in Hseen.
  - apply Htail. rewrite fmap_app, list_to_set_app_L. cbn.
    apply set_eq. intros k. rewrite !elem_of_union, elem_of_singleton.
    rewrite elem_of_empty. intuition congruence.
  - rewrite fmap_cons. cbn [snd]. f_equal. apply Htail.
    rewrite fmap_app, list_to_set_app_L. cbn.
    apply set_eq. intros k. rewrite !elem_of_union, elem_of_singleton.
    rewrite elem_of_empty. intuition congruence.
  - exfalso. apply Hseen. by apply elem_of_list_to_set.
Qed.

(** What the loop with the [seen] set keeps is the first occurrences. *)
Lemma kept_first_occurrences (l : list node) :
  keep_unmarked l (dup_marks key ∅ l) = first_occurrences key l.
Proof. apply (kept_from [] l). Qed.

Lemma first_occurrences_length (l : list node) :
  length (first_occurrences key l) + duplicates key l = length l.
Proof.
  rewrite <- kept_first_occurrences.
  rewrite <- (DedupFacts.duplicates_count key).
  apply WriteFacts.keep_unmarked_length, WriteFacts.dup_marks_length.
Qed.
End first.

End FirstOccurrences.

(** ** What the next process reads *)

Module ReadBack.
Import Serialise Conditions.









End ReadBack.

(** ** Manifests whose entries are leaves *)

Module ManifestFacts.
Import Conditions.

Lemma ends_with_spec suffix s :
  ends_with suffix s = true ↔ ∃ stem, s = (stem ++ suffix)%string.
Proof.
  induction s as [|c s IH]; cbn [ends_with].
  - rewrite orb_false_r, String.eqb_eq. split.
    + intros <-. by exists "".
    + intros ([|c stem] & Heq); [done|discriminate].
  - rewrite orb_true_iff, String.eqb_eq, IH. split.
    + intros [<-|(stem & ->)]; [by exists ""|by exists (String c stem)].
    + intros ([|c' stem] & Heq); [by left|].
      right. exists stem. by injection Heq.
Qed.

(** The files the loop visits: those whose name ends in [.rels]. *)
Lemma rels_paths_spec fs p :
  p ∈ rels_paths fs
  ↔ is_Some (files fs !! p) ∧ ∃ stem, p = (stem ++ ".rels")%string.
Proof.
  rewrite elem_of_rels_paths. unfold is_rels. rewrite ends_with_spec. tauto.
Qed.

Lemma rels_first_occurrences fs p doc :
  p ∈ rels_paths fs → parse_xml fs p = Some doc →
  leaf_entries ["Relationship"] doc →
  doc_elements_by_tag (parse_xml (dedup_relationships fs).2 p) "Relationship"
  = first_occurrences type_target (get_elements_by_tag doc "Relationship").
Proof.
  intros [Hr _]%elem_of_rels_paths Hdoc Hleaf.
  rewrite (dedup_relationships_rels _ _ Hr), Hdoc. unfold rels_after.
  rewrite DedupFlat.dedup_pass_flat.
  - apply FirstOccurrences.kept_first_occurrences.
  - intros entry. apply (DedupFlat.leaf_entries_tag _ _ _ _ Hleaf).
    apply list_elem_of_here.
Qed.

Lemma content_types_first_occurrences fs doc :
  parse_xml fs ct_path = Some doc →
  leaf_entries ["Override"; "Default"] doc →
  doc_elements_by_tag (parse_xml (dedup_relationships fs).2 ct_path) "Override"
  = first_occurrences part_name (get_elements_by_tag doc "Override")
  ∧ doc_elements_by_tag (ct_after_override doc) "Default"
    = get_elements_by_tag doc "Default"
  ∧ doc_elements_by_tag (parse_xml (dedup_relationships fs).2 ct_path)
      "Default"
    = first_occurrences extension (get_elements_by_tag doc "Default").
Proof.
  intros Hdoc Hleaf. rewrite (dedup_relationships_ct _ _ Hdoc).
  destruct (DedupFlat.ct_after_flat doc Hleaf) as (Ho & Hd1 & Hd).
  rewrite Ho, Hd, Hd1.
  by rewrite !FirstOccurrences.kept_first_occurrences.
Qed.

Lemma first_occurrences_keys `{Countable K} (key : node → K) l :
  keys_kept key l (first_occurrences key l).
Proof.
  rewrite <- FirstOccurrences.kept_first_occurrences.
  apply DedupFlat.kept_keys.
Qed.

End ManifestFacts.
(* ===================================================================== *)
(** * The properties of the specification *)
(* ===================================================================== *)

Import Conditions Serialise Limits.


Example bookmark_and_change_repaired :
  deconflict_ids bookmark_and_change_pkg
  = (IdSummary 0 1,
     Disk {[ doc_path :=
               Parsed (Elem "w:document" []
                         [el "w:bookmarkStart" [("w:id", "5")];
                          el "w:ins" [("w:id", "6")]]) ]}
          [doc_path]).
Proof. vm_compute. done. Qed.

Example busy_main :
  fst (main busy)
  = Results (IdSummary 3 2) (DedupSummary 2 1) 3 1 12
  ∧ parse_xml (snd (main busy)) doc_path = Some busy_document_repaired.
Proof. vm_compute. done. Qed.

Example busy_main_twice : fst (main (snd (main busy))) = no_changes.
Proof. vm_compute. done. Qed.

Example dedup_scenario :
  parse_xml (dedup_relationships busy).2 ct_path
  = Some (Elem "Types" []
            [el "Default" [("Extension", "xml"); ("ContentType", "a")];
             el "Override" [("PartName", "/word/document.xml");
                            ("ContentType", "b")]])
  ∧ (dedup_relationships busy).1 = DedupSummary 2 1.
Proof. vm_compute. done. Qed.

(** C1.  After the repair pipeline no identifier is carried by elements of
    two different annotation kinds in document.xml.  A bookmarkStart and a
    bookmarkEnd with the same id are of one kind and so never count. *)
Theorem collision_invariant (fs : disk) (doc' : node) :
  parse_xml (main fs).2 doc_path = Some doc' →
  ∀ i, ¬ shared_across_kinds doc' i.
Proof. rewrite main_state. apply main_collision_free. Qed.

Lemma collision_invariant_witness :
  parse_xml (main busy).2 doc_path = Some busy_document_repaired
  ∧ ¬ shared_across_kinds busy_document_repaired 5.
Proof.
  split; [vm_compute; reflexivity|].
  apply (collision_invariant busy busy_document_repaired).
  vm_compute. reflexivity.
Defined.

(** C2, as stated, fails, in two ways.  With a valid commentEx nested in
    an orphaned one, the first run removes the orphan and the second run
    then removes an extensible entry whose durableId came from the nested
    one.  With a line feed in the paraId of a live comment, the first run
    writes commentsExtended.xml, the line feed reads back as a space, and
    the second run removes the entry of the live comment.  The first
    package has no such character and the second no nested entry. *)
Lemma second_run_still_removes_entries :
  (stable nested_pkg
   ∧ orphan_cleanup (main (reopen (main nested_pkg).2)).1 = 1
   ∧ (main (reopen (main nested_pkg).2)).1 ≠ no_changes)
  ∧ (flat_comments_extended line_feed_pkg
     ∧ orphan_cleanup (main (reopen (main line_feed_pkg).2)).1 = 1
     ∧ (main (reopen (main line_feed_pkg).2)).1 ≠ no_changes).
Proof.
  split; split_and!.
  - apply (bool_decide_unpack _). vm_compute. reflexivity.
  - vm_compute. reflexivity.
  - vm_compute. discriminate.
  - vm_compute. repeat constructor.
  - vm_compute. reflexivity.
  - vm_compute. discriminate.
Qed.

(** C2, amended.  When commentsExtended.xml has no commentEx nested in
    another, and no attribute value of the package holds a tab, a line feed
    or a carriage return and no character data a carriage return, a second
    run of the pipeline, on the package as it reads back after the first,
    reports no change at all and leaves the package as it found it. *)
Theorem idempotence (fs : disk) :
  flat_comments_extended fs → stable fs →
  main (reopen (main fs).2) = (no_changes, reopen (main fs).2).
Proof.
  intros Hflat Hst.
  rewrite (StableFacts.reopen_stable _ (StableFacts.main_stable _ Hst)).
  apply main_repaired_no_changes. rewrite main_state.
  by apply main_repaired.
Qed.

Lemma idempotence_witness :
  flat_comments_extended busy ∧ stable busy
  ∧ (main (reopen (main busy).2)).1 = no_changes.
Proof.
  assert (flat_comments_extended busy) as Hflat.
  { vm_compute. repeat constructor. }
  assert (stable busy) as Hst.
  { apply (bool_decide_unpack _). vm_compute. reflexivity. }
  split_and!; [exact Hflat|exact Hst|].
  by rewrite (idempotence busy Hflat Hst).
Defined.

(** C3, as stated, fails: the comment 5 has moved to 6, so the insertion 5
    collides with nothing any more, and it is renumbered all the same. *)
Lemma change_renumbered_after_collision_is_gone :
  let doc := comment_and_change in
  let after_comments :=
    renumber COMMENT_DOC_TAGS (comment_id_remap doc).1 doc in
  id_set after_comments BOOKMARK_TAGS = ∅
  ∧ id_set after_comments COMMENT_DOC_TAGS = {[ 6%Z ]}
  ∧ (change_id_remap doc).1 !! 5%Z = Some 7%Z
  ∧ parse_xml (deconflict_ids comment_and_change_pkg).2 doc_path
    = Some (Elem "w:document" []
              [el "w:commentRangeStart" [("w:id", "6")];
               el "w:ins" [("w:id", "7")]]).
Proof. vm_compute. done. Qed.

(** C3, amended.  In a pass that found a collision, a tracked-change id gets
    a fresh id exactly when it is in the bookmark-kind set or in the
    comment-kind set as both were collected before any renumbering; the
    fresh id is above every id of the document; the change elements of
    document.xml are rewritten through that mapping; and no part other than
    document.xml is touched by it: comments.xml, when it is rewritten, is
    rewritten through the comment mapping alone. *)
Theorem change_ids_checked_against_original_sets (fs : disk) (doc : node) :
  parse_xml fs doc_path = Some doc → has_collision doc = true →
  let comment_remap := (comment_id_remap doc).1 in
  let change_remap := (change_id_remap doc).1 in
  (∀ i, is_Some (change_remap !! i)
        ↔ i ∈ id_set doc CHANGE_TAGS
          ∧ (i ∈ id_set doc BOOKMARK_TAGS ∨ i ∈ id_set doc COMMENT_DOC_TAGS))
  ∧ (∀ i j k, change_remap !! i = Some j →
        k ∈ id_set doc BOOKMARK_TAGS ∪ id_set doc COMMENT_DOC_TAGS
            ∪ id_set doc CHANGE_TAGS → (k < j)%Z)
  ∧ parse_xml (deconflict_ids fs).2 doc_path
    = Some (renumber CHANGE_TAGS change_remap
              (renumber COMMENT_DOC_TAGS comment_remap doc))
  ∧ (∀ el, is_elem el = true → tagName el ∈ CHANGE_TAGS →
        w_id (renumber CHANGE_TAGS change_remap el)
        = apply_remap change_remap <$> w_id el)
  ∧ (∀ p, p ≠ doc_path →
        files (deconflict_ids fs).2 !! p = files fs !! p
        ∨ p = comments_path
          ∧ ∃ cdoc, parse_xml fs comments_path = Some cdoc
              ∧ files (deconflict_ids fs).2 !! p
                = Some (Parsed (renumber ["w:comment"] comment_remap cdoc))).
Proof.
  intros Hdoc Hcol. cbv zeta. split_and!.
  - intros i. split.
    + intros [j Hj]. by apply change_remap_lookup in Hj as (? & ? & _).
    + intros [Hh Hbc]. by apply change_remap_dom.
  - intros i j k Hj Hk. apply change_remap_lookup in Hj as (_ & _ & Hj).
    pose proof (comment_remap_counter doc) as Hcnt.
    pose proof (id_le_max doc k) as Hmax.
    rewrite !elem_of_union in Hk. intuition lia.
  - rewrite (deconflict_ids_doc _ _ Hdoc), Hcol. done.
  - intros el Hel Ht. by rewrite w_id_renumber, decide_True.
  - intros p Hp. rewrite (deconflict_ids_collision _ _ Hdoc Hcol). cbn [snd].
    destruct (parse_xml fs comments_path) as [cdoc|] eqn:Hc.
    + case_bool_decide.
      * destruct (decide (p = comments_path)) as [->|Hpc].
        -- right. split; [done|]. exists cdoc. split; [done|].
           unfold write_xml. cbn [files]. by rewrite lookup_insert_eq.
        -- left. by rewrite !files_write_ne.
      * left. by rewrite files_write_ne.
    + left. by rewrite files_write_ne.
Qed.

Lemma change_ids_checked_against_original_sets_witness :
  parse_xml comment_and_change_pkg doc_path = Some comment_and_change
  ∧ has_collision comment_and_change = true
  ∧ parse_xml (deconflict_ids comment_and_change_pkg).2 doc_path
    = Some (renumber CHANGE_TAGS (change_id_remap comment_and_change).1
              (renumber COMMENT_DOC_TAGS
                 (comment_id_remap comment_and_change).1 comment_and_change)).
Proof.
  assert (parse_xml comment_and_change_pkg doc_path = Some comment_and_change)
    as H1 by (vm_compute; reflexivity).
  assert (has_collision comment_and_change = true)
    as H2 by (vm_compute; reflexivity).
  split_and!; [exact H1|exact H2|].
  apply (change_ids_checked_against_original_sets _ _ H1 H2).
Defined.

(** C4, as stated, fails: with no valid-durableId set to check against, an
    extensible entry stays although its durableId leads to no comment. *)
Lemma unlinked_extensible_entry_survives :
  let fs' := (clean_orphaned_comments unlinked_pkg).2 in
  doc_elements_by_tag (parse_xml fs' extensible_path) "w16cex:commentExtensible"
  = [el "w16cex:commentExtensible" [("w16cex:durableId", "D")]]
  ∧ ext_durable_ids (valid_para_ids busy_comments) fs' = ∅
  ∧ ¬ (∀ entry,
         entry ∈ doc_elements_by_tag (parse_xml fs' extensible_path)
                   "w16cex:commentExtensible" →
         getAttribute entry "w16cex:durableId"
         ∈ ext_durable_ids (valid_para_ids busy_comments) fs').
Proof.
  cbv zeta.
  assert (doc_elements_by_tag
            (parse_xml (clean_orphaned_comments unlinked_pkg).2 extensible_path)
            "w16cex:commentExtensible"
          = [el "w16cex:commentExtensible" [("w16cex:durableId", "D")]]) as He
    by (vm_compute; reflexivity).
  assert (ext_durable_ids (valid_para_ids busy_comments)
            (clean_orphaned_comments unlinked_pkg).2 = ∅) as Hd
    by (vm_compute; reflexivity).
  split_and!; [exact He|exact Hd|].
  rewrite He, Hd. intros Hall.
  by apply (not_elem_of_empty (C:=gset string) _ (Hall _ (list_elem_of_here _ _))).
Qed.

(** C4, amended.  When comments.xml parses, then in each metadata part that
    still parses after the phase: every commentEx and commentId entry with a
    non-empty paraId has the paraId of a live comment paragraph, and every
    commentExtensible entry with a non-empty durableId has a durableId of
    the valid-durableId set that the phase collected from
    commentsExtended.xml, provided that set is not empty.  In a part none of
    whose entries lies inside another, the entries left are exactly the
    entries of before whose key is empty or resolves in this way, for
    commentExtensible all entries when the set is empty, in their old
    order. *)
Theorem orphan_invariant (fs : disk) (comments_doc : node) :
  parse_xml fs comments_path = Some comments_doc →
  let valid := valid_para_ids comments_doc in
  let durable := ext_durable_ids valid fs in
  let fs' := (clean_orphaned_comments fs).2 in
  orphan_free_wrt valid durable fs'
  ∧ (∀ doc, parse_xml fs ext_path = Some doc →
       no_nesting "w15:commentEx" doc →
       doc_elements_by_tag (parse_xml fs' ext_path) "w15:commentEx"
       = filter (λ el, getAttribute el "w15:paraId" = ""
                       ∨ getAttribute el "w15:paraId" ∈ valid)
           (get_elements_by_tag doc "w15:commentEx"))
  ∧ (∀ doc, parse_xml fs ids_path = Some doc →
       no_nesting "w16cid:commentId" doc →
       doc_elements_by_tag (parse_xml fs' ids_path) "w16cid:commentId"
       = filter (λ el, getAttribute el "w16cid:paraId" = ""
                       ∨ getAttribute el "w16cid:paraId" ∈ valid)
           (get_elements_by_tag doc "w16cid:commentId"))
  ∧ (∀ doc, parse_xml fs extensible_path = Some doc →
       no_nesting "w16cex:commentExtensible" doc →
       doc_elements_by_tag (parse_xml fs' extensible_path)
         "w16cex:commentExtensible"
       = filter (λ el, getAttribute el "w16cex:durableId" = ""
                       ∨ durable = ∅
                       ∨ getAttribute el "w16cex:durableId" ∈ durable)
           (get_elements_by_tag doc "w16cex:commentExtensible")).
Proof.
  intros Hc. cbv zeta. split_and!.
  - by apply clean_orphan_free_wrt.
  - intros doc Hdoc Hflat. by apply Kept.clean_ext_flat.
  - intros doc Hdoc Hflat. by apply Kept.clean_ids_flat.
  - intros doc Hdoc Hflat.
    rewrite (Kept.clean_extensible_flat _ _ _ Hc Hdoc Hflat).
    apply list_filter_iff. intros el. apply Kept.durable_keeps_iff.
Qed.

Lemma orphan_invariant_witness :
  parse_xml busy comments_path = Some busy_comments
  ∧ orphan_free_wrt (valid_para_ids busy_comments)
      (ext_durable_ids (valid_para_ids busy_comments) busy)
      (clean_orphaned_comments busy).2
  ∧ ext_durable_ids (valid_para_ids busy_comments) busy = {[ "D2" ]}
  ∧ doc_elements_by_tag
      (parse_xml (clean_orphaned_comments busy).2 extensible_path)
      "w16cex:commentExtensible"
    = filter (λ el, getAttribute el "w16cex:durableId" = ""
                    ∨ ext_durable_ids (valid_para_ids busy_comments) busy = ∅
                    ∨ getAttribute el "w16cex:durableId"
                      ∈ ext_durable_ids (valid_para_ids busy_comments) busy)
        (get_elements_by_tag busy_extensible "w16cex:commentExtensible").
Proof.
  assert (parse_xml busy comments_path = Some busy_comments) as H1
    by (vm_compute; reflexivity).
  destruct (orphan_invariant busy busy_comments H1) as (Hfree & _ & _ & Hx).
  split_and!; [exact H1|exact Hfree|vm_compute; reflexivity|].
  apply Hx.
  - vm_compute. reflexivity.
  - vm_compute. repeat constructor.
Defined.

(** C5, as stated, fails: an Override inside a repeated Override goes
    with it, so its PartName is on no node afterwards, and two nodes are
    gone where the counter says one. *)
Lemma key_of_nested_entry_lost :
  let fs' := (dedup_relationships nested_manifest_pkg).2 in
  let before := get_elements_by_tag nested_content_types "Override" in
  let after := doc_elements_by_tag (parse_xml fs' ct_path) "Override" in
  parse_xml nested_manifest_pkg ct_path = Some nested_content_types
  ∧ part_name <$> before = ["/a"; "/a"; "/b"]
  ∧ part_name <$> after = ["/a"]
  ∧ ¬ keys_kept part_name before after
  ∧ (dedup_relationships nested_manifest_pkg).1 = DedupSummary 1 0
  ∧ length before - length after = 2.
Proof.
  cbv zeta.
  assert (part_name <$> get_elements_by_tag nested_content_types "Override"
          = ["/a"; "/a"; "/b"]) as Hb by (vm_compute; reflexivity).
  assert (part_name
            <$> doc_elements_by_tag
                  (parse_xml (dedup_relationships nested_manifest_pkg).2
                     ct_path) "Override"
          = ["/a"]) as Ha by (vm_compute; reflexivity).
  split_and!; [vm_compute; reflexivity|exact Hb|exact Ha| |
               vm_compute; reflexivity..].
  intros Hkept.
  assert (el "Override" [("PartName", "/b")]
          ∈ get_elements_by_tag nested_content_types "Override") as Hin.
  { vm_compute.
    repeat first [apply list_elem_of_here | apply list_elem_of_further]. }
  apply Hkept in Hin. rewrite Ha in Hin.
  apply list_elem_of_singleton in Hin. discriminate.
Qed.

(** C5, amended.  The .rels manifests are the files whose name ends in
    .rels.  After the dedup phase, in [Content_Types].xml no two Override
    nodes share a PartName and no two Default nodes share an Extension, and
    in every .rels manifest no two Relationship nodes share a (Type, Target)
    pair; each node that is left has the attributes of a node that no
    earlier node, in document order, shared the key with, and the two
    counters are the numbers of nodes that repeated an earlier key (for
    Default, both in the document as the Override loop left it).  When no
    entry of a manifest has an element below it, the nodes left in each
    category are exactly the first occurrences of the original manifest, in
    document order, so that every key of the original is on exactly one
    node; and the counters are then the numbers of nodes that are gone. *)
Theorem dedup_keeps_first_occurrence (fs : disk) :
  let fs' := (dedup_relationships fs).2 in
  let summary := (dedup_relationships fs).1 in
  let relationships s p :=
    doc_elements_by_tag (parse_xml s p) "Relationship" in
  (∀ p, p ∈ rels_paths fs
        ↔ is_Some (files fs !! p) ∧ ∃ stem, p = (stem ++ ".rels")%string)
  ∧ (∀ doc, parse_xml fs ct_path = Some doc →
       let overrides := get_elements_by_tag doc "Override" in
       let defaults := get_elements_by_tag doc "Default" in
       let scanned := doc_elements_by_tag (ct_after_override doc) "Default" in
       let overrides' :=
         doc_elements_by_tag (parse_xml fs' ct_path) "Override" in
       let defaults' := doc_elements_by_tag (parse_xml fs' ct_path) "Default" in
       deduplicated part_name overrides overrides'
       ∧ deduplicated extension scanned defaults'
       ∧ content_types_removed summary
         = duplicates part_name overrides + duplicates extension scanned
       ∧ (leaf_entries ["Override"; "Default"] doc →
            overrides' = first_occurrences part_name overrides
            ∧ defaults' = first_occurrences extension defaults
            ∧ keys_kept part_name overrides overrides'
            ∧ keys_kept extension defaults defaults'
            ∧ content_types_removed summary
              = (length overrides - length overrides')
                + (length defaults - length defaults')))
  ∧ (∀ p doc, p ∈ rels_paths fs → parse_xml fs p = Some doc →
       deduplicated type_target (relationships fs p) (relationships fs' p)
       ∧ (leaf_entries ["Relationship"] doc →
            relationships fs' p
            = first_occurrences type_target (relationships fs p)
            ∧ keys_kept type_target (relationships fs p)
                (relationships fs' p)))
  ∧ rels_removed summary
    = sum_list_with (λ p, duplicates type_target (relationships fs p))
        (rels_paths fs)
  ∧ ((∀ p doc, p ∈ rels_paths fs → parse_xml fs p = Some doc →
               leaf_entries ["Relationship"] doc) →
     rels_removed summary
     = sum_list_with
         (λ p, length (relationships fs p) - length (relationships fs' p))
         (rels_paths fs))
  ∧ (parse_xml fs ct_path = None → content_types_removed summary = 0).
Proof.
  cbv zeta.
  assert (rels_removed (dedup_relationships fs).1
          = sum_list_with
              (λ p, duplicates type_target
                      (doc_elements_by_tag (parse_xml fs p) "Relationship"))
              (rels_paths fs)) as Hrels.
  { rewrite dedup_relationships_unfold. cbn [fst rels_removed].
    rewrite dedup_rels_count, sum_list_fmap.
    rewrite rels_paths_after_content_types.
    apply sum_list_with_ext_in. intros p [Hr _]%elem_of_rels_paths.
    unfold rels_removed_in. rewrite dedup_pass_count. do 2 f_equal.
    apply parse_xml_files, dedup_content_types_frame.
    intros ->. by rewrite is_rels_ct in Hr. }
  split_and!.
  - apply ManifestFacts.rels_paths_spec.
  - intros doc Hdoc.
    assert (content_types_removed (dedup_relationships fs).1
            = duplicates part_name (get_elements_by_tag doc "Override")
              + duplicates extension
                  (doc_elements_by_tag (ct_after_override doc) "Default"))
      as Hcount.
    { rewrite dedup_relationships_unfold. cbn [fst content_types_removed].
      rewrite (dedup_content_types_Some _ _ Hdoc). cbv zeta. cbn [fst].
      by rewrite !dedup_pass_count. }
    split_and!.
    + rewrite (dedup_relationships_ct _ _ Hdoc).
      eapply (deduplicated_sublist part_name part_name_by_attributes).
      * apply (dedup_pass_other extension "Default"). done.
      * apply (dedup_pass_deduplicated part_name part_name_by_attributes
                 "Override" (Some doc)).
    + rewrite (dedup_relationships_ct _ _ Hdoc).
      apply (dedup_pass_deduplicated extension extension_by_attributes).
    + exact Hcount.
    + intros Hleaf.
      destruct (ManifestFacts.content_types_first_occurrences fs doc Hdoc Hleaf)
        as (Ho & Hd1 & Hd).
      rewrite Hcount, Ho, Hd, Hd1.
      split_and!; [done|done|apply ManifestFacts.first_occurrences_keys..|].
      pose proof (FirstOccurrences.first_occurrences_length part_name
                    (get_elements_by_tag doc "Override")).
      pose proof (FirstOccurrences.first_occurrences_length extension
                    (get_elements_by_tag doc "Default")).
      lia.
  - intros p doc Hp Hdoc. pose proof Hp as [Hr _]%elem_of_rels_paths. split.
    + rewrite (dedup_relationships_rels _ _ Hr), Hdoc.
      apply (dedup_pass_deduplicated type_target type_target_by_attributes
               "Relationship" (Some doc)).
    + intros Hleaf.
      rewrite (ManifestFacts.rels_first_occurrences _ _ _ Hp Hdoc Hleaf).
      rewrite Hdoc. split; [done|]. apply ManifestFacts.first_occurrences_keys.
  - exact Hrels.
  - intros Hleaf. rewrite Hrels. apply sum_list_with_ext_in. intros p Hp.
    destruct (parse_xml fs p) as [doc|] eqn:Hdoc.
    + rewrite (ManifestFacts.rels_first_occurrences _ _ _ Hp Hdoc
                 (Hleaf _ _ Hp Hdoc)).
      pose proof (FirstOccurrences.first_occurrences_length type_target
                    (get_elements_by_tag doc "Relationship")).
      simpl. lia.
    + simpl. pose proof Hp as [Hr _]%elem_of_rels_paths.
      rewrite (dedup_relationships_rels _ _ Hr), Hdoc. done.
  - intros Hnone. rewrite dedup_relationships_unfold.
    cbn [fst content_types_removed]. by rewrite dedup_content_types_None.
Qed.

Lemma dedup_keeps_first_occurrence_witness :
  parse_xml busy ct_path = Some busy_content_types
  ∧ leaf_entries ["Override"; "Default"] busy_content_types
  ∧ doc_elements_by_tag (parse_xml (dedup_relationships busy).2 ct_path)
      "Override"
    = first_occurrences part_name
        (get_elements_by_tag busy_content_types "Override")
  ∧ "word/_rels/document.xml.rels" ∈ rels_paths busy
  ∧ parse_xml busy "word/_rels/document.xml.rels" = Some busy_rels
  ∧ leaf_entries ["Relationship"] busy_rels
  ∧ length (get_elements_by_tag busy_rels "Relationship") = 3
  ∧ doc_elements_by_tag
      (parse_xml (dedup_relationships busy).2 "word/_rels/document.xml.rels")
      "Relationship"
    = first_occurrences type_target
        (doc_elements_by_tag (parse_xml busy "word/_rels/document.xml.rels")
           "Relationship").
Proof.
  assert (parse_xml busy ct_path = Some busy_content_types) as H1
    by (vm_compute; reflexivity).
  assert (leaf_entries ["Override"; "Default"] busy_content_types) as H2
    by (vm_compute; repeat constructor).
  assert (parse_xml busy "word/_rels/document.xml.rels" = Some busy_rels)
    as H3 by (vm_compute; reflexivity).
  assert (leaf_entries ["Relationship"] busy_rels) as H4
    by (vm_compute; repeat constructor).
  destruct (dedup_keeps_first_occurrence busy) as (Hpaths & Hct & Hrel & _).
  assert ("word/_rels/document.xml.rels" ∈ rels_paths busy) as H5.
  { apply Hpaths. split; [eexists; vm_compute; reflexivity|].
    by exists "word/_rels/document.xml". }
  destruct (Hct busy_content_types H1) as (_ & _ & _ & Hflat).
  destruct (Hflat H2) as (Ho & _).
  destruct (Hrel _ busy_rels H5 H3) as (_ & Hrflat).
  destruct (Hrflat H4) as (Hr & _).
  split_and!; [exact H1|exact H2|exact Ho|exact H5|exact H3|exact H4|
               vm_compute; reflexivity|exact Hr].
Defined.

(** C6, as stated, fails: a lone range end has neither a start nor a
    reference, and only the start is reported missing. *)
Lemma lone_end_reference_not_reported :
  let doc := lone_end_document in
  let issues := Validate.check_comment_consistency lone_end_pkg in
  "7" ∈ Validate.id_values doc "w:commentRangeEnd"
  ∧ ("7" ∉ Validate.id_values doc "w:commentReference")
  ∧ issues = [Validate.comment_consistency "7"
                "commentRangeEnd 7 has no matching commentRangeStart"]
  ∧ ¬ reports_missing issues "7" "commentReference".
Proof.
  cbv zeta.
  assert (Validate.check_comment_consistency lone_end_pkg
          = [Validate.comment_consistency "7"
               "commentRangeEnd 7 has no matching commentRangeStart"]) as Hi
    by (vm_compute; reflexivity).
  split_and!; [by vm_compute|by vm_compute|exact Hi|].
  rewrite Hi. intros (have & Hin). apply list_elem_of_singleton in Hin.
  unfold Validate.no_matching in Hin. injection Hin as Hmsg.
  pose proof (ends_with_app " 7 has no matching commentReference" have) as He.
  change (have ++ " " ++ "7" ++ " has no matching " ++ "commentReference")%string
    with (have ++ " 7 has no matching commentReference")%string in Hmsg.
  rewrite Hmsg in He. by vm_compute in He.
Qed.

(** C6, amended.  The issues are exactly: one for every id with a range
    start and no range end, one for every id with a range start and no
    reference, one for every id with a range end and no range start, and one
    for every id with a reference and no range start.  So an id is reported
    if and only if it occurs in one of the three sets and not in all three;
    a missing start is reported for each member that is present, a missing
    end or reference only where the start is present. *)
Theorem comment_consistency_reports (fs : disk) (doc : node) :
  Validate.parse_xml fs "word/document.xml" = Some doc →
  let starts := Validate.id_values doc "w:commentRangeStart" in
  let ends := Validate.id_values doc "w:commentRangeEnd" in
  let refs := Validate.id_values doc "w:commentReference" in
  let issues := Validate.check_comment_consistency fs in
  (∀ issue, issue ∈ issues ↔
     ∃ cid,
       (cid ∈ starts ∧ (cid ∉ ends)
        ∧ issue = Validate.no_matching "commentRangeStart" cid "commentRangeEnd")
       ∨ (cid ∈ starts ∧ (cid ∉ refs)
          ∧ issue
            = Validate.no_matching "commentRangeStart" cid "commentReference")
       ∨ (cid ∈ ends ∧ (cid ∉ starts)
          ∧ issue
            = Validate.no_matching "commentRangeEnd" cid "commentRangeStart")
       ∨ (cid ∈ refs ∧ (cid ∉ starts)
          ∧ issue
            = Validate.no_matching "commentReference" cid "commentRangeStart"))
  ∧ (∀ cid, reported issues cid
            ↔ cid ∈ starts ∪ ends ∪ refs
              ∧ ¬ (cid ∈ starts ∧ cid ∈ ends ∧ cid ∈ refs))
  ∧ (∀ cid, cid ∈ ends ∪ refs → cid ∉ starts →
            reports_missing issues cid "commentRangeStart")
  ∧ (∀ cid, cid ∈ starts → cid ∉ ends →
            reports_missing issues cid "commentRangeEnd")
  ∧ (∀ cid, cid ∈ starts → cid ∉ refs →
            reports_missing issues cid "commentReference").
Proof.
  intros Hdoc. cbv zeta.
  assert (∀ issue, issue ∈ Validate.check_comment_consistency fs ↔
     ∃ cid,
       (cid ∈ Validate.id_values doc "w:commentRangeStart"
        ∧ (cid ∉ Validate.id_values doc "w:commentRangeEnd")
        ∧ issue = Validate.no_matching "commentRangeStart" cid "commentRangeEnd")
       ∨ (cid ∈ Validate.id_values doc "w:commentRangeStart"
          ∧ (cid ∉ Validate.id_values doc "w:commentReference")
          ∧ issue
            = Validate.no_matching "commentRangeStart" cid "commentReference")
       ∨ (cid ∈ Validate.id_values doc "w:commentRangeEnd"
          ∧ (cid ∉ Validate.id_values doc "w:commentRangeStart")
          ∧ issue
            = Validate.no_matching "commentRangeEnd" cid "commentRangeStart")
       ∨ (cid ∈ Validate.id_values doc "w:commentReference"
          ∧ (cid ∉ Validate.id_values doc "w:commentRangeStart")
          ∧ issue
            = Validate.no_matching "commentReference" cid "commentRangeStart"))
    as Hissues.
  { intros issue. unfold Validate.check_comment_consistency. rewrite Hdoc.
    cbv zeta. rewrite !elem_of_app, !list_elem_of_fmap.
    setoid_rewrite elem_of_elements. setoid_rewrite elem_of_difference.
    split.
    - intros [(cid & -> & ? & ?)|[(cid & -> & ? & ?)|[(cid & -> & ? & ?)
              |(cid & -> & ? & ?)]]]; exists cid; auto 10.
    - intros (cid & [(? & ? & ->)|[(? & ? & ->)|[(? & ? & ->)|(? & ? & ->)]]]);
        eauto 10. }
  split_and!; [exact Hissues| | | |].
  - intros cid. unfold reported. rewrite !elem_of_union. split.
    + intros (message & Hin). apply Hissues in Hin as (cid' & Hcase).
      unfold Validate.no_matching in Hcase.
      destruct Hcase as [(? & ? & [= -> _])|[(? & ? & [= -> _])
                        |[(? & ? & [= -> _])|(? & ? & [= -> _])]]]; tauto.
    + intros [Hin Hnot].
      destruct (decide (cid ∈ Validate.id_values doc "w:commentRangeStart"))
        as [Hs|Hs].
      * destruct (decide (cid ∈ Validate.id_values doc "w:commentRangeEnd"))
          as [He|He].
        -- eexists. apply Hissues. exists cid. right. left.
           split_and!; [done|tauto|done].
        -- eexists. apply Hissues. exists cid. left. done.
      * destruct Hin as [[?|He]|Hr]; [done| |].
        -- eexists. apply Hissues. exists cid. right. right. left. done.
        -- eexists. apply Hissues. exists cid. right. right. right. done.
  - intros cid [He|Hr]%elem_of_union Hs.
    + exists "commentRangeEnd". apply Hissues. exists cid. auto 10.
    + exists "commentReference". apply Hissues. exists cid. auto 10.
  - intros cid Hs He. exists "commentRangeStart". apply Hissues. exists cid.
    auto 10.
  - intros cid Hs Hr. exists "commentRangeStart". apply Hissues. exists cid.
    auto 10.
Qed.

Lemma comment_consistency_reports_witness :
  Validate.parse_xml lone_end_pkg "word/document.xml" = Some lone_end_document
  ∧ reports_missing (Validate.check_comment_consistency lone_end_pkg) "7"
      "commentRangeStart".
Proof.
  assert (Validate.parse_xml lone_end_pkg "word/document.xml"
          = Some lone_end_document) as H1 by (vm_compute; reflexivity).
  split; [exact H1|].
  destruct (comment_consistency_reports lone_end_pkg lone_end_document H1)
    as (_ & _ & Hstart & _).
  apply Hstart; by vm_compute.
Defined.

(** C7, as stated, fails: an extensible entry whose durableId is in the
    valid-durableId set lies inside one whose durableId is not, and is
    removed with it. *)
Lemma valid_entry_removed_with_its_parent :
  let pkg := nested_extensible_pkg in
  let durable := ext_durable_ids (valid_para_ids busy_comments) pkg in
  let inner := el "w16cex:commentExtensible" [("w16cex:durableId", "D2")] in
  parse_xml pkg comments_path = Some busy_comments
  ∧ durable = {[ "D2" ]}
  ∧ inner ∈ doc_elements_by_tag (parse_xml pkg extensible_path)
              "w16cex:commentExtensible"
  ∧ getAttribute inner "w16cex:durableId" ∈ durable
  ∧ doc_elements_by_tag
      (parse_xml (clean_orphaned_comments pkg).2 extensible_path)
      "w16cex:commentExtensible" = [].
Proof.
  cbv zeta.
  assert (ext_durable_ids (valid_para_ids busy_comments) nested_extensible_pkg
          = {[ "D2" ]}) as Hd by (vm_compute; reflexivity).
  split_and!; [vm_compute; reflexivity|exact Hd| | |vm_compute; reflexivity].
  - vm_compute.
    repeat first [apply list_elem_of_here | apply list_elem_of_further].
  - rewrite Hd. by apply elem_of_singleton.
Qed.

(** C7, amended.  With the valid-durableId set collected from the commentEx
    entries that have a valid paraId: when the set is empty,
    commentsExtensible.xml is left exactly as it was; the number the cleaner
    adds to its count for that part is the number of entries with a
    non-empty durableId that is absent from the set, the set being
    non-empty, and no entry that is left is one of them; and in a part whose
    entries are not nested in one another an entry is removed exactly when
    it is one of them. *)
Theorem extensible_removal_guard (fs : disk) (comments_doc : node) :
  parse_xml fs comments_path = Some comments_doc →
  let valid := valid_para_ids comments_doc in
  let durable := ext_durable_ids valid fs in
  let tag := "w16cex:commentExtensible" in
  let removable entry :=
    getAttribute entry "w16cex:durableId" ≠ "" ∧ durable ≠ ∅
    ∧ getAttribute entry "w16cex:durableId" ∉ durable in
  let before := doc_elements_by_tag (parse_xml fs extensible_path) tag in
  let after :=
    doc_elements_by_tag
      (parse_xml (clean_orphaned_comments fs).2 extensible_path) tag in
  (durable = ∅ →
     files (clean_orphaned_comments fs).2 !! extensible_path
     = files fs !! extensible_path)
  ∧ (clean_orphaned_comments fs).1
    = length (filter (λ entry, orphan_para "w15:paraId" valid entry = true)
                (doc_elements_by_tag (parse_xml fs ext_path) "w15:commentEx"))
      + length (filter (λ entry, orphan_para "w16cid:paraId" valid entry = true)
                  (doc_elements_by_tag (parse_xml fs ids_path)
                     "w16cid:commentId"))
      + length (filter removable before)
  ∧ (∀ entry, entry ∈ after → ¬ removable entry)
  ∧ (∀ doc, parse_xml fs extensible_path = Some doc → no_nesting tag doc →
       after = filter (λ entry, ¬ removable entry) before).
Proof.
  intros Hc. cbv zeta.
  set (valid := valid_para_ids comments_doc).
  set (durable := ext_durable_ids valid fs).
  assert (∀ n s, parse_xml
            (clean_part ids_path "w16cid:commentId"
               (orphan_para "w16cid:paraId" valid)
               ((clean_part ext_path "w15:commentEx"
                   (orphan_para "w15:paraId" valid) (n, s)).1,
                (clean_part ext_path "w15:commentEx"
                   (orphan_para "w15:paraId" valid) (n, s)).2)).2
            extensible_path = parse_xml s extensible_path) as Hsame.
  { intros n s. apply parse_xml_files.
    by rewrite 2!clean_part_frame by done. }
  split_and!.
  - intros Hempty. rewrite (clean_steps _ _ Hc).
    fold valid. fold durable.
    rewrite (clean_part_clean extensible_path).
    + cbn [snd]. by rewrite 2!clean_part_frame by done.
    + intros entry _. apply orphan_durable_false. by intros _ [].
  - rewrite (clean_count _ _ Hc). fold valid. fold durable. f_equal.
    f_equal. apply list_filter_iff. intros entry. apply orphan_durable_true.
  - intros entry Hentry.
    pose proof (clean_orphan_free_wrt _ _ Hc) as (_ & _ & Hx).
    intros (Hne & Hd & Hnot). apply Hnot. by apply Hx.
  - intros doc Hdoc Hflat. rewrite (clean_steps _ _ Hc).
    fold valid. fold durable.
    rewrite (clean_part_flat _ _ _ _ _ doc); [| |done].
    + rewrite Hdoc. simpl. apply list_filter_iff. intros entry.
      rewrite <- orphan_durable_true. by destruct (orphan_durable durable entry).
    + by rewrite Hsame.
Qed.

Lemma extensible_removal_guard_witness :
  (parse_xml unlinked_pkg comments_path = Some busy_comments
   ∧ ext_durable_ids (valid_para_ids busy_comments) unlinked_pkg = ∅
   ∧ files (clean_orphaned_comments unlinked_pkg).2 !! extensible_path
     = files unlinked_pkg !! extensible_path)
  ∧ (parse_xml busy comments_path = Some busy_comments
     ∧ ext_durable_ids (valid_para_ids busy_comments) busy = {[ "D2" ]}
     ∧ no_nesting "w16cex:commentExtensible" busy_extensible
     ∧ doc_elements_by_tag
         (parse_xml (clean_orphaned_comments busy).2 extensible_path)
         "w16cex:commentExtensible"
       = [el "w16cex:commentExtensible" [("w16cex:durableId", "D2")]]
     ∧ doc_elements_by_tag
         (parse_xml (clean_orphaned_comments busy).2 extensible_path)
         "w16cex:commentExtensible"
       = filter
           (λ entry,
              ¬ (getAttribute entry "w16cex:durableId" ≠ ""
                 ∧ ext_durable_ids (valid_para_ids busy_comments) busy ≠ ∅
                 ∧ getAttribute entry "w16cex:durableId"
                   ∉ ext_durable_ids (valid_para_ids busy_comments) busy))
           (doc_elements_by_tag (parse_xml busy extensible_path)
              "w16cex:commentExtensible")).
Proof.
  assert (parse_xml unlinked_pkg comments_path = Some busy_comments) as H1
    by (vm_compute; reflexivity).
  assert (ext_durable_ids (valid_para_ids busy_comments) unlinked_pkg = ∅)
    as H2 by (vm_compute; reflexivity).
  assert (parse_xml busy comments_path = Some busy_comments) as H3
    by (vm_compute; reflexivity).
  assert (no_nesting "w16cex:commentExtensible" busy_extensible) as H4
    by (vm_compute; repeat constructor).
  split; split_and!;
    [exact H1|exact H2| |exact H3|vm_compute; reflexivity|exact H4|
     vm_compute; reflexivity|].
  - by apply (extensible_removal_guard unlinked_pkg busy_comments H1).
  - destruct (extensible_removal_guard busy busy_comments H3)
      as (_ & _ & _ & Hflat).
    apply (Hflat busy_extensible); [vm_compute; reflexivity|exact H4].
Defined.

(** C8, as stated, fails: comment 1 is remapped, comments.xml has no entry
    for it, and the part is written back as it was. *)
Lemma comments_rewritten_unchanged :
  let after := (deconflict_ids stale_pkg).2 in
  written stale_pkg = []
  ∧ written after = [doc_path; comments_path]
  ∧ files after !! comments_path = files stale_pkg !! comments_path
  ∧ ¬ dirty_writes [] [doc_path; comments_path] stale_pkg after.
Proof.
  cbv zeta.
  assert (written (deconflict_ids stale_pkg).2 = [doc_path; comments_path])
    as Hw by (vm_compute; reflexivity).
  assert (files (deconflict_ids stale_pkg).2 !! comments_path
          = files stale_pkg !! comments_path) as Hsame
    by (vm_compute; reflexivity).
  split_and!; [done|exact Hw|exact Hsame|].
  intros (ws & Hws & _ & _ & Hch & _). rewrite Hw in Hws. simpl in Hws.
  subst ws. apply (Hch comments_path); [|by intros ?%elem_of_nil|exact Hsame].
  apply list_elem_of_further, list_elem_of_here.
Qed.

(** C8, amended.  In every phase each part is written at most once and a
    part that is not written is unchanged.  The dedup, orphan-cleanup and
    white-space phases write a part only if it changed, and so does the
    deconfliction phase for document.xml; comments.xml it writes whenever
    that part parsed and some comment id was remapped, whether or not any
    [w:comment] was rewritten. *)
Theorem write_if_dirty (fs : disk) :
  dirty_writes [comments_path] [doc_path; comments_path] fs
    (deconflict_ids fs).2
  ∧ dirty_writes [] (ct_path :: rels_paths fs) fs (dedup_relationships fs).2
  ∧ dirty_writes [] [ext_path; ids_path; extensible_path] fs
      (clean_orphaned_comments fs).2
  ∧ dirty_writes [] [doc_path] fs (fix_xml_space fs).2
  ∧ (∀ doc, parse_xml fs doc_path = Some doc → has_collision doc = true →
       (comments_path ∈ drop (length (written fs))
                           (written (deconflict_ids fs).2)
        ↔ is_Some (parse_xml fs comments_path)
          ∧ (comment_id_remap doc).1 ≠ ∅)).
Proof.
  split_and!.
  - apply WriteFacts.deconflict_ids_writes.
  - apply WriteFacts.dedup_relationships_writes.
  - apply WriteFacts.clean_orphaned_comments_writes.
  - apply WriteFacts.fix_xml_space_writes.
  - intros doc Hdoc Hcol. rewrite (deconflict_ids_collision _ _ Hdoc Hcol).
    cbn [snd].
    destruct (parse_xml fs comments_path) as [cdoc|]; [case_bool_decide|].
    + rewrite !written_write, <- app_assoc, drop_app_length. split.
      * intros _. split; [eauto|done].
      * intros _. apply list_elem_of_further, list_elem_of_here.
    + rewrite written_write, drop_app_length. split.
      * intros [Heq|[]%elem_of_nil]%elem_of_cons. discriminate.
      * by intros [_ ?].
    + rewrite written_write, drop_app_length. split.
      * intros [Heq|[]%elem_of_nil]%elem_of_cons. discriminate.
      * by intros [[? ?] _].
Qed.

Lemma write_if_dirty_witness :
  parse_xml stale_pkg doc_path = Some stale_document
  ∧ has_collision stale_document = true
  ∧ (comments_path ∈ drop (length (written stale_pkg))
                        (written (deconflict_ids stale_pkg).2)
     ↔ is_Some (parse_xml stale_pkg comments_path)
       ∧ (comment_id_remap stale_document).1 ≠ ∅).
Proof.
  assert (parse_xml stale_pkg doc_path = Some stale_document) as H1
    by (vm_compute; reflexivity).
  assert (has_collision stale_document = true) as H2
    by (vm_compute; reflexivity).
  destruct (write_if_dirty stale_pkg) as (_ & _ & _ & _ & Hguard).
  split_and!; [exact H1|exact H2|exact (Hguard _ H1 H2)].
Defined.

(** C9, as stated, fails for the validator: an id that is not an integer is
    left out of the repair index and is indexed, and reported, by the
    unique-id check. *)
Lemma validator_indexes_non_integer_id :
  let entry := el "w:ins" [("w:id", "x")] in
  entry ∈ elems lettered_document
  ∧ w_id entry = None
  ∧ collect_w_ids lettered_document
      (BOOKMARK_TAGS ++ COMMENT_DOC_TAGS ++ CHANGE_TAGS) = ∅
  ∧ Validate.collect_seen lettered_document
    = [("x", ["w:bookmarkStart"; "w:ins"])]
  ∧ Validate.check_unique_ids lettered_pkg
    = [Validate.unique_ids "x" ["w:bookmarkStart"; "w:ins"]
         "ID x shared across annotation types: w:bookmarkStart, w:ins"].
Proof.
  cbv zeta. split_and!; try (vm_compute; reflexivity).
  vm_compute. apply list_elem_of_further, list_elem_of_further,
    list_elem_of_here.
Qed.

(** C9, amended.  An element whose [w:id] is missing, empty or not an
    integer is in no list of the repair index, gives the key sets nothing,
    and keeps its attributes through both rewriting loops, in document.xml
    and in comments.xml; nothing in the pass fails on it.  The validator's
    unique-id check leaves out only the elements whose [w:id] is missing or
    empty: every other value is indexed as the string it is. *)
Theorem ids_left_out_of_the_index (doc : node) :
  (∀ tags i entries tag entry,
     collect_w_ids doc tags !! i = Some entries → (tag, entry) ∈ entries →
     getAttribute entry "w:id" ≠ ""
     ∧ Py.int (getAttribute entry "w:id") = Some i)
  ∧ (∀ tags i, i ∈ id_set doc tags
       ↔ ∃ entry, entry ∈ elems doc ∧ tagName entry ∈ tags
                  ∧ w_id entry = Some i)
  ∧ (let rewrite entry :=
       renumber CHANGE_TAGS (change_id_remap doc).1
         (renumber COMMENT_DOC_TAGS (comment_id_remap doc).1 entry) in
     elems (deconflict_doc doc) = rewrite <$> elems doc
     ∧ ∀ entry, entry ∈ elems doc → w_id entry = None →
         attributes (rewrite entry) = attributes entry)
  ∧ (∀ remap comments_doc,
       elems (renumber ["w:comment"] remap comments_doc)
       = renumber ["w:comment"] remap <$> elems comments_doc
       ∧ ∀ entry, entry ∈ elems comments_doc → w_id entry = None →
           attributes (renumber ["w:comment"] remap entry) = attributes entry)
  ∧ (∀ val, val ∈ (Validate.collect_seen doc).*1
       ↔ val ≠ "" ∧ ∃ entry, entry ∈ elems doc
                     ∧ tagName entry ∈ Validate.ANNOTATION_TAGS
                     ∧ getAttribute entry "w:id" = val).
Proof.
  split_and!.
  - intros tags i entries tag entry Hlook Hin. apply w_id_Some.
    by eapply (collect_w_ids_entries doc tags).
  - intros tags i. apply elem_of_id_set.
  - cbv zeta. split.
    + unfold deconflict_doc, renumber. rewrite !elems_map_elems.
      by rewrite <- list_fmap_compose.
    + intros entry Hentry Hid.
      pose proof (elems_is_elem _ _ Hentry) as Hel.
      destruct (renumber_without_id COMMENT_DOC_TAGS (comment_id_remap doc).1
                  entry Hel Hid) as [Ha Hid'].
      rewrite <- Ha. apply renumber_without_id; [|done].
      by rewrite renumber_is_elem.
  - intros remap comments_doc. split.
    + apply elems_map_elems.
    + intros entry Hentry Hid. apply renumber_without_id; [|done].
      by eapply elems_is_elem.
  - apply collect_seen_keys.
Qed.

Lemma ids_left_out_of_the_index_witness :
  el "w:ins" [("w:id", "x")] ∈ elems lettered_document
  ∧ w_id (el "w:ins" [("w:id", "x")]) = None
  ∧ attributes
      (renumber CHANGE_TAGS (change_id_remap lettered_document).1
         (renumber COMMENT_DOC_TAGS (comment_id_remap lettered_document).1
            (el "w:ins" [("w:id", "x")])))
    = [("w:id", "x")].
Proof.
  assert (el "w:ins" [("w:id", "x")] ∈ elems lettered_document) as H1.
  { vm_compute. apply list_elem_of_further, list_elem_of_further,
      list_elem_of_here. }
  assert (w_id (el "w:ins" [("w:id", "x")]) = None) as H2
    by (vm_compute; reflexivity).
  destruct (ids_left_out_of_the_index lettered_document)
    as (_ & _ & [_ Hkeep] & _).
  split_and!; [exact H1|exact H2|]. exact (Hkeep _ H1 H2).
Defined.

(** C10.  Without a comments.xml that parses, the cross-reference check
    reports nothing, whatever commentsExtended.xml and commentsIds.xml
    hold. *)
Theorem no_comments_no_artifact_issues (fs : disk) :
  files fs !! "word/comments.xml" = None
  ∨ files fs !! "word/comments.xml" = Some Unparseable →
  Validate.check_comment_artifacts fs = [].
Proof.
  unfold Validate.check_comment_artifacts, Validate.path_exists,
    Validate.parse_xml.
  intros [->| ->]; [|by case_bool_decide].
  rewrite bool_decide_eq_false_2; [done|]. by intros [? ?].
Qed.

Lemma no_comments_no_artifact_issues_witness :
  Validate.part_para_ids no_comments_pkg "word/commentsExtended.xml"
    "w15:commentEx" "w15:paraId" = {[ "X"; "P" ]}
  ∧ Validate.check_comment_artifacts no_comments_pkg = [].
Proof.
  split; [vm_compute; reflexivity|].
  apply (no_comments_no_artifact_issues no_comments_pkg).
  left. vm_compute. reflexivity.
Defined.

(* ===================================================================== *)
(** * Repair and validation together *)
(* ===================================================================== *)


(** X1.  On a package that reads back as it is written, what the dedup
    phase leaves behind passes the validator's duplicate-entries check when
    the validator reads it from the directory, and so does the package the
    whole repair pipeline leaves behind. *)
Theorem no_duplicates_after_dedup (fs : disk) :
  stable fs →
  Report.check_duplicate_entries (reopen (dedup_relationships fs).2) = []
  ∧ Report.check_duplicate_entries (reopen (main fs).2) = [].
Proof.
  intros Hst.
  rewrite (StableFacts.reopen_stable _
             (StableFacts.dedup_relationships_stable _ Hst)).
  rewrite (StableFacts.reopen_stable _ (StableFacts.main_stable _ Hst)).
  split; apply ReportFacts.check_duplicate_entries_nil.
  - apply ReportFacts.dedup_duplicate_free.
  - apply ReportFacts.main_duplicate_free.
Qed.

Lemma no_duplicates_after_dedup_witness :
  stable busy
  ∧ length (Report.check_duplicate_entries busy) = 3
  ∧ Report.check_duplicate_entries (reopen (dedup_relationships busy).2) = [].
Proof.
  assert (stable busy) as Hst.
  { apply (bool_decide_unpack _). vm_compute. reflexivity. }
  split_and!; [exact Hst|vm_compute; reflexivity|].
  apply (no_duplicates_after_dedup busy Hst).
Defined.

(** X2.  The duplicate-entries check is silent on a package exactly when
    the dedup phase finds nothing to remove there, and then the phase
    leaves the package alone. *)
Theorem duplicate_check_agrees_with_dedup (fs : disk) :
  (Report.check_duplicate_entries fs = []
   ↔ (dedup_relationships fs).1 = DedupSummary 0 0)
  ∧ (Report.check_duplicate_entries fs = [] → (dedup_relationships fs).2 = fs).
Proof.
  split; [split|].
  - intros Hnil%ReportFacts.check_duplicate_entries_nil.
    by rewrite ReportFacts.dedup_clean.
  - intros Hz. by apply ReportFacts.check_duplicate_entries_nil,
      ReportFacts.dedup_zero.
  - intros Hnil%ReportFacts.check_duplicate_entries_nil.
    by rewrite ReportFacts.dedup_clean.
Qed.

Lemma duplicate_check_agrees_with_dedup_witness :
  Report.check_duplicate_entries lone_end_pkg = []
  ∧ (dedup_relationships lone_end_pkg).2 = lone_end_pkg.
Proof.
  assert (Report.check_duplicate_entries lone_end_pkg = []) as H1
    by (vm_compute; reflexivity).
  split; [exact H1|].
  by apply (duplicate_check_agrees_with_dedup lone_end_pkg).
Defined.

(** X3.  On a package whose content-type entries have nothing below them,
    the duplicate-entries check reports as many records as the dedup phase
    removes nodes. *)
Theorem duplicate_count_agrees_with_dedup (fs : disk) :
  (∀ doc, parse_xml fs ct_path = Some doc →
          leaf_entries ["Override"; "Default"] doc) →
  length (Report.check_duplicate_entries fs)
  = content_types_removed (dedup_relationships fs).1
    + rels_removed (dedup_relationships fs).1.
Proof.
  intros Hleaf. unfold Report.check_duplicate_entries. cbv zeta.
  rewrite length_app, ReportFacts.rels_issues_length,
    <- ReportFacts.rels_removed_sum.
  f_equal. change "[Content_Types].xml" with ct_path.
  rewrite ReportFacts.validate_parse.
  destruct (parse_xml fs ct_path) as [doc|] eqn:Hdoc.
  - rewrite (parse_exists _ _ _ Hdoc : Validate.path_exists fs ct_path = true).
    rewrite (ReportFacts.content_types_issues_length _ _ Hdoc
               (Hleaf _ eq_refl)).
    by rewrite length_app, !ReportFacts.duplicates_of_length.
  - rewrite dedup_relationships_unfold. cbn [fst content_types_removed].
    rewrite dedup_content_types_None by done.
    by destruct (Validate.path_exists fs ct_path).
Qed.

Lemma duplicate_count_agrees_with_dedup_witness :
  length (Report.check_duplicate_entries busy) = 3
  ∧ length (Report.check_duplicate_entries busy)
    = content_types_removed (dedup_relationships busy).1
      + rels_removed (dedup_relationships busy).1.
Proof.
  split; [vm_compute; reflexivity|].
  apply (duplicate_count_agrees_with_dedup busy).
  intros doc Hdoc.
  vm_compute in Hdoc. injection Hdoc as <-.
  vm_compute. repeat constructor.
Defined.

(** X4.  The white-space check reports one record for every text run the
    white-space phase marks, and none on what the phase, or the whole
    pipeline, leaves behind. *)
Theorem xml_space_check_agrees_with_fix (fs : disk) :
  length (Report.check_xml_space fs) = (fix_xml_space fs).1
  ∧ Report.check_xml_space (fix_xml_space fs).2 = []
  ∧ Report.check_xml_space (main fs).2 = [].
Proof.
  split_and!.
  - apply SpaceCheck.check_xml_space_length.
  - apply SpaceCheck.check_xml_space_nil. intros doc. apply fix_xml_space_post.
  - apply SpaceCheck.check_xml_space_nil. intros doc.
    apply SpaceCheck.main_space_marked.
Qed.

(** X5.  The unique-id check reports a [w:id] text exactly when the text
    is not empty and two annotation elements of different kinds carry
    it. *)
Theorem unique_id_check_reports (fs : disk) (doc : node) (val : string) :
  parse_xml fs doc_path = Some doc →
  (∃ tags message,
     Validate.unique_ids val tags message ∈ Validate.check_unique_ids fs)
  ↔ val ≠ "" ∧ same_text_across_kinds doc val.
Proof. apply UniqueIds.check_unique_ids_spec. Qed.

Lemma unique_id_check_reports_witness :
  parse_xml lettered_pkg doc_path = Some lettered_document
  ∧ same_text_across_kinds lettered_document "x".
Proof.
  assert (parse_xml lettered_pkg doc_path = Some lettered_document) as H1
    by (vm_compute; reflexivity).
  split; [exact H1|].
  apply (unique_id_check_reports lettered_pkg lettered_document "x" H1).
  eexists _, _. vm_compute. apply list_elem_of_here.
Defined.

(** X6.  When the unique-id check reports an id that reads as an integer,
    that integer is shared across two kinds in the repair's index, so the
    deconfliction pass finds a collision. *)
Theorem reported_integer_id_is_a_collision (fs : disk) (doc : node)
    (val : string) (tags : list string) (message : string) (i : Z) :
  parse_xml fs doc_path = Some doc →
  Validate.unique_ids val tags message ∈ Validate.check_unique_ids fs →
  Py.int val = Some i →
  shared_across_kinds doc i ∧ has_collision doc = true.
Proof.
  intros Hdoc Hin Hi.
  assert (val ≠ "" ∧ same_text_across_kinds doc val) as [Hv Hsame].
  { apply (UniqueIds.check_unique_ids_spec _ _ _ Hdoc). eauto. }
  pose proof (UniqueIds.same_text_shared _ _ _ Hv Hsame Hi) as Hshared.
  split; [done|]. destruct (has_collision doc) eqn:E; [done|].
  by apply has_collision_false in Hshared.
Qed.

Lemma reported_integer_id_is_a_collision_witness :
  parse_xml busy doc_path = Some busy_document
  ∧ Validate.unique_ids "5" ["w:bookmarkStart"; "w:bookmarkEnd"; "w:ins"]
      "ID 5 shared across annotation types: w:bookmarkStart, w:bookmarkEnd, w:ins"
    ∈ Validate.check_unique_ids busy
  ∧ has_collision busy_document = true.
Proof.
  assert (parse_xml busy doc_path = Some busy_document) as H1
    by (vm_compute; reflexivity).
  assert (Validate.unique_ids "5" ["w:bookmarkStart"; "w:bookmarkEnd"; "w:ins"]
            "ID 5 shared across annotation types: w:bookmarkStart, w:bookmarkEnd, w:ins"
          ∈ Validate.check_unique_ids busy) as H2.
  { vm_compute. apply list_elem_of_here. }
  split_and!; [exact H1|exact H2|].
  apply (reported_integer_id_is_a_collision _ _ _ _ _ 5%Z H1 H2).
  vm_compute. reflexivity.
Defined.

(** X7.  After the repair pipeline the unique-id check can only report ids
    that do not read as integers. *)
Theorem no_integer_id_reported_after_repair (fs : disk) (val : string)
    (tags : list string) (message : string) :
  Validate.unique_ids val tags message
  ∈ Validate.check_unique_ids (main fs).2 →
  Py.int val = None.
Proof.
  intros Hin.
  destruct (parse_xml (main fs).2 doc_path) as [doc'|] eqn:Hdoc.
  - assert (val ≠ "" ∧ same_text_across_kinds doc' val) as [Hv Hsame].
    { apply (UniqueIds.check_unique_ids_spec _ _ _ Hdoc). eauto. }
    destruct (Py.int val) as [i|] eqn:Hi; [|done].
    destruct (main_collision_free fs doc') with (i := i).
    + by rewrite <- main_state.
    + by apply (UniqueIds.same_text_shared _ _ _ Hv Hsame).
  - unfold Validate.check_unique_ids in Hin.
    change "word/document.xml" with doc_path in Hin.
    rewrite ReportFacts.validate_parse, Hdoc in Hin.
    by apply elem_of_nil in Hin.
Qed.

Lemma no_integer_id_reported_after_repair_witness :
  Validate.unique_ids "x" ["w:bookmarkStart"; "w:ins"]
    "ID x shared across annotation types: w:bookmarkStart, w:ins"
  ∈ Validate.check_unique_ids (main lettered_pkg).2
  ∧ Py.int "x" = None.
Proof.
  assert (Validate.unique_ids "x" ["w:bookmarkStart"; "w:ins"]
            "ID x shared across annotation types: w:bookmarkStart, w:ins"
          ∈ Validate.check_unique_ids (main lettered_pkg).2) as H1.
  { vm_compute. apply list_elem_of_here. }
  split; [exact H1|].
  apply (no_integer_id_reported_after_repair _ _ _ _ H1).
Defined.

(** X8.  On a package that reads back as it is written, after the orphan
    cleaner has run, every paraId the validator's cross-reference check
    reports, reading the directory, is the paraId of a live comment: the
    check can still report a comment that lacks metadata, and no longer
    reports metadata that lacks a comment. *)
Theorem no_orphan_reported_after_cleanup (fs : disk) (comments_doc : node)
    (pid message : string) :
  parse_xml fs comments_path = Some comments_doc →
  stable fs →
  Validate.comment_artifacts pid message
  ∈ Validate.check_comment_artifacts (reopen (clean_orphaned_comments fs).2) →
  pid ∈ Validate.comment_para_ids comments_doc.
Proof.
  intros Hc Hst.
  rewrite (StableFacts.reopen_stable _
             (StableFacts.clean_orphaned_comments_stable _ Hst)).
  by apply ArtifactCheck.clean_artifacts.
Qed.

Lemma no_orphan_reported_after_cleanup_witness :
  Validate.check_comment_artifacts MoreExamples.partial_pkg
  = [Validate.comment_artifacts "X"
       "commentsExtended has paraId X with no matching w:comment";
     Validate.comment_artifacts "Q"
       "w:comment paraId Q missing from commentsExtended"]
  ∧ stable MoreExamples.partial_pkg
  ∧ Validate.check_comment_artifacts
      (reopen (clean_orphaned_comments MoreExamples.partial_pkg).2)
    = [Validate.comment_artifacts "Q"
         "w:comment paraId Q missing from commentsExtended"]
  ∧ "Q" ∈ Validate.comment_para_ids MoreExamples.partial_comments.
Proof.
  assert (Validate.check_comment_artifacts
            (reopen (clean_orphaned_comments MoreExamples.partial_pkg).2)
          = [Validate.comment_artifacts "Q"
               "w:comment paraId Q missing from commentsExtended"]) as H2
    by (vm_compute; reflexivity).
  assert (stable MoreExamples.partial_pkg) as Hst.
  { apply (bool_decide_unpack _). vm_compute. reflexivity. }
  split_and!; [vm_compute; reflexivity|exact Hst|exact H2|].
  apply (no_orphan_reported_after_cleanup MoreExamples.partial_pkg
           MoreExamples.partial_comments "Q"
           "w:comment paraId Q missing from commentsExtended").
  - vm_compute. reflexivity.
  - exact Hst.
  - rewrite H2. apply list_elem_of_here.
Defined.

(** X9.  The two counters of the deconfliction summary count the elements
    of document.xml whose identifier the pass moves: the comment-kind
    elements whose id is also a bookmark or tracked-change id, and the
    tracked-change elements whose id is also a bookmark or comment id.  These
    are the only elements whose identifier differs afterwards. *)
Theorem renumber_counters_count_moved_elements (fs : disk) (doc : node) :
  parse_xml fs doc_path = Some doc →
  let bookmark_ids := id_set doc BOOKMARK_TAGS in
  let comment_ids := id_set doc COMMENT_DOC_TAGS in
  let change_ids := id_set doc CHANGE_TAGS in
  let moved_comment el :=
    tagName el ∈ COMMENT_DOC_TAGS
    ∧ carries_id_in (bookmark_ids ∪ change_ids) el = true in
  let moved_change el :=
    tagName el ∈ CHANGE_TAGS
    ∧ carries_id_in (bookmark_ids ∪ comment_ids) el = true in
  comments_renumbered (deconflict_ids fs).1
  = length (filter moved_comment (elems doc))
  ∧ changes_renumbered (deconflict_ids fs).1
    = length (filter moved_change (elems doc))
  ∧ (∀ el, el ∈ elems doc →
       w_id (rewritten doc el) ≠ w_id el ↔ moved_comment el ∨ moved_change el)
  ∧ (has_collision doc = true →
       ∃ doc', parse_xml (deconflict_ids fs).2 doc_path = Some doc'
               ∧ elems doc' = rewritten doc <$> elems doc).
Proof.
  intros Hdoc. cbv zeta. split_and!.
  - destruct (has_collision doc) eqn:Hcol.
    + rewrite (deconflict_ids_collision _ _ Hdoc Hcol). cbn [fst].
      apply DeconflictCount.comments_count.
    + rewrite (deconflict_ids_clean _ _ Hdoc Hcol). cbn [fst].
      by destruct (DeconflictCount.no_collision_counts doc Hcol) as [-> _].
  - destruct (has_collision doc) eqn:Hcol.
    + rewrite (deconflict_ids_collision _ _ Hdoc Hcol). cbn [fst].
      apply DeconflictCount.changes_count.
    + rewrite (deconflict_ids_clean _ _ Hdoc Hcol). cbn [fst].
      by destruct (DeconflictCount.no_collision_counts doc Hcol) as [_ ->].
  - apply Rewritten.rewritten_moves.
  - intros Hcol. exists (deconflict_doc doc).
    rewrite (deconflict_ids_doc _ _ Hdoc), Hcol.
    split; [done|apply Rewritten.elems_deconflict_doc].
Qed.

Lemma renumber_counters_count_moved_elements_witness :
  parse_xml busy doc_path = Some busy_document
  ∧ comments_renumbered (deconflict_ids busy).1 = 3
  ∧ comments_renumbered (deconflict_ids busy).1
    = length (filter (λ el, tagName el ∈ COMMENT_DOC_TAGS
                            ∧ carries_id_in
                                (id_set busy_document BOOKMARK_TAGS
                                 ∪ id_set busy_document CHANGE_TAGS) el = true)
                (elems busy_document)).
Proof.
  assert (parse_xml busy doc_path = Some busy_document) as H1
    by (vm_compute; reflexivity).
  split_and!; [exact H1|vm_compute; reflexivity|].
  apply (renumber_counters_count_moved_elements busy busy_document H1).
Defined.

(** X10.  The comment mapping that rewrites the range markers and
    references in document.xml is the one applied to the [w:comment] entries
    of comments.xml: a marker and an entry that carried the same id before
    the pass carry the same id after it. *)
Theorem comment_links_survive_renumbering (fs : disk) (doc comments_doc : node) :
  parse_xml fs doc_path = Some doc →
  parse_xml fs comments_path = Some comments_doc →
  has_collision doc = true →
  let mirror := renumber ["w:comment"] (comment_id_remap doc).1 in
  parse_xml (deconflict_ids fs).2 doc_path = Some (deconflict_doc doc)
  ∧ parse_xml (deconflict_ids fs).2 comments_path = Some (mirror comments_doc)
  ∧ elems (deconflict_doc doc) = rewritten doc <$> elems doc
  ∧ elems (mirror comments_doc) = mirror <$> elems comments_doc
  ∧ ∀ marker entry,
      marker ∈ elems doc → tagName marker ∈ COMMENT_DOC_TAGS →
      entry ∈ elems comments_doc → tagName entry = "w:comment" →
      w_id marker = w_id entry →
      w_id (rewritten doc marker) = w_id (mirror entry).
Proof.
  intros Hdoc Hc Hcol. cbv zeta. split_and!.
  - by rewrite (deconflict_ids_doc _ _ Hdoc), Hcol.
  - rewrite (deconflict_ids_collision _ _ Hdoc Hcol). cbn [snd]. rewrite Hc.
    case_bool_decide as Hne.
    + apply parse_write_eq.
    + rewrite parse_write_ne by done. rewrite Hc.
      rewrite Hne. by rewrite Rewritten.renumber_empty.
  - apply Rewritten.elems_deconflict_doc.
  - apply elems_map_elems.
  - intros marker entry Hm Htm He Hte Hid.
    rewrite Rewritten.w_id_rewritten by (by eapply elems_is_elem).
    rewrite decide_True by done.
    rewrite w_id_renumber by (by eapply elems_is_elem).
    rewrite decide_True by (rewrite Hte; apply list_elem_of_here).
    by rewrite Hid.
Qed.

Lemma comment_links_survive_renumbering_witness :
  parse_xml busy doc_path = Some busy_document
  ∧ parse_xml busy comments_path = Some busy_comments
  ∧ has_collision busy_document = true
  ∧ parse_xml (deconflict_ids busy).2 comments_path
    = Some (renumber ["w:comment"] (comment_id_remap busy_document).1
              busy_comments)
  ∧ w_id <$> get_elements_by_tag
               (renumber ["w:comment"] (comment_id_remap busy_document).1
                  busy_comments) "w:comment"
    = [Some 10%Z].
Proof.
  assert (parse_xml busy doc_path = Some busy_document) as H1
    by (vm_compute; reflexivity).
  assert (parse_xml busy comments_path = Some busy_comments) as H2
    by (vm_compute; reflexivity).
  assert (has_collision busy_document = true) as H3
    by (vm_compute; reflexivity).
  split_and!; [exact H1|exact H2|exact H3| |vm_compute; reflexivity].
  apply (comment_links_survive_renumbering busy _ _ H1 H2 H3).
Defined.

(** X11.  The pass never merges identifiers and never splits a pair: two
    annotation elements of document.xml with different ids have different
    ids afterwards, and two elements of one kind with the same id (a
    bookmark start and its end, the markers and the reference of a comment)
    have the same id afterwards. *)
Theorem renumbering_keeps_ids_apart (doc e1 e2 : node)
    (k1 k2 : Validate.kind) (i1 i2 : Z) :
  e1 ∈ elems doc → e2 ∈ elems doc →
  tagName e1 ∈ kind_tags k1 → tagName e2 ∈ kind_tags k2 →
  w_id e1 = Some i1 → w_id e2 = Some i2 →
  elems (deconflict_doc doc) = rewritten doc <$> elems doc
  ∧ (i1 ≠ i2 → w_id (rewritten doc e1) ≠ w_id (rewritten doc e2))
  ∧ (k1 = k2 → i1 = i2 → w_id (rewritten doc e1) = w_id (rewritten doc e2)).
Proof.
  intros He1 He2 Ht1 Ht2 Hid1 Hid2. split_and!.
  - apply Rewritten.elems_deconflict_doc.
  - apply (Apart.rewritten_apart doc e1 e2 i1 i2); try done;
      by eapply Apart.kind_tags_cases.
  - intros <- <-. apply (Apart.rewritten_together doc k1); try done;
      try (by eapply elems_is_elem). congruence.
Qed.

Lemma renumbering_keeps_ids_apart_witness :
  let start := el "w:commentRangeStart" [("w:id", "9")] in
  let deletion := el "w:del" [("w:id", "9")] in
  let insertion := Elem "w:ins" [("w:id", "5")] [Elem "w:t" [] [Text " foo "]] in
  w_id (rewritten busy_document start) = Some 10%Z
  ∧ w_id (rewritten busy_document deletion) = Some 12%Z
  ∧ w_id (rewritten busy_document insertion)
    ≠ w_id (rewritten busy_document deletion).
Proof.
  cbv zeta. split_and!; [vm_compute; reflexivity..|].
  refine (proj1 (proj2 (renumbering_keeps_ids_apart busy_document
            (Elem "w:ins" [("w:id", "5")] [Elem "w:t" [] [Text " foo "]])
            (el "w:del" [("w:id", "9")])
            Validate.change Validate.change 5 9 _ _ _ _ _ _)) _).
  - vm_compute.
    repeat first [apply list_elem_of_here | apply list_elem_of_further].
  - vm_compute.
    repeat first [apply list_elem_of_here | apply list_elem_of_further].
  - vm_compute. apply list_elem_of_here.
  - vm_compute. apply list_elem_of_further, list_elem_of_here.
  - vm_compute. reflexivity.
  - vm_compute. reflexivity.
  - lia.
Defined.

(** X12.  The pass rewrites [w:id] values of comment-kind and tracked-change
    elements and nothing else: every element keeps its place, its tag, its
    text and every other attribute, and an element of any other tag, a
    bookmark among them, keeps all its attributes. *)
Theorem deconfliction_only_rewrites_ids (doc el : node) :
  el ∈ elems doc →
  elems (deconflict_doc doc) = rewritten doc <$> elems doc
  ∧ tagName (rewritten doc el) = tagName el
  ∧ text_of (rewritten doc el) = text_of el
  ∧ (∀ name, name ≠ "w:id" →
       getAttribute (rewritten doc el) name = getAttribute el name)
  ∧ (tagName el ∉ COMMENT_DOC_TAGS → tagName el ∉ CHANGE_TAGS →
       attributes (rewritten doc el) = attributes el).
Proof.
  intros Hel. pose proof (elems_is_elem _ _ Hel) as Helem. split_and!.
  - apply Rewritten.elems_deconflict_doc.
  - apply Rewritten.rewritten_tagName.
  - apply Rewritten.rewritten_text.
  - intros name Hname. by apply Rewritten.rewritten_other_attr.
  - by apply Rewritten.rewritten_foreign.
Qed.

Lemma deconfliction_only_rewrites_ids_witness :
  el "w:bookmarkStart" [("w:id", "5")] ∈ elems busy_document
  ∧ attributes (rewritten busy_document (el "w:bookmarkStart" [("w:id", "5")]))
    = [("w:id", "5")].
Proof.
  assert (el "w:bookmarkStart" [("w:id", "5")] ∈ elems busy_document) as H1.
  { vm_compute. apply list_elem_of_further, list_elem_of_here. }
  split; [exact H1|].
  apply (deconfliction_only_rewrites_ids busy_document _ H1).
  - vm_compute. intros H.
    repeat (apply elem_of_cons in H as [H|H]; [discriminate|]).
    by apply elem_of_nil in H.
  - vm_compute. intros H.
    repeat (apply elem_of_cons in H as [H|H]; [discriminate|]).
    by apply elem_of_nil in H.
Defined.

(** X13.  The grand total of the repair report is zero exactly when the
    pipeline left the package as it found it, files and write log alike;
    and it is not zero exactly when some part was written. *)
Theorem zero_report_means_untouched (fs : disk) :
  (total_changes (main fs).1 = 0 ↔ (main fs).2 = fs)
  ∧ (total_changes (main fs).1 ≠ 0 ↔ written (main fs).2 ≠ written fs).
Proof.
  pose proof (Counted.main_counted fs) as [[Hz Hsame]|[Hpos Hlen]].
  - rewrite Hz, Hsame. split; split; done.
  - split; split.
    + lia.
    + intros Heq. rewrite Heq in Hlen. lia.
    + intros _ Heq. rewrite Heq in Hlen. lia.
    + lia.
Qed.

(** X14.  On a package that reads back as it is written, deconfliction,
    dedup and the white-space phase are idempotent: run again on their own
    output, read from the directory, they report nothing and write nothing.
    The orphan cleaner is, too, when no commentEx of commentsExtended.xml
    lies inside another. *)
Theorem phases_idempotent (fs : disk) :
  stable fs →
  deconflict_ids (reopen (deconflict_ids fs).2)
  = (IdSummary 0 0, reopen (deconflict_ids fs).2)
  ∧ dedup_relationships (reopen (dedup_relationships fs).2)
    = (DedupSummary 0 0, reopen (dedup_relationships fs).2)
  ∧ fix_xml_space (reopen (fix_xml_space fs).2)
    = (0, reopen (fix_xml_space fs).2)
  ∧ (flat_comments_extended fs →
       clean_orphaned_comments (reopen (clean_orphaned_comments fs).2)
       = (0, reopen (clean_orphaned_comments fs).2)).
Proof.
  intros Hst.
  rewrite (StableFacts.reopen_stable _
             (StableFacts.deconflict_ids_stable _ Hst)).
  rewrite (StableFacts.reopen_stable _
             (StableFacts.dedup_relationships_stable _ Hst)).
  rewrite (StableFacts.reopen_stable _
             (StableFacts.fix_xml_space_stable _ Hst)).
  rewrite (StableFacts.reopen_stable _
             (StableFacts.clean_orphaned_comments_stable _ Hst)).
  split_and!.
  - apply Again.deconflict_ids_again.
  - apply Again.dedup_relationships_again.
  - apply Again.fix_xml_space_again.
  - apply Again.clean_orphaned_comments_again.
Qed.

Lemma phases_idempotent_witness :
  stable busy
  ∧ (dedup_relationships busy).1 = DedupSummary 2 1
  ∧ dedup_relationships (reopen (dedup_relationships busy).2)
    = (DedupSummary 0 0, reopen (dedup_relationships busy).2).
Proof.
  assert (stable busy) as Hst.
  { apply (bool_decide_unpack _). vm_compute. reflexivity. }
  split_and!; [exact Hst|vm_compute; reflexivity|].
  apply (phases_idempotent busy Hst).
Defined.

(** X15.  The white-space phase adds [xml:space="preserve"] to text runs
    and does nothing else: every element keeps its place, its tag, its text
    and every other attribute; an element that is not a [w:t], a [w:t]
    without outer white space, and a [w:t] that already has an [xml:space]
    value, whatever it is, keep all their attributes. *)
Theorem whitespace_phase_only_adds_preserve (doc el : node) :
  el ∈ elems doc →
  elems (add_preserve doc) = add_preserve <$> elems doc
  ∧ tagName (add_preserve el) = tagName el
  ∧ text_of (add_preserve el) = text_of el
  ∧ (∀ name, name ≠ "xml:space" →
       getAttribute (add_preserve el) name = getAttribute el name)
  ∧ (tagName el ≠ "w:t" → attributes (add_preserve el) = attributes el)
  ∧ (getAttribute el "xml:space" ≠ "" →
       attributes (add_preserve el) = attributes el)
  ∧ (lacks_preserve el = false → attributes (add_preserve el) = attributes el)
  ∧ (tagName el = "w:t" → lacks_preserve el = true →
       getAttribute (add_preserve el) "xml:space" = "preserve").
Proof.
  intros Hel. pose proof (elems_is_elem _ _ Hel) as Helem. split_and!.
  - apply elems_map_elems.
  - apply Preserve.add_preserve_tagName.
  - apply Preserve.add_preserve_text.
  - intros name Hname. by apply Preserve.add_preserve_other_attr.
  - intros Ht. apply Preserve.add_preserve_kept; auto.
  - intros Ha. apply Preserve.add_preserve_kept; [done|].
    right. by apply Preserve.lacks_preserve_attr.
  - intros Hl. apply Preserve.add_preserve_kept; auto.
  - intros Ht Hl. by apply Preserve.add_preserve_marked.
Qed.

Lemma whitespace_phase_only_adds_preserve_witness :
  Elem "w:t" [] [Text " foo "] ∈ elems busy_document
  ∧ getAttribute (add_preserve (Elem "w:t" [] [Text " foo "])) "xml:space"
    = "preserve".
Proof.
  assert (Elem "w:t" [] [Text " foo "] ∈ elems busy_document) as H1.
  { vm_compute.
    repeat first [apply list_elem_of_here | apply list_elem_of_further]. }
  split; [exact H1|].
  apply (whitespace_phase_only_adds_preserve busy_document _ H1);
    vm_compute; reflexivity.
Defined.



(** X17.  Validating what the repair pipeline leaves behind of a package
    that reads back as it is written: the duplicate-entries and white-space
    checks contribute nothing, so the validator's issue list is made of the
    records of its first three checks, the issue count is their number, and
    the exit status is 0, with the verdict PASS, exactly when those three
    checks are silent. *)
Theorem validation_after_repair (fs : disk) :
  stable fs →
  let fs' := reopen (main fs).2 in
  let remaining :=
    Validate.check_unique_ids fs' ++ Validate.check_comment_consistency fs'
    ++ Validate.check_comment_artifacts fs' in
  Report.issues (Report.main fs').1 = Report.from_check <$> remaining
  ∧ Report.issue_count (Report.main fs').1 = length remaining
  ∧ ((Report.main fs').2 = 0%Z ↔ remaining = [])
  ∧ (Report.status (Report.main fs').1 = Report.PASS ↔ remaining = []).
Proof.
  intros Hst. cbv zeta.
  rewrite (StableFacts.reopen_stable _ (StableFacts.main_stable _ Hst)).
  unfold Report.main. cbv zeta.
  rewrite (proj2 (ReportFacts.check_duplicate_entries_nil _)
             (ReportFacts.main_duplicate_free fs)).
  rewrite (proj2 (SpaceCheck.check_xml_space_nil (main fs).2)
             (SpaceCheck.main_space_marked fs)).
  rewrite !app_nil_r, <- !fmap_app.
  destruct (Validate.check_unique_ids (main fs).2
            ++ Validate.check_comment_consistency (main fs).2
            ++ Validate.check_comment_artifacts (main fs).2) as [|i l];
    cbn [fmap list_fmap fst snd Report.issues Report.issue_count
         Report.status length].
  - done.
  - rewrite length_fmap. split_and!; [done|done|split; done|split; done].
Qed.

Lemma validation_after_repair_witness :
  stable busy
  ∧ Report.issue_count (Report.main busy).1 = 8
  ∧ Report.status (Report.main (reopen (main busy).2)).1 = Report.PASS.
Proof.
  assert (stable busy) as Hst.
  { apply (bool_decide_unpack _). vm_compute. reflexivity. }
  split_and!; [exact Hst|vm_compute; reflexivity|].
  apply (validation_after_repair busy Hst). vm_compute. reflexivity.
Defined.

(** X18.  The identifier index, entry by entry: under an integer it files
    the elements of the tag list whose [w:id] reads as that integer, tag by
    tag in the order of the tag list and in document order within a tag,
    each with its tag; and it has no entry for an integer that no such
    element carries. *)
Theorem index_files_elements_by_id (doc : node) (tags : list string) (i : Z) :
  default [] (collect_w_ids doc tags !! i)
  = (tags ≫= λ tag,
       (λ el, (tag, el))
       <$> filter (λ el, w_id el = Some i) (get_elements_by_tag doc tag))
  ∧ (collect_w_ids doc tags !! i = None
     ↔ ∀ el, el ∈ elems doc → tagName el ∈ tags → w_id el ≠ Some i).
Proof.
  split.
  - apply IndexEntries.collect_w_ids_entries_list.
  - apply IndexEntries.collect_w_ids_None.
Qed.

(** X19.  The fresh identifiers are consecutive and are handed out in
    ascending order of the old ones, comments first: the comment mapping
    takes exactly the values max+1 .. n-1 and the tracked-change mapping
    exactly the values n .. m-1, where max is the largest id of the document,
    n the counter after the comment mapping and m the counter after the
    tracked-change mapping; and each mapping is strictly increasing. *)
Theorem fresh_ids_are_consecutive (doc : node) :
  let max_id :=
    set_max (id_set doc (BOOKMARK_TAGS ++ COMMENT_DOC_TAGS ++ CHANGE_TAGS)) in
  let comment_remap := (comment_id_remap doc).1 in
  let after_comments := (comment_id_remap doc).2 in
  let change_remap := (change_id_remap doc).1 in
  let after_changes := (change_id_remap doc).2 in
  (max_id + 1 ≤ after_comments ≤ after_changes)%Z
  ∧ (∀ j, (∃ i, comment_remap !! i = Some j)
          ↔ (max_id + 1 ≤ j < after_comments)%Z)
  ∧ (∀ j, (∃ i, change_remap !! i = Some j)
          ↔ (after_comments ≤ j < after_changes)%Z)
  ∧ (∀ i1 i2 j1 j2,
       comment_remap !! i1 = Some j1 → comment_remap !! i2 = Some j2 →
       (i1 < i2)%Z → (j1 < j2)%Z)
  ∧ (∀ i1 i2 j1 j2,
       change_remap !! i1 = Some j1 → change_remap !! i2 = Some j2 →
       (i1 < i2)%Z → (j1 < j2)%Z).
Proof.
  cbv zeta. unfold change_id_remap, comment_id_remap. cbv zeta.
  match goal with
  | |- context [build_remap (sorted ?s) ?c ?n] =>
      destruct (Fresh.build_remap_range (sorted s) c n (Fresh.NoDup_sorted s))
        as [Hle1 Hr1]
  end.
  cbv zeta in Hle1, Hr1.
  match goal with
  | |- context [build_remap (sorted ?s) ?c (build_remap ?l ?c' ?n).2] =>
      destruct (Fresh.build_remap_range (sorted s) c (build_remap l c' n).2
                  (Fresh.NoDup_sorted s)) as [Hle2 Hr2]
  end.
  cbv zeta in Hle2, Hr2. split_and!; [lia|lia|exact Hr1|exact Hr2| |].
  - intros i1 i2 j1 j2.
    apply Fresh.build_remap_mono, Fresh.strictly_sorted;
      [apply sorted_ascending|apply Fresh.NoDup_sorted].
  - intros i1 i2 j1 j2.
    apply Fresh.build_remap_mono, Fresh.strictly_sorted;
      [apply sorted_ascending|apply Fresh.NoDup_sorted].
Qed.

(** X20.  The orphan cleaner never removes an entry of commentsExtended.xml
    or commentsIds.xml whose paraId is that of a live comment paragraph, nor
    one without a paraId: in a part whose entries do not lie inside one
    another, the entries left are exactly those, in their old order. *)
Theorem cleaner_keeps_valid_entries (fs : disk) (comments_doc : node) :
  parse_xml fs comments_path = Some comments_doc →
  let valid := valid_para_ids comments_doc in
  let fs' := (clean_orphaned_comments fs).2 in
  (∀ doc, parse_xml fs ext_path = Some doc →
     no_nesting "w15:commentEx" doc →
     doc_elements_by_tag (parse_xml fs' ext_path) "w15:commentEx"
     = filter (λ el, getAttribute el "w15:paraId" = ""
                     ∨ getAttribute el "w15:paraId" ∈ valid)
         (get_elements_by_tag doc "w15:commentEx"))
  ∧ (∀ doc, parse_xml fs ids_path = Some doc →
       no_nesting "w16cid:commentId" doc →
       doc_elements_by_tag (parse_xml fs' ids_path) "w16cid:commentId"
       = filter (λ el, getAttribute el "w16cid:paraId" = ""
                       ∨ getAttribute el "w16cid:paraId" ∈ valid)
           (get_elements_by_tag doc "w16cid:commentId")).
Proof.
  intros Hc. cbv zeta. split; intros doc Hdoc Hflat.
  - by apply Kept.clean_ext_flat.
  - by apply Kept.clean_ids_flat.
Qed.

Lemma cleaner_keeps_valid_entries_witness :
  parse_xml busy comments_path = Some busy_comments
  ∧ doc_elements_by_tag
      (parse_xml (clean_orphaned_comments busy).2 ext_path) "w15:commentEx"
    = [el "w15:commentEx" [("w15:paraId", "P"); ("w15:durableId", "D2")]]
  ∧ doc_elements_by_tag
      (parse_xml (clean_orphaned_comments busy).2 ext_path) "w15:commentEx"
    = filter (λ el, getAttribute el "w15:paraId" = ""
                    ∨ getAttribute el "w15:paraId"
                      ∈ valid_para_ids busy_comments)
        (get_elements_by_tag busy_extended "w15:commentEx").
Proof.
  assert (parse_xml busy comments_path = Some busy_comments) as H1
    by (vm_compute; reflexivity).
  split_and!; [exact H1|vm_compute; reflexivity|].
  apply (cleaner_keeps_valid_entries busy busy_comments H1).
  - vm_compute. reflexivity.
  - vm_compute. repeat constructor.
Defined.

Example busy_fresh_ids :
  map_to_list (comment_id_remap busy_document).1 = [(9, 10)]%Z
  ∧ (comment_id_remap busy_document).2 = 11%Z
  ∧ (change_id_remap busy_document).1 !! 5%Z = Some 11%Z
  ∧ (change_id_remap busy_document).1 !! 9%Z = Some 12%Z
  ∧ (change_id_remap busy_document).2 = 13%Z.
Proof. vm_compute. done. Qed.

Example validate_busy :
  (Report.main busy).2 = 1%Z
  ∧ Report.issue_count (Report.main busy).1 = 8
  ∧ Report.main (main busy).2 = (Report.Result Report.PASS 0 [], 0%Z).
Proof. vm_compute. done. Qed.
